(** * PyMturkGspread: the screening / reconciliation pipeline of [mturk.py]

    A shallow embedding of [PyMturkGspread/mturk.py] (classes [Survey] and
    [GoogleForms]) together with the properties of its filtering,
    reconciliation, notification and bonus logic.

    Conventions of the embedding.
    - A Python call that may raise returns a [result]; the exception classes
      that the modelled code can meet are the constructors of [exn].
    - The object [self] is the record [Self]; an attribute that has not been
      assigned yet is [None], and reading it raises [AttributeError].
    - A method is a function [Self -> list event -> result A * Self * list event]:
      attribute updates and the events emitted before an exception survive it,
      as they do in Python.
    - The external collaborators (Mechanical Turk connection, Google Sheets
      service, the [re] engine behind [str.contains]) are the fields of
      [World].
    - A pandas [DataFrame] is a [Frame]: its column labels and its rows, each
      row carrying its index label.
    - Python floats are IEEE 754 binary64 numbers ([PrimFloat]). *)

From Stdlib Require Import Floats.
From stdpp Require Import gmap strings list.

Local Open Scope string_scope.
Local Open Scope list_scope.

(** ** Python values and exceptions *)

Inductive exn : Type :=
  | AttributeError
  | IndexError
  | KeyError
  | ValueError
  | TypeError
  | NotImplementedError
  | OtherError (msg : string).

Inductive result (A : Type) : Type :=
  | Return (a : A)
  | Raise (e : exn).
Arguments Return {A} a.
Arguments Raise {A} e.

Definition rbind {A B} (r : result A) (k : A -> result B) : result B :=
  match r with
  | Return a => k a
  | Raise e => Raise e
  end.

(** [xs[i]] on a Python list. *)
Definition py_index {A} (xs : list A) (i : nat) : result A :=
  match nth_error xs i with
  | Some x => Return x
  | None => Raise IndexError
  end.

(** [for x in xs: ...] where the body may raise: the first exception stops
    the loop. *)
Fixpoint rmapM {A B} (f : A -> result B) (xs : list A) : result (list B) :=
  match xs with
  | [] => Return []
  | x :: xs' =>
      rbind (f x) (fun y => rbind (rmapM f xs') (fun ys => Return (y :: ys)))
  end.

(** ** Strings *)

(** [pat in s] for two Python strings: [pat] occurs in [s] as a substring. *)
Fixpoint str_in (pat s : string) : bool :=
  String.prefix pat s
  || match s with
     | EmptyString => false
     | String _ s' => str_in pat s'
     end.

(** [s.split(sep)] for a non-empty separator.  The scan goes left to right;
    at a position where [sep] starts the current piece is closed and the
    following [length sep - 1] characters (the rest of the separator) are
    skipped, so occurrences never overlap.  [skip] counts the separator
    characters still to pass over and [cur] is the piece being built. *)
Fixpoint split_go (sep : string) (skip : nat) (cur s : string) : list string :=
  match s with
  | EmptyString => [cur]
  | String c s' =>
      match skip with
      | S k => split_go sep k cur s'
      | O =>
          if String.prefix sep s
          then cur :: split_go sep (String.length sep - 1) "" s'
          else split_go sep 0 (cur +:+ String c "") s'
      end
  end.

Definition py_split (s sep : string) : list string := split_go sep 0 "" s.

(** [a >= b] and [a <= b] on Python strings: lexicographic order on the
    code units. *)
Definition str_ge (a b : string) : bool := String.leb b a.
Definition str_le (a b : string) : bool := String.leb a b.

(** ** Conditions ([Survey.add_conditions]) *)

(** The keys of [self.cond_mapping], in the order in which the dictionary
    literal lists them (the iteration order of a Python 3 dict). *)
Definition cond_mapping_keys : list string :=
  ["=="; "!="; ">="; "<="; "contains"; "does not contain"].

(** [any(f in cond for f in self.cond_mapping)] *)
Definition has_operand (keys : list string) (cond : string) : bool :=
  existsb (fun f => str_in f cond) keys.

(** [[x for x in self.cond_mapping if x in cond]] *)
Definition matching_operands (keys : list string) (cond : string) : list string :=
  List.filter (fun x => str_in x cond) keys.

(** The validation loop of [add_conditions]: the first condition without any
    permitted operand raises [ValueError]. *)
Fixpoint check_conditions (keys : list string) (conds : list string) : result unit :=
  match conds with
  | [] => Return tt
  | cond :: rest =>
      if negb (has_operand keys cond) then Raise ValueError
      else check_conditions keys rest
  end.

(** ** pandas frames *)

(** A [DataFrame]: the column labels, and the rows in order, each with its
    index label and its cells (one per column).  [L] is the type of the
    column labels, [I] of the index labels and [C] of the cells. *)
Record Frame (L I C : Type) : Type := mkFrame {
  columns : list L;
  rows : list (I * list C)
}.
Arguments mkFrame {L I C} columns rows.
Arguments columns {L I C} f.
Arguments rows {L I C} f.

(** What [df[label]] denotes: a [Series] when the label names one column, a
    sub-frame when several columns carry it. *)
Inductive selection : Type :=
  | Series (p : nat)
  | SubFrame (ps : list nat).

Section frames.
Context {L I C : Type} `{EqDecision L}.

Fixpoint label_positions (from : nat) (label : L) (cols : list L) : list nat :=
  match cols with
  | [] => []
  | c :: cols' =>
      if bool_decide (label = c) then from :: label_positions (S from) label cols'
      else label_positions (S from) label cols'
  end.

(** [df[label]]: [KeyError] when no column has the label. *)
Definition getitem (cols : list L) (label : L) : result selection :=
  match label_positions 0 label cols with
  | [] => Raise KeyError
  | [p] => Return (Series p)
  | ps => Return (SubFrame ps)
  end.

(** [df[label]] where a [Series] is needed to build a boolean mask or to
    join on.  With a label that several columns carry pandas gets a
    sub-frame and rejects it with a [ValueError] (a mask of the wrong
    shape, a join key that "is not unique"). *)
Definition getseries (cols : list L) (label : L) : result nat :=
  match label_positions 0 label cols with
  | [] => Raise KeyError
  | [p] => Return p
  | _ => Raise ValueError
  end.

(** [pd.DataFrame(data, columns=cols)]: the rows get the labels
    [0, 1, ..., len(data) - 1]. *)
Definition DataFrame (data : list (list C)) (cols : list L) : Frame L nat C :=
  mkFrame cols (zip (seq 0 (length data)) data).

(** [df[mask]] for a boolean mask computed row by row: the rows where the
    mask holds, in order, each keeping its index label. *)
Definition select_rows (mask : list C -> bool) (df : Frame L I C) : Frame L I C :=
  mkFrame (columns df) (List.filter (fun r => mask r.2) (rows df)).

(** [list(df.index)] *)
Definition index (df : Frame L I C) : list I := map fst (rows df).

(** The cells of the column at position [p], top to bottom. *)
Definition column_values (p : nat) (df : Frame L I C) : list (option C) :=
  map (fun r => r.2 !! p) (rows df).

(** [x[x.index.isin(y.index)]]: the rows of [x] whose index label is the
    label of some row of [y]. *)
Definition isin_index `{EqDecision I} (x y : Frame L I C) : Frame L I C :=
  mkFrame (columns x)
    (List.filter (fun r => bool_decide (r.1 ∈ index y)) (rows x)).
End frames.

(** *** [pd.merge]

    Inner join, as pandas computes it for [pd.merge(left, right, on=keys)]
    and [pd.merge(left, right, left_on=lk, right_on=rk)]:
    - each key label is resolved first in [right], then in [left]; a label
      that no column carries raises [KeyError], a label carried by several
      columns raises [ValueError];
    - a left row and a right row are joined when their key cells agree; the
      joined rows come in the order of the left rows and, for one left row,
      in the order of the matching right rows;
    - the result has the left columns followed by the right columns, minus
      the right key columns whose label is also the left key label; a label
      that is then found on both sides gets the suffix [_x] on the left and
      [_y] on the right;
    - when a suffix makes two labels of one side coincide (a suffixed label
      repeats an earlier label of its side where the label before the
      suffix did not), pandas raises [MergeError], a [ValueError];
    - the result is indexed [0, 1, ...]. *)
Section merge.
Context {L C : Type} `{EqDecision L} `{EqDecision C}.
Variable with_suffix : L -> string -> L.

Definition resolve_key_pair (lcols rcols : list L) (k : L * L) : result (nat * nat) :=
  rbind (getseries rcols k.2) (fun rp =>
  rbind (getseries lcols k.1) (fun lp => Return (lp, rp))).

(** Positions of the right columns that the join drops. *)
Definition right_drop (keys : list (L * L)) (ps : list (nat * nat)) : list nat :=
  map (fun kp => kp.2.2)
      (List.filter (fun kp => bool_decide (kp.1.1 = kp.1.2)) (zip keys ps)).

Fixpoint drop_positions {A} (from : nat) (drop : list nat) (xs : list A) : list A :=
  match xs with
  | [] => []
  | x :: xs' =>
      if bool_decide (from ∈ drop) then drop_positions (S from) drop xs'
      else x :: drop_positions (S from) drop xs'
  end.

Definition add_suffix (others : list L) (sfx : string) (label : L) : L :=
  if bool_decide (label ∈ others) then with_suffix label sfx else label.

Definition keys_agree (ps : list (nat * nat)) (l r : list C) : bool :=
  forallb (fun p => bool_decide (l !! p.1 = r !! p.2)) ps.

Definition join_rows (ps : list (nat * nat)) (drop : list nat)
    (lrows rrows : list (nat * list C)) : list (list C) :=
  flat_map (fun l =>
    map (fun r => l.2 ++ drop_positions 0 drop r.2)
        (List.filter (fun r => keys_agree ps l.2 r.2) rrows)) lrows.

(** The duplicates that the suffixes cause on one side: a position where
    the label after renaming repeats an earlier label after renaming, while
    the label before renaming did not repeat an earlier one
    ([labels.duplicated() & ~orig.duplicated()]). *)
Fixpoint suffix_clash_from (seen_orig seen_renamed orig renamed : list L) : bool :=
  match orig, renamed with
  | o :: orig', n :: renamed' =>
      (bool_decide (n ∈ seen_renamed) && negb (bool_decide (o ∈ seen_orig)))
      || suffix_clash_from (o :: seen_orig) (n :: seen_renamed) orig' renamed'
  | _, _ => false
  end.

Definition suffix_clash (orig renamed : list L) : bool :=
  suffix_clash_from [] [] orig renamed.

Definition pd_merge_on (keys : list (L * L))
    (left right : Frame L nat C) : result (Frame L nat C) :=
  rbind (rmapM (resolve_key_pair (columns left) (columns right)) keys) (fun ps =>
    let drop := right_drop keys ps in
    let rcols := drop_positions 0 drop (columns right) in
    let llabels := map (add_suffix rcols "_x") (columns left) in
    let rlabels := map (add_suffix (columns left) "_y") rcols in
    if suffix_clash (columns left) llabels || suffix_clash rcols rlabels
    then Raise ValueError
    else Return (DataFrame (join_rows ps drop (rows left) (rows right))
                   (llabels ++ rlabels))).

(** [pd.merge(left, right, on=keys)] *)
Definition pd_merge (left right : Frame L nat C) (on : list L)
  : result (Frame L nat C) :=
  pd_merge_on (map (fun k => (k, k)) on) left right.
End merge.

(** *** [pd.concat]

    [pd.concat(objs)] drops the [None] entries, raises [ValueError] when
    nothing is left, and stacks the rows of the remaining frames, every row
    keeping the index label it had in its own frame.  The frames that the
    pipeline concatenates all come from [get_mturk_results] with the same
    question list, hence with the same columns (lemma [fetched_columns]
    below); the result takes the columns of the first frame. *)
Definition pd_concat {L I C} (objs : list (option (Frame L I C))) : result (Frame L I C) :=
  match omap id objs with
  | [] => Raise ValueError
  | df :: dfs => Return (mkFrame (columns df) (flat_map rows (df :: dfs)))
  end.

(** A Python [dict] with its insertion order: assigning to a key that is
    present replaces the value in place, a new key goes to the end. *)
Fixpoint dict_set {K V} `{EqDecision K} (d : list (K * V)) (k : K) (v : V) : list (K * V) :=
  match d with
  | [] => [(k, v)]
  | (k', v') :: d' =>
      if bool_decide (k = k') then (k, v) :: d' else (k', v') :: dict_set d' k v
  end.

Definition dict_of {K V} `{EqDecision K} (items : list (K * V)) : list (K * V) :=
  fold_left (fun d kv => dict_set d kv.1 kv.2) items [].

Fixpoint dict_get {K V} `{EqDecision K} (d : list (K * V)) (k : K) : result V :=
  match d with
  | [] => Raise KeyError
  | (k', v) :: d' => if bool_decide (k = k') then Return v else dict_get d' k
  end.

(** ** The collaborators and the object state *)

(** An answer of a submitted assignment, as boto parses it. *)
Record QuestionFormAnswer : Type := mkQuestionFormAnswer {
  qid : string;
  fields : list string
}.

Record Assignment : Type := mkAssignment {
  WorkerId : string;
  AssignmentId : string;
  answers : list (list QuestionFormAnswer)
}.

(** The frames of the pipeline: the Mechanical Turk responses, the sheet of
    the second part (a missing cell is [None]), and their join indexed by
    worker. *)
Definition MFrame : Type := Frame string nat string.
Definition SheetFrame : Type := Frame (option string) nat (option string).
Inductive merged_index : Type :=
  | Position (n : nat)
  | Worker (id : option string).
Definition MergedFrame : Type := Frame (option string) merged_index (option string).

(** An entry of [df[label].values.tolist()]: a cell, or a row of cells when
    several columns carry the label. *)
Inductive sheet_item : Type :=
  | Cell (c : option string)
  | CellRow (cs : list (option string)).

(** What the program writes or sends. *)
Inductive printed : Type :=
  | PStr (s : string)
  | PNum (x : float)
  | PFormat (template : string) (x : float).

Inductive event : Type :=
  | Print (items : list printed)
  | NotifyWorkers (user subj msg : string) (outcome : result string)
  | GrantBonus (user assignment : string) (amount : float) (reason : string)
               (outcome : result string)
  | ToCsv (fname : string) (df : MergedFrame).

(** The external services.  For each HIT the Mechanical Turk service holds
    finitely many pages of assignments: [get_assignments(hit, page_size=100,
    page_number=i)] is the [i]-th of them and every later page is empty.
    The answer to a notification or to a bonus grant may depend on everything
    that happened before (the events so far).  [re_compile pat] is the
    regular expression engine used by [str.contains]: it rejects a malformed
    pattern and otherwise tells whether the pattern is found in a value. *)
Record World : Type := mkWorld {
  get_account_balance : result (list string);
  assignment_pages : string -> list (list Assignment);
  notify_workers : list event -> string -> string -> string -> result string;
  grant_bonus : list event -> string -> string -> float -> string -> result string;
  sheet_values : string -> string -> list (list string);
  re_compile : string -> result (string -> bool)
}.

(** The six entries of [cond_mapping]. *)
Inductive operand : Type :=
  | OpEq | OpNe | OpGe | OpLe | OpContains | OpNotContains.

Inductive klass : Type := Survey | GoogleForms.

(** The attributes of [self].  Those that [__init__] does not assign are
    optional: [None] until a method assigns them. *)
Record Self : Type := mkSelf {
  cls : klass;
  HITlist : list string;
  questions : list string;
  srvy_link : string;
  from_name : string;
  spreadsheet_id : option string;
  srvy_q_text : option string;
  cond_mapping : option (list (string * operand));
  conditions : option (list string);
  mturk_resp : option MFrame;
  filtered_mturk_resp : option MFrame;
  allAssignments : option (list string);
  allUsers : option (list string);
  filteredAssignments : option (list string);
  filteredUsers : option (list string);
  completeList : option (list sheet_item);
  completeActual : option (list string);
  remaining : option (list string);
  results : option SheetFrame;
  merged : option MergedFrame
}.

Definition set_cond_mapping (v : list (string * operand)) (s : Self) : Self :=
  mkSelf (cls s) (HITlist s) (questions s) (srvy_link s) (from_name s)
    (spreadsheet_id s) (srvy_q_text s) (Some v) (conditions s) (mturk_resp s)
    (filtered_mturk_resp s) (allAssignments s) (allUsers s)
    (filteredAssignments s) (filteredUsers s) (completeList s)
    (completeActual s) (remaining s) (results s) (merged s).

Definition set_conditions (v : list string) (s : Self) : Self :=
  mkSelf (cls s) (HITlist s) (questions s) (srvy_link s) (from_name s)
    (spreadsheet_id s) (srvy_q_text s) (cond_mapping s) (Some v) (mturk_resp s)
    (filtered_mturk_resp s) (allAssignments s) (allUsers s)
    (filteredAssignments s) (filteredUsers s) (completeList s)
    (completeActual s) (remaining s) (results s) (merged s).

Definition set_mturk_resp (v : MFrame) (s : Self) : Self :=
  mkSelf (cls s) (HITlist s) (questions s) (srvy_link s) (from_name s)
    (spreadsheet_id s) (srvy_q_text s) (cond_mapping s) (conditions s) (Some v)
    (filtered_mturk_resp s) (allAssignments s) (allUsers s)
    (filteredAssignments s) (filteredUsers s) (completeList s)
    (completeActual s) (remaining s) (results s) (merged s).

Definition set_filtered_mturk_resp (v : MFrame) (s : Self) : Self :=
  mkSelf (cls s) (HITlist s) (questions s) (srvy_link s) (from_name s)
    (spreadsheet_id s) (srvy_q_text s) (cond_mapping s) (conditions s)
    (mturk_resp s) (Some v) (allAssignments s) (allUsers s)
    (filteredAssignments s) (filteredUsers s) (completeList s)
    (completeActual s) (remaining s) (results s) (merged s).

Definition set_allAssignments (v : list string) (s : Self) : Self :=
  mkSelf (cls s) (HITlist s) (questions s) (srvy_link s) (from_name s)
    (spreadsheet_id s) (srvy_q_text s) (cond_mapping s) (conditions s)
    (mturk_resp s) (filtered_mturk_resp s) (Some v) (allUsers s)
    (filteredAssignments s) (filteredUsers s) (completeList s)
    (completeActual s) (remaining s) (results s) (merged s).

Definition set_allUsers (v : list string) (s : Self) : Self :=
  mkSelf (cls s) (HITlist s) (questions s) (srvy_link s) (from_name s)
    (spreadsheet_id s) (srvy_q_text s) (cond_mapping s) (conditions s)
    (mturk_resp s) (filtered_mturk_resp s) (allAssignments s) (Some v)
    (filteredAssignments s) (filteredUsers s) (completeList s)
    (completeActual s) (remaining s) (results s) (merged s).

Definition set_filteredAssignments (v : list string) (s : Self) : Self :=
  mkSelf (cls s) (HITlist s) (questions s) (srvy_link s) (from_name s)
    (spreadsheet_id s) (srvy_q_text s) (cond_mapping s) (conditions s)
    (mturk_resp s) (filtered_mturk_resp s) (allAssignments s) (allUsers s)
    (Some v) (filteredUsers s) (completeList s) (completeActual s) (remaining s)
    (results s) (merged s).

Definition set_filteredUsers (v : list string) (s : Self) : Self :=
  mkSelf (cls s) (HITlist s) (questions s) (srvy_link s) (from_name s)
    (spreadsheet_id s) (srvy_q_text s) (cond_mapping s) (conditions s)
    (mturk_resp s) (filtered_mturk_resp s) (allAssignments s) (allUsers s)
    (filteredAssignments s) (Some v) (completeList s) (completeActual s)
    (remaining s) (results s) (merged s).

Definition set_completeList (v : list sheet_item) (s : Self) : Self :=
  mkSelf (cls s) (HITlist s) (questions s) (srvy_link s) (from_name s)
    (spreadsheet_id s) (srvy_q_text s) (cond_mapping s) (conditions s)
    (mturk_resp s) (filtered_mturk_resp s) (allAssignments s) (allUsers s)
    (filteredAssignments s) (filteredUsers s) (Some v) (completeActual s)
    (remaining s) (results s) (merged s).

Definition set_completeActual (v : list string) (s : Self) : Self :=
  mkSelf (cls s) (HITlist s) (questions s) (srvy_link s) (from_name s)
    (spreadsheet_id s) (srvy_q_text s) (cond_mapping s) (conditions s)
    (mturk_resp s) (filtered_mturk_resp s) (allAssignments s) (allUsers s)
    (filteredAssignments s) (filteredUsers s) (completeList s) (Some v)
    (remaining s) (results s) (merged s).

Definition set_remaining (v : list string) (s : Self) : Self :=
  mkSelf (cls s) (HITlist s) (questions s) (srvy_link s) (from_name s)
    (spreadsheet_id s) (srvy_q_text s) (cond_mapping s) (conditions s)
    (mturk_resp s) (filtered_mturk_resp s) (allAssignments s) (allUsers s)
    (filteredAssignments s) (filteredUsers s) (completeList s)
    (completeActual s) (Some v) (results s) (merged s).

Definition set_results (v : SheetFrame) (s : Self) : Self :=
  mkSelf (cls s) (HITlist s) (questions s) (srvy_link s) (from_name s)
    (spreadsheet_id s) (srvy_q_text s) (cond_mapping s) (conditions s)
    (mturk_resp s) (filtered_mturk_resp s) (allAssignments s) (allUsers s)
    (filteredAssignments s) (filteredUsers s) (completeList s)
    (completeActual s) (remaining s) (Some v) (merged s).

Definition set_merged (v : MergedFrame) (s : Self) : Self :=
  mkSelf (cls s) (HITlist s) (questions s) (srvy_link s) (from_name s)
    (spreadsheet_id s) (srvy_q_text s) (cond_mapping s) (conditions s)
    (mturk_resp s) (filtered_mturk_resp s) (allAssignments s) (allUsers s)
    (filteredAssignments s) (filteredUsers s) (completeList s)
    (completeActual s) (remaining s) (results s) (Some v).

(** ** Methods as state transformers *)

(** A method call: from the object and the events so far to an outcome, the
    object afterwards and the events afterwards. *)
Definition M (A : Type) : Type := Self -> list event -> result A * Self * list event.

Definition ret {A} (a : A) : M A := fun s log => (Return a, s, log).

Definition raise {A} (e : exn) : M A := fun s log => (Raise e, s, log).

Definition bind {A B} (m : M A) (k : A -> M B) : M B :=
  fun s log =>
    match m s log with
    | (Return a, s', log') => k a s' log'
    | (Raise e, s', log') => (Raise e, s', log')
    end.

Notation "'let!' x ':=' m 'in' k" := (bind m (fun x => k))
  (at level 10, x name, m at level 100, k at level 200).
Notation "m '>>' k" := (bind m (fun _ => k))
  (at level 100, k at level 200, right associativity).

(** A computation on values that may raise. *)
Definition lift {A} (r : result A) : M A := fun s log => (r, s, log).

(** [self.name]: reading an attribute that was never assigned raises
    [AttributeError]. *)
Definition attr {A} (name : Self -> option A) : M A :=
  fun s log =>
    match name s with
    | Some a => (Return a, s, log)
    | None => (Raise AttributeError, s, log)
    end.

Definition self {A} (name : Self -> A) : M A := fun s log => (Return (name s), s, log).

(** [self.name = v] *)
Definition assign (setter : Self -> Self) : M unit := fun s log => (Return tt, setter s, log).

Definition emit (e : event) : M unit := fun s log => (Return tt, s, log ++ [e]).

Definition print (items : list printed) : M unit := emit (Print items).

Definition history : M (list event) := fun s log => (Return log, s, log).

(** [for x in xs: body(x)], collecting what the bodies return. *)
Fixpoint mapM {A B} (body : A -> M B) (xs : list A) : M (list B) :=
  match xs with
  | [] => ret []
  | x :: xs' =>
      let! y := body x in
      let! ys := mapM body xs' in
      ret (y :: ys)
  end.

(** [for x in xs: acc = body(acc, x)] *)
Fixpoint foldM {A B} (body : B -> A -> M B) (xs : list A) (acc : B) : M B :=
  match xs with
  | [] => ret acc
  | x :: xs' => let! acc' := body acc x in foldM body xs' acc'
  end.

(** *** Construction *)

(** [Survey.__init__]: the balance request validates the connection; any
    failure in it is turned into [ValueError('Connection error!')]. *)
Definition Survey_init (w : World) (hitlist qs : list string) (link name : string)
  : result (Self * list event) :=
  match rbind (get_account_balance w) (fun b => py_index b 0) with
  | Return bal =>
      Return (mkSelf Survey hitlist qs link name None None
                None None None None None None None None None None None None None,
              [Print [PStr "
Connection Successful! Current balance is:"; PStr bal; PStr "
"]])
  | Raise _ => Raise ValueError
  end.

(** [GoogleForms.__init__]: the parent's, then the sheet attributes. *)
Definition GoogleForms_init (w : World) (hitlist qs : list string)
    (link sheet_id q_text name : string) : result (Self * list event) :=
  rbind (Survey_init w hitlist qs link name) (fun sl =>
    let s := sl.1 in
    Return (mkSelf GoogleForms (HITlist s) (questions s) (srvy_link s) (from_name s)
              (Some sheet_id) (Some q_text)
              None None None None None None None None None None None None None,
            sl.2)).

(** *** [add_conditions] *)

Definition cond_mapping_dict : list (string * operand) :=
  [("==", OpEq); ("!=", OpNe); (">=", OpGe); ("<=", OpLe);
   ("contains", OpContains); ("does not contain", OpNotContains)].

(** [add_conditions]: the mapping is assigned first, then every
    condition is checked, and only then the conditions are stored. *)
Definition add_conditions (conds : list string) : M unit :=
  assign (set_cond_mapping cond_mapping_dict) >>
  let! mapping := attr cond_mapping in
  lift (check_conditions (map fst mapping) conds) >>
  assign (set_conditions conds).

(** *** [get_mturk_results] *)

(** The pagination loop of [helper]: pages are read in order until the first
    empty one. *)
Fixpoint all_assignments (pages : list (list Assignment)) : list Assignment :=
  match pages with
  | [] => []
  | [] :: _ => []
  | subset :: rest => subset ++ all_assignments rest
  end.

(** The rows that one assignment contributes for [question]: one per answer
    whose [qid] is the question. *)
Definition assignment_rows (hit_id question : string) (a : Assignment)
  : result (list (list string)) :=
  rbind (py_index (answers a) 0) (fun question_form_answers =>
    rmapM (fun qfa =>
             rbind (py_index (fields qfa) 0) (fun user_response =>
               Return [hit_id; WorkerId a; AssignmentId a; user_response]))
          (List.filter (fun qfa => String.eqb (qid qfa) question)
             question_form_answers)).

(** [helper(hit_id, question)] *)
Definition helper (w : World) (hit_id question : string) : result MFrame :=
  rbind (rmapM (assignment_rows hit_id question)
           (all_assignments (assignment_pages w hit_id))) (fun rs =>
    Return (DataFrame (concat rs) ["HITID"; "WorkerID"; "AssignmentID"; question])).

Definition merge_key : list string := ["HITID"; "WorkerID"; "AssignmentID"].

(** The body of the [try]: [allPandas[0]] merged with each of
    [allPandas[1:]] in turn. *)
Definition merge_all (allPandas : list MFrame) : result MFrame :=
  rbind (py_index allPandas 0) (fun first =>
    fold_left (fun acc panda =>
                 rbind acc (fun mergedPanda =>
                   pd_merge String.append mergedPanda panda merge_key))
              (tail allPandas) (Return first)).

(** The [try ... except ValueError] around the merge and what follows it:
    a [ValueError] is reported and answered with [None], any other exception
    propagates, and a merged frame is stored in [self.mturk_resp]. *)
Definition merge_or_report (allPandas : list MFrame) : M (option MFrame) :=
  match merge_all allPandas with
  | Raise ValueError => print [PStr "There are no values!"] >> ret None
  | Raise e => raise e
  | Return mergedPanda => assign (set_mturk_resp mergedPanda) >> ret (Some mergedPanda)
  end.

Definition get_mturk_results (w : World) (hit_id : string) (questionList : list string)
  : M (option MFrame) :=
  let! allPandas := lift (rmapM (helper w hit_id) questionList) in
  merge_or_report allPandas.

(** *** [filter_mturk_results] *)

(** The lambdas of [cond_mapping], applied as [f(x, y, z)]:
    [x[x[y] == z]], [x[x[y] != z]], [x[x[y] >= z]], [x[x[y] <= z]],
    [x[x[y].str.contains(z)]] and [x[~x[y].str.contains(z)]]. *)

(** [x[y].str]: on a sub-frame [.str] does not exist ([AttributeError]). *)
Definition str_accessor (cols : list string) (y : string) : result nat :=
  rbind (getitem cols y) (fun sel =>
    match sel with
    | Series p => Return p
    | SubFrame _ => Raise AttributeError
    end).

Definition cell_test (p : nat) (test : string -> bool) (cells : list string) : bool :=
  match cells !! p with
  | Some v => test v
  | None => false
  end.

(** The boolean mask of each lambda: [x[y] == z], [x[y] != z], [x[y] >= z],
    [x[y] <= z], [x[y].str.contains(z)], [~x[y].str.contains(z)]. *)
Definition operand_mask (w : World) (op : operand) (cols : list string) (y z : string)
  : result (list string -> bool) :=
  match op with
  | OpEq =>
      rbind (getseries cols y) (fun p => Return (cell_test p (fun v => String.eqb v z)))
  | OpNe =>
      rbind (getseries cols y) (fun p =>
        Return (cell_test p (fun v => negb (String.eqb v z))))
  | OpGe =>
      rbind (getseries cols y) (fun p => Return (cell_test p (fun v => str_ge v z)))
  | OpLe =>
      rbind (getseries cols y) (fun p => Return (cell_test p (fun v => str_le v z)))
  | OpContains =>
      rbind (str_accessor cols y) (fun p =>
      rbind (re_compile w z) (fun found => Return (cell_test p found)))
  | OpNotContains =>
      rbind (str_accessor cols y) (fun p =>
      rbind (re_compile w z) (fun found =>
        Return (cell_test p (fun v => negb (found v)))))
  end.

(** [self.cond_mapping[op](x, y, z)]: the rows of [x] where the mask holds. *)
Definition apply_operand (w : World) (op : operand) (x : MFrame) (y z : string)
  : result MFrame :=
  rbind (operand_mask w op (columns x) y z) (fun mask => Return (select_rows mask x)).

(** The parse of one condition:
    [op = [x for x in self.cond_mapping if x in cond][0]],
    [var = cond.split(' ' + op + ' ')], and the three things that the call
    [self.cond_mapping[op](valid_results, var[0], var[1])] evaluates first:
    the lambda, [var[0]] and [var[1]]. *)
Definition parse_condition (mapping : list (string * operand)) (cond : string)
  : result (operand * string * string) :=
  rbind (py_index (matching_operands (map fst mapping) cond) 0) (fun op =>
    let var := py_split cond (" " +:+ op +:+ " ") in
    rbind (dict_get mapping op) (fun f =>
    rbind (py_index var 0) (fun var0 =>
    rbind (py_index var 1) (fun var1 => Return (f, var0, var1))))).

(** One turn of the loop over [self.conditions]. *)
Definition eval_condition (w : World) (mapping : list (string * operand))
    (valid_results : MFrame) (cond : string) : result MFrame :=
  rbind (parse_condition mapping cond) (fun c =>
    apply_operand w c.1.1 valid_results c.1.2 c.2).

(** [recurse(List)]: the first frame, cut down in turn to the rows whose
    index label occurs in each of the following frames. *)
Fixpoint recurse_from (x : MFrame) (rest : list MFrame) : MFrame :=
  match rest with
  | [] => x
  | y :: rest' => recurse_from (isin_index x y) rest'
  end.

Definition recurse (List : list MFrame) : result MFrame :=
  match List with
  | [] => Raise IndexError
  | x :: rest => Return (recurse_from x rest)
  end.

(** [[str(i) for i in list(df[label])]]: the cells of the column, or the
    column labels when [df[label]] is a sub-frame (iterating over a frame
    gives its labels). *)
Definition str_list (df : MFrame) (label : string) : result (list string) :=
  rbind (getitem (columns df) label) (fun sel =>
    match sel with
    | Series p => Return (map (default "") (column_values p df))
    | SubFrame ps => Return (List.filter (String.eqb label) (columns df))
    end).

(** The filtering part proper, on an aggregated table: one sub-result per
    condition, then their intersection; the whole table when there is no
    condition. *)
Definition filter_table (w : World) (mapping : option (list (string * operand)))
    (conds : list string) (valid_results : MFrame) : result MFrame :=
  if bool_decide (0 < length conds) then
    rbind (rmapM (fun cond =>
                    match mapping with
                    | Some m => eval_condition w m valid_results cond
                    | None => Raise AttributeError
                    end) conds) recurse
  else Return valid_results.

(** The first statement of [filter_mturk_results]:
    [valid_results = pd.concat([self.get_mturk_results(hit_id, self.questions)
    for hit_id in self.HITlist])]. *)
Definition aggregate (w : World) : M MFrame :=
  let! hits := self HITlist in
  let! frames := mapM (fun hit_id =>
                         let! qs := self questions in
                         get_mturk_results w hit_id qs) hits in
  lift (pd_concat frames).

Definition filter_mturk_results (w : World) : M unit :=
  let! valid_results := aggregate w in
  let! conds := attr conditions in
  let! mapping := self cond_mapping in
  let! filtered := lift (filter_table w mapping conds valid_results) in
  assign (set_filtered_mturk_resp filtered) >>
  let! all_a := lift (str_list valid_results "AssignmentID") in
  assign (set_allAssignments all_a) >>
  let! all_u := lift (str_list valid_results "WorkerID") in
  assign (set_allUsers all_u) >>
  let! f_a := lift (str_list filtered "AssignmentID") in
  assign (set_filteredAssignments f_a) >>
  let! f_u := lift (str_list filtered "WorkerID") in
  assign (set_filteredUsers f_u).

Definition return_all_users (w : World) : M (list string) :=
  filter_mturk_results w >> attr allUsers.

Definition return_filtered_users (w : World) : M (list string) :=
  filter_mturk_results w >> attr filteredUsers.

(** *** Notifications *)

(** An entry of the list that [send_reminder_emails] returns: the pair
    [[user, notify]] after a successful call, the text
    ['Could not email user: %s' % user] after a failed one. *)
Inductive mail_result : Type :=
  | Sent (user notify : string)
  | NotSent (text : string).

(** One turn of the loop: the [try] around [notify_workers] with its bare
    [except]. *)
Definition send_one (w : World) (subj msg user : string) : M mail_result :=
  let! log := history in
  let outcome := notify_workers w log user subj (msg +:+ user) in
  emit (NotifyWorkers user subj (msg +:+ user) outcome) >>
  match outcome with
  | Return notify => ret (Sent user notify)
  | Raise _ => ret (NotSent ("Could not email user: " +:+ user))
  end.

Definition send_reminder_emails (w : World) (users : list string) (subj msg : string)
  : M (list mail_result) :=
  mapM (send_one w subj msg) users.





Definition send_first_mailer_subject : string :=
  "Please take second part of Survey for bonus".

Definition send_first_mailer_message (link name : string) : string :=
  "Hello,

        Based on your responses to the screening question,
        you've been selected to participate in the second
        part of the survey.

        Please go to " +:+ link +:+ " to complete additional
        questions. At the end of the survey, you will be prompted
        to enter a payment code to verify that you were selected
        to fill out the survey. When asked, please enter the code
        below. Upon completion, you will be awarded a bonus.

        Thanks for your participation!

        Sincerely,
        " +:+ name +:+ "

        ### Your reward code is: ".

Definition send_first_mailer (w : World) : M (list mail_result) :=
  let! link := self srvy_link in
  let! name := self from_name in
  let! users := attr filteredUsers in
  send_reminder_emails w users send_first_mailer_subject (send_first_mailer_message link name).

Definition send_second_mailer_subject : string :=
  "[Reminder] Bonus for participating in second part of Survey".

Definition send_second_mailer_message (link name : string) : string :=
  "Hello,

        We sent you an email recently about completing additional
        questions for the Mturk Survey. We'd really appreciate
        your time in helping us improve our products further.

        As a reminder, please go to " +:+ link +:+ " to complete
        additional questions. At the end of the Survey, you will
        be prompted to enter a payment code to verify that you were
        selected to fill out the survey. When asked, please enter the
        code below. Upon completion, you will be awarded a bonus.

        NOTE: If you are receiving this email, but have already completed
        the Survey, you may have entered the Survey code incorrectly.
        Please redo the survey, ensuring that the code matches the above,
        to receive your compensation.

        Thanks for your participation!

        Sincerely,
        " +:+ name +:+ "

        ### Your reward code is: ".

Definition send_second_mailer (w : World) : M (list mail_result) :=
  let! link := self srvy_link in
  let! name := self from_name in
  let! users := attr remaining in
  send_reminder_emails w users send_second_mailer_subject (send_second_mailer_message link name).

(** *** [get_results] (second part of the survey) *)

(** [user in self.completeList]: equality with a cell that holds a string. *)
Definition in_completeList (completeList : list sheet_item) (user : string) : bool :=
  existsb (fun item =>
             match item with
             | Cell (Some s) => String.eqb s user
             | _ => false
             end) completeList.

(** [list(set([user for user in filteredUsers if user in completeList]))].
    Python leaves the order of a set unspecified; the model lists the
    elements in the order of stdpp's [elements]. *)
Definition completeActual_of (filteredUsers : list string) (completeList : list sheet_item)
  : list string :=
  elements (list_to_set (List.filter (in_completeList completeList) filteredUsers)
            : gset string).

(** [[user for user in filteredUsers if user not in completeActual]] *)
Definition remaining_of (filteredUsers completeActual : list string) : list string :=
  List.filter (fun user => negb (bool_decide (user ∈ completeActual))) filteredUsers.

(** [pd.DataFrame(values)]: short rows are padded with [None] up to the
    longest row. *)
Definition pad_rows (values : list (list string)) : list (list (option string)) :=
  let width := foldr (fun r n => max (length r) n) 0 values in
  map (fun r => map Some r ++ replicate (width - length r) None) values.

(** [df.columns = df.iloc[0]; df = df.reindex(df.index.drop(0))]: the first
    row becomes the header, the other rows keep the labels [1, 2, ...]. *)
Definition sheet_frame (values : list (list string)) : SheetFrame :=
  match pad_rows values with
  | [] => mkFrame [] []
  | header :: body => mkFrame header (zip (seq 1 (length body)) body)
  end.

(** [df[label].values.tolist()] *)
Definition values_tolist (df : SheetFrame) (label : option string) : result (list sheet_item) :=
  rbind (getitem (columns df) label) (fun sel =>
    match sel with
    | Series p => Return (map (fun r => Cell (mjoin (r.2 !! p))) (rows df))
    | SubFrame ps =>
        Return (map (fun r => CellRow (map (fun p => mjoin (r.2 !! p)) ps)) (rows df))
    end).

(** [GoogleForms.get_results(spreadsheet_tab_name, columns)] *)
Definition GoogleForms_get_results (w : World) (spreadsheet_tab_name cols : string)
  : M (option SheetFrame) :=
  let! SPREADSHEET_ID := attr spreadsheet_id in
  let RANGE_NAME := spreadsheet_tab_name +:+ "!" +:+ cols in
  let values := sheet_values w SPREADSHEET_ID RANGE_NAME in
  match values with
  | [] => print [PStr "No data found."] >> ret None
  | _ =>
      let df := sheet_frame values in
      let! q := attr srvy_q_text in
      let! complete := lift (values_tolist df (Some q)) in
      assign (set_completeList complete) >>
      let! users := attr filteredUsers in
      assign (set_completeActual (completeActual_of users complete)) >>
      let! actual := attr completeActual in
      assign (set_remaining (remaining_of users actual)) >>
      assign (set_results df) >>
      ret (Some df)
  end.

(** [self.get_results()]: [Survey] leaves it to the subclass. *)
Definition get_results (w : World) : M (option SheetFrame) :=
  let! c := self cls in
  match c with
  | Survey => raise NotImplementedError
  | GoogleForms => GoogleForms_get_results w "Form Responses 1" "A:AZ"
  end.

Definition return_completed (w : World) : M (list string) :=
  filter_mturk_results w >> get_results w >> attr completeActual.

Definition return_remaining (w : World) : M (list string) :=
  filter_mturk_results w >> get_results w >> attr remaining.

(** *** [award_bonus] *)

(** The keyword arguments of [award_bonus]; [None] when the keyword is not
    passed. *)
Record bonus_kwargs : Type := mkKwargs {
  customList : option (list string);
  debug : option bool
}.

(** ['debug' in kwargs and kwargs['debug']] *)
Definition debug_on (kwargs : bonus_kwargs) : bool :=
  match debug kwargs with
  | Some true => true
  | _ => false
  end.

(** For one HIT: [currentPanda], the rows of the filtered table for this HIT
    whose worker is in [workerList], and
    [pandaDict = currentPanda.set_index('WorkerID').to_dict(orient='index')],
    which maps each worker to the cells of the worker's row.  [to_dict] with
    [orient='index'] needs a unique index: when a worker has two rows in
    [currentPanda] it raises [ValueError]. *)
Definition pandaDict_of (filtered : MFrame) (hit : string) (workerList : list string)
  : result (list (string * list (string * string))) :=
  rbind (getseries (columns filtered) "HITID") (fun ph =>
  rbind (getseries (columns filtered) "WorkerID") (fun pw =>
    let currentPanda :=
      select_rows (fun cells =>
                     cell_test ph (fun v => String.eqb v hit) cells
                     && cell_test pw (fun v => bool_decide (v ∈ workerList)) cells)
                  filtered in
    let items :=
      map (fun r =>
             (default "" (r.2 !! pw),
              dict_of (zip (drop_positions 0 [pw] (columns currentPanda))
                           (drop_positions 0 [pw] r.2))))
          (rows currentPanda) in
    if bool_decide (NoDup (map fst items)) then Return (dict_of items)
    else Raise ValueError)).

Definition bonus_message : string :=
  "Thanks for completing the second part of the Survey!".

(** The surcharge factor [1.2], as the binary64 number Python reads. *)
Definition fee_factor : float := 0x1.3333333333333p+0%float.

(** The body of [for user in pandaDict]. *)
Definition bonus_one (w : World) (amount : float) (kwargs : bonus_kwargs)
    (budget : float) (entry : string * list (string * string)) : M float :=
  let user := entry.1 in
  let budget := (budget + amount)%float in
  (if debug_on kwargs then
     print [PStr "DEBUG ON:"; PStr user; PNum amount]
   else
     let! assignment := lift (dict_get entry.2 "AssignmentID") in
     let! log := history in
     let outcome := grant_bonus w log user assignment amount bonus_message in
     emit (GrantBonus user assignment amount bonus_message outcome) >>
     let! bonus := lift outcome in
     print [PStr user; PStr bonus]) >>
  ret budget.

(** The body of [for hit in self.HITlist]. *)
Definition bonus_hit (w : World) (amount : float) (kwargs : bonus_kwargs)
    (workerList : list string) (budget : float) (hit : string) : M float :=
  let! filtered := attr filtered_mturk_resp in
  let! pandaDict := lift (pandaDict_of filtered hit workerList) in
  foldM (bonus_one w amount kwargs) pandaDict budget.

Definition award_bonus (w : World) (amount : float) (kwargs : bonus_kwargs) : M unit :=
  filter_mturk_results w >>
  get_results w >>
  let! workerList :=
    match customList kwargs with
    | Some l => ret l
    | None => attr completeActual
    end in
  let! hits := self HITlist in
  let! budget := foldM (bonus_hit w amount kwargs workerList) hits 0%float in
  if debug_on kwargs then
    print [PFormat "Total budget required (incl. MTurk fees): $%s" (budget * fee_factor)%float]
  else ret tt.

(** *** [merge] *)

(** The label that pandas builds as [f"{label}{suffix}"]. *)
Definition with_suffix_opt (label : option string) (sfx : string) : option string :=
  Some (default "None" label +:+ sfx).

(** The Mechanical Turk frame seen with the label and cell types of the
    sheet frame. *)
Definition lift_frame (df : MFrame) : Frame (option string) nat (option string) :=
  mkFrame (map Some (columns df)) (map (fun r => (r.1, map Some r.2)) (rows df)).

Definition positioned (df : Frame (option string) nat (option string)) : MergedFrame :=
  mkFrame (columns df) (map (fun r => (Position r.1, r.2)) (rows df)).

(** [df.drop([label], axis=1)]: every column with the label goes;
    [KeyError] when there is none. *)
Definition drop_column (label : option string) (df : MergedFrame) : result MergedFrame :=
  match label_positions 0 label (columns df) with
  | [] => Raise KeyError
  | ps => Return (mkFrame (drop_positions 0 ps (columns df))
                    (map (fun r => (r.1, drop_positions 0 ps r.2)) (rows df)))
  end.

(** [df.set_index(label)]: the column becomes the index. *)
Definition set_index (label : option string) (df : MergedFrame) : result MergedFrame :=
  rbind (getseries (columns df) label) (fun p =>
    Return (mkFrame (drop_positions 0 [p] (columns df))
              (map (fun r => (Worker (mjoin (r.2 !! p)), drop_positions 0 [p] r.2))
                   (rows df)))).

Definition merge (w : World) (csv_fname : option string) : M MergedFrame :=
  filter_mturk_results w >>
  get_results w >>
  let! filtered := attr filtered_mturk_resp in
  let! res := attr results in
  let! q := attr srvy_q_text in
  let! joined := lift (pd_merge_on with_suffix_opt [(Some "WorkerID", Some q)]
                         (lift_frame filtered) res) in
  assign (set_merged (positioned joined)) >>
  let! m1 := attr merged in
  let! q' := attr srvy_q_text in
  let! dropped := lift (drop_column (Some q') m1) in
  assign (set_merged dropped) >>
  let! m2 := attr merged in
  let! indexed := lift (set_index (Some "WorkerID") m2) in
  assign (set_merged indexed) >>
  (match csv_fname with
   | Some fname =>
       if bool_decide (fname = "") then ret tt
       else
         let! m3 := attr merged in
         emit (ToCsv fname m3) >>
         print [PStr ("
Exported to " +:+ fname)]
   | None => ret tt
   end) >>
  attr merged.

(** ** Reading a bonus run *)



(** The worker of a bonus grant, and whether the grant failed. *)
Definition granted_user (e : event) : option string :=
  match e with GrantBonus user _ _ _ _ => Some user | _ => None end.

Definition failed_grant (e : event) : bool :=
  match e with GrantBonus _ _ _ _ (Raise _) => true | _ => false end.

(** An event of a live bonus run: a printed line, or a grant of [amount] with
    the fixed message. *)
Definition live_event (amount : float) (e : event) : Prop :=
  match e with
  | Print _ => True
  | GrantBonus _ _ a reason _ => a = amount /\ reason = bonus_message
  | _ => False
  end.

(** The events [new] and the [outcome] of a live bonus run over [users]:
    the grants went, in order, to an initial segment [done] of the users;
    no grant but the last event failed; the run returns only after a
    successful grant to every user, and otherwise raises the exception of
    the failed grant, which is the last event, or a [KeyError] of its own. *)
Definition live_run {A} (amount : float) (users : list string) (outcome : result A)
    (new : list event) : Prop :=
  exists done rest : list string,
    users = done ++ rest
    /\ omap granted_user new = done
    /\ Forall (live_event amount) new
    /\ Forall (fun e => failed_grant e = false) (removelast new)
    /\ match outcome with
       | Return _ => rest = [] /\ Forall (fun e => failed_grant e = false) new
       | Raise exn =>
           (exn = KeyError /\ Forall (fun e => failed_grant e = false) new)
           \/ exists pre user assignment,
                new = pre ++ [GrantBonus user assignment amount bonus_message (Raise exn)]
       end.


(** The task/worker pairs that [award_bonus] goes through: for each task of
    [HITlist] in turn, the keys of its [pandaDict]. *)
Definition bonus_pairs (filtered : MFrame) (hits workerList : list string)
  : result (list (string * string)) :=
  rbind (rmapM (fun hit =>
                  rbind (pandaDict_of filtered hit workerList) (fun pandaDict =>
                    Return (map (fun entry => (hit, entry.1)) pandaDict))) hits)
        (fun per_hit => Return (concat per_hit)).







(** ** The public operations on a new object *)

(** [s] is the object that a constructor has just returned. *)
Definition freshly_constructed (w : World) (s : Self) : Prop :=
  exists (hits qs : list string) (link name : string) (log0 : list event),
    Survey_init w hits qs link name = Return (s, log0)
    \/ exists sheet_id q_text : string,
         GoogleForms_init w hits qs link sheet_id q_text name = Return (s, log0).

(** The public operations that rely on the filtering. *)
Inductive operation : Type :=
  | CallReturnAllUsers
  | CallReturnFilteredUsers
  | CallSendFirstMailer
  | CallAwardBonus (amount : float) (kwargs : bonus_kwargs)
  | CallMerge (csv_fname : option string)
  | CallReturnCompleted
  | CallReturnRemaining.

(** The exception that a call ends with, [None] when it returns. *)
Definition raised {A} (out : result A * Self * list event) : option exn :=
  match out.1.1 with
  | Raise e => Some e
  | Return _ => None
  end.

Definition call (w : World) (op : operation) (s : Self) (log : list event) : option exn :=
  match op with
  | CallReturnAllUsers => raised (return_all_users w s log)
  | CallReturnFilteredUsers => raised (return_filtered_users w s log)
  | CallSendFirstMailer => raised (send_first_mailer w s log)
  | CallAwardBonus amount kwargs => raised (award_bonus w amount kwargs s log)
  | CallMerge csv_fname => raised (merge w csv_fname s log)
  | CallReturnCompleted => raised (return_completed w s log)
  | CallReturnRemaining => raised (return_remaining w s log)
  end.

(** ** Reading the Mechanical Turk data *)

(** The submission [a] holds an answer to [question]. *)
Definition answers_question (question : string) (a : Assignment) : bool :=
  match answers a with
  | given :: _ => existsb (fun qfa => String.eqb (qid qfa) question) given
  | [] => false
  end.

(** Some fetched submission of [worker] with the identifier [assignment]
    holds an answer to [question]. *)
Definition answered (w : World) (hit_id worker assignment question : string) : bool :=
  existsb (fun a =>
             String.eqb (WorkerId a) worker
             && String.eqb (AssignmentId a) assignment
             && answers_question question a)
          (all_assignments (assignment_pages w hit_id)).

(** The cells of a row carry the worker and the assignment identifier in
    the second and third place. *)
Definition has_ids (worker assignment : string) (cells : list string) : bool :=
  bool_decide (cells !! 1 = Some worker /\ cells !! 2 = Some assignment).

(** How many answers to [question] the fetched submissions of [worker] with
    the identifier [assignment] hold. *)
Definition answer_count (w : World) (hit_id worker assignment question : string) : nat :=
  list_sum
    (map (fun a =>
            if String.eqb (WorkerId a) worker && String.eqb (AssignmentId a) assignment
            then length (List.filter (fun qfa => String.eqb (qid qfa) question)
                           (hd [] (answers a)))
            else 0)
         (all_assignments (assignment_pages w hit_id))).

(** The product of these numbers over the questions. *)
Definition answer_product (w : World) (hit_id worker assignment : string)
    (questions : list string) : nat :=
  fold_right Nat.mul 1 (map (answer_count w hit_id worker assignment) questions).

(** What [get_mturk_results] answers for one task, as a function of the
    fetched data alone. *)
Definition fetched (w : World) (questionList : list string) (hit_id : string)
  : result (option MFrame) :=
  rbind (rmapM (helper w hit_id) questionList) (fun allPandas =>
    match merge_all allPandas with
    | Raise ValueError => Return None
    | Raise e => Raise e
    | Return mergedPanda => Return (Some mergedPanda)
    end).

(** What the loop over the tasks leaves in [self.mturk_resp] (the table of
    the last task that gave one, [acc] if there is none) and what it prints,
    up to the first task whose fetch raises. *)
Fixpoint last_stored (w : World) (questionList hits : list string)
    (acc : option MFrame) : option MFrame :=
  match hits with
  | [] => acc
  | hit_id :: hits' =>
      match fetched w questionList hit_id with
      | Return (Some df) => last_stored w questionList hits' (Some df)
      | Return None => last_stored w questionList hits' acc
      | Raise _ => acc
      end
  end.

Fixpoint reports (w : World) (questionList hits : list string) : list event :=
  match hits with
  | [] => []
  | hit_id :: hits' =>
      match fetched w questionList hit_id with
      | Return (Some _) => reports w questionList hits'
      | Return None => Print [PStr "There are no values!"] :: reports w questionList hits'
      | Raise _ => []
      end
  end.

Definition store_resp (o : option MFrame) (s : Self) : Self :=
  match o with
  | Some df => set_mturk_resp df s
  | None => s
  end.

(** The table that [filter_mturk_results] aggregates, as a function of the
    fetched data alone. *)
Definition valid_results_of (w : World) (questionList hits : list string) : result MFrame :=
  rbind (rmapM (fetched w questionList) hits) pd_concat.

(** The labels beyond the three key columns never collide with a key. *)
Definition key_free (extra : list string) : Prop :=
  forall k, k ∈ merge_key -> k ∉ extra.

(** What the merges keep true of the frame built so far for the questions
    [done]: it starts with the three key columns, and each of its rows
    belongs to a submission that answered every question of [done]. *)
Definition joined_rows_ok (w : World) (hit_id : string) (done : list string)
    (df : MFrame) : Prop :=
  exists extra,
    columns df = merge_key ++ extra
    /\ key_free extra
    /\ forall r, r ∈ rows df ->
         exists wid aid rest,
           r.2 = hit_id :: wid :: aid :: rest
           /\ forall q, q ∈ done -> answered w hit_id wid aid q = true.

(** ** The specification's reading of the filter *)

(** The mask of one condition on a table with the columns [cols]: the
    condition is parsed and its lambda builds the mask, as in
    [eval_condition]. *)
Definition condition_mask (w : World) (mapping : list (string * operand))
    (cols : list string) (cond : string) : result (list string -> bool) :=
  rbind (parse_condition mapping cond) (fun c =>
    operand_mask w c.1.1 cols c.1.2 c.2).

(** Filtering by the logical AND of all conditions at once: a row is kept
    when the masks of all the conditions hold on it. *)
Definition filter_by_conjunction (w : World) (mapping : list (string * operand))
    (conds : list string) (table : MFrame) : result MFrame :=
  rbind (rmapM (condition_mask w mapping (columns table)) conds) (fun masks =>
    Return (select_rows (fun cells => forallb (fun m => m cells) masks) table)).

(** ** Example data *)

Module Scenario.

Definition answer (question response : string) : QuestionFormAnswer :=
  mkQuestionFormAnswer question [response].

Definition submission (worker assignment : string) (given : list QuestionFormAnswer)
  : Assignment :=
  mkAssignment worker assignment [given].

(** A regular expression engine that is enough for patterns without
    metacharacters: the pattern is searched literally. *)
Definition literal (pat : string) : result (string -> bool) :=
  Return (fun v => str_in pat v).

(** A world where every service answers: [pages] are the assignments per
    HIT, [sheet] the values of the spreadsheet, and the notification of a
    worker listed in [unreachable] fails. *)
Definition world (pages : string -> list (list Assignment)) (sheet : list (list string))
    (unreachable : list string) : World :=
  mkWorld (Return ["$10.00"]) pages
    (fun _ user _ _ =>
       if bool_decide (user ∈ unreachable) then Raise (OtherError "notify_workers")
       else Return "sent")
    (fun _ _ _ _ _ => Return "granted")
    (fun _ _ => sheet)
    literal.

Definition survey (hits qs : list string) : Self :=
  mkSelf GoogleForms hits qs "http://part.two" "Ann" (Some "sheet-1") (Some "code")
    None None None None None None None None None None None None None.

(** Task [T1] with the questions [Q1] and [Q2]: [R1] answers both, [R2]
    answers only [Q1].  The sheet of the second part lists [R1] and [R3]. *)
Definition one_task (hit : string) : list (list Assignment) :=
  if String.eqb hit "T1" then
    [[submission "R1" "A1" [answer "Q1" "yes"; answer "Q2" "5"];
      submission "R2" "A2" [answer "Q1" "yes"]]]
  else [].

Definition sheet13 : list (list string) :=
  [["Timestamp"; "code"]; ["Monday"; "R1"]; ["Tuesday"; "R3"]].

Definition w1 : World := world one_task sheet13 ["R2"].
Definition s1 : Self := survey ["T1"] ["Q1"; "Q2"].

(** Two tasks with one submission each: in [T1] worker [R1] says [yes] and
    [3], in [T2] worker [R2] says [no] and [5]. *)
Definition two_tasks (hit : string) : list (list Assignment) :=
  if String.eqb hit "T1" then
    [[submission "R1" "A1" [answer "Q1" "yes"; answer "Q2" "3"]]]
  else if String.eqb hit "T2" then
    [[submission "R2" "A2" [answer "Q1" "no"; answer "Q2" "5"]]]
  else [].

Definition w2 : World := world two_tasks sheet13 [].
Definition s2 : Self := survey ["T1"; "T2"] ["Q1"; "Q2"].

(** The table aggregated over the two tasks: [pd.concat] keeps the label [0]
    that each row has in the table of its own task. *)
Definition table2 : MFrame :=
  mkFrame ["HITID"; "WorkerID"; "AssignmentID"; "Q1"; "Q2"]
    [(0, ["T1"; "R1"; "A1"; "yes"; "3"]); (0, ["T2"; "R2"; "A2"; "no"; "5"])].

Definition conds2 : list string := ["Q1 == yes"; "Q2 == 5"].

(** The same worker [R1] qualifies in two tasks. *)
Definition same_worker (hit : string) : list (list Assignment) :=
  if String.eqb hit "T1" then [[submission "R1" "A1" [answer "Q1" "yes"]]]
  else if String.eqb hit "T2" then [[submission "R1" "A2" [answer "Q1" "yes"]]]
  else [].

Definition w3 : World := world same_worker [["Timestamp"; "code"]] [].
Definition s3 : Self := survey ["T1"; "T2"] ["Q1"].

(** Three workers qualify in one task and complete the second part. *)
Definition three_workers (hit : string) : list (list Assignment) :=
  if String.eqb hit "T1" then
    [[submission "R1" "A1" [answer "Q1" "yes"];
      submission "R2" "A2" [answer "Q1" "yes"];
      submission "R3" "A3" [answer "Q1" "yes"]]]
  else [].

Definition sheet123 : list (list string) :=
  [["Timestamp"; "code"]; ["Monday"; "R1"]; ["Tuesday"; "R2"]; ["Friday"; "R3"]].

Definition w4 : World := world three_workers sheet123 [].
Definition s4 : Self := survey ["T1"] ["Q1"].

(** The state after [add_conditions] with [conds]. *)
Definition with_conditions (conds : list string) (s : Self) : Self :=
  (add_conditions conds s []).1.2.

(** The state after [add_conditions] with [conds] and one run of
    [filter_mturk_results]. *)
Definition screened (w : World) (conds : list string) (s : Self) : Self :=
  (filter_mturk_results w (with_conditions conds s) []).1.2.

End Scenario.

(** * Properties *)

(** ** Condition registration *)

Lemma has_operand_matching (keys : list string) (cond : string) :
  has_operand keys cond = true <-> matching_operands keys cond <> [].
Proof.
  unfold has_operand, matching_operands.
  induction keys as [|k keys IH]; simpl.
  - split; [discriminate | congruence].
  - destruct (str_in k cond); simpl.
    + split; [discriminate | reflexivity].
    + exact IH.
Qed.

Lemma check_conditions_outcome (keys conds : list string) :
  (Forall (fun c => matching_operands keys c <> []) conds
   /\ check_conditions keys conds = Return tt)
  \/ (Exists (fun c => matching_operands keys c = []) conds
      /\ check_conditions keys conds = Raise ValueError).
Proof.
  induction conds as [|c conds IH]; simpl.
  - left. split; [constructor | reflexivity].
  - destruct (has_operand keys c) eqn:Hc; simpl.
    + apply has_operand_matching in Hc.
      destruct IH as [[Hall Hok] | [Hex Hko]].
      * left. split; [constructor; assumption | assumption].
      * right. split; [apply Exists_cons_tl; assumption | assumption].
    + right. split; [|reflexivity].
      apply Exists_cons_hd.
      destruct (matching_operands keys c) eqn:Hm; [reflexivity|].
      assert (has_operand keys c = true) as Habs
        by (apply has_operand_matching; rewrite Hm; discriminate).
      congruence.
Qed.

(** C3 (as amended).  [add_conditions] accepts a list of conditions exactly
    when every condition contains at least one of the six operator tokens as
    a substring: then the conditions are stored.  Otherwise, some condition
    contains none of the tokens and the call raises [ValueError], leaving
    only [cond_mapping] assigned.  A condition in which several tokens occur
    is accepted. *)
Theorem add_conditions_accepts_any_operand (conds : list string) (s : Self)
    (log : list event) :
  (Forall (fun c => matching_operands cond_mapping_keys c <> []) conds
   /\ add_conditions conds s log
      = (Return tt, set_conditions conds (set_cond_mapping cond_mapping_dict s), log))
  \/ (Exists (fun c => matching_operands cond_mapping_keys c = []) conds
      /\ add_conditions conds s log
         = (Raise ValueError, set_cond_mapping cond_mapping_dict s, log)).
Proof.
  unfold add_conditions, bind, assign, attr, lift.
  cbn [cond_mapping set_cond_mapping].
  change (map fst cond_mapping_dict) with cond_mapping_keys.
  destruct (check_conditions_outcome cond_mapping_keys conds) as [[H1 H2] | [H1 H2]];
    rewrite H2; [left | right]; split; auto.
Qed.

(** C3 (counterexample).  The condition ["Q1 == a != b"] contains two
    operator tokens, and registration accepts it. *)
Lemma add_conditions_two_operands_accepted :
  matching_operands cond_mapping_keys "Q1 == a != b" = ["=="; "!="]
  /\ (add_conditions ["Q1 == a != b"] Scenario.s1 []).1.1 = Return tt
  /\ conditions (add_conditions ["Q1 == a != b"] Scenario.s1 []).1.2
     = Some ["Q1 == a != b"].
Proof. repeat split; reflexivity. Qed.

(** At filtering time the first matching token, in the order of the mapping,
    is the operator: ["Q1 == a != b"] compares [Q1] with ["a != b"]. *)
Example parse_condition_first_operand :
  parse_condition cond_mapping_dict "Q1 == a != b" = Return (OpEq, "Q1", "a != b").
Proof. reflexivity. Qed.

(** A condition that passes registration can still fail at filtering time:
    without the blanks around the token the split finds no second part. *)
Example parse_condition_no_blanks :
  (add_conditions ["Q1==yes"] Scenario.s1 []).1.1 = Return tt
  /\ parse_condition cond_mapping_dict "Q1==yes" = Raise IndexError.
Proof. split; reflexivity. Qed.

(** ** Reconciliation with the second part *)

Lemma in_completeList_elem (completeList : list sheet_item) (user : string) :
  in_completeList completeList user = true <-> Cell (Some user) ∈ completeList.
Proof.
  unfold in_completeList. rewrite existsb_exists. split.
  - intros (item & Hin & Hitem). apply list_elem_of_In.
    destruct item as [[c|]|]; try discriminate.
    apply String.eqb_eq in Hitem. subst c. exact Hin.
  - intros Hin. exists (Cell (Some user)). split.
    + apply list_elem_of_In, Hin.
    + apply String.eqb_refl.
Qed.

Lemma completeActual_of_NoDup (users : list string) (complete : list sheet_item) :
  NoDup (completeActual_of users complete).
Proof. apply NoDup_elements. Qed.

Lemma completeActual_of_elem (users : list string) (complete : list sheet_item)
    (u : string) :
  u ∈ completeActual_of users complete <-> u ∈ users /\ Cell (Some u) ∈ complete.
Proof.
  unfold completeActual_of.
  rewrite elem_of_elements, elem_of_list_to_set, list_elem_of_In, filter_In.
  rewrite in_completeList_elem, <- list_elem_of_In. reflexivity.
Qed.

Lemma remaining_of_elem (users completed : list string) (u : string) :
  u ∈ remaining_of users completed <-> u ∈ users /\ u ∉ completed.
Proof.
  unfold remaining_of.
  rewrite list_elem_of_In, filter_In, <- list_elem_of_In.
  rewrite negb_true_iff, bool_decide_eq_false. reflexivity.
Qed.

Lemma remaining_of_count (users completed : list string) (u : string) :
  u ∉ completed ->
  count_occ String.string_dec (remaining_of users completed) u = count_occ String.string_dec users u.
Proof.
  intros Hu. unfold remaining_of.
  induction users as [|x users IH]; simpl; [reflexivity|].
  destruct (bool_decide (x ∈ completed)) eqn:Hx; simpl.
  - apply bool_decide_eq_true in Hx.
    destruct (String.string_dec x u) as [->|]; [contradiction | exact IH].
  - destruct (String.string_dec x u); rewrite IH; reflexivity.
Qed.

Lemma remaining_of_NoDup (users completed : list string) :
  NoDup users -> NoDup (remaining_of users completed).
Proof.
  unfold remaining_of. intros Hnd.
  induction Hnd as [|x users Hx Hnd IH]; simpl; [constructor|].
  destruct (negb (bool_decide (x ∈ completed))); [|exact IH].
  constructor; [|exact IH].
  rewrite list_elem_of_In, filter_In, <- list_elem_of_In. tauto.
Qed.

(** What [get_results] does once the sheet has values, the survey question
    labels a column and the filtering has run. *)
Lemma GoogleForms_get_results_run (w : World) (tab cols : string) (s : Self)
    (log : list event) (sid q : string) (users : list string)
    (complete : list sheet_item) :
  let values := sheet_values w sid (tab +:+ "!" +:+ cols) in
  spreadsheet_id s = Some sid ->
  srvy_q_text s = Some q ->
  filteredUsers s = Some users ->
  values <> [] ->
  values_tolist (sheet_frame values) (Some q) = Return complete ->
  GoogleForms_get_results w tab cols s log
  = (Return (Some (sheet_frame values)),
     set_results (sheet_frame values)
       (set_remaining (remaining_of users (completeActual_of users complete))
          (set_completeActual (completeActual_of users complete)
             (set_completeList complete s))),
     log).
Proof.
  intros values Hsid Hq Hu Hv Hc.
  unfold GoogleForms_get_results, bind, attr, lift, assign, ret.
  rewrite Hsid. fold values.
  destruct values as [|v vs] eqn:Hvals; [congruence|].
  rewrite Hq, Hc.
  cbn [filteredUsers set_completeList completeActual set_completeActual].
  rewrite Hu. reflexivity.
Qed.

(** C2.  Once the filtering has run and the sheet has values with a column
    for the survey question, [get_results] stores as [completeActual] a list
    without repetition whose members are exactly the qualified respondents
    that occur, as equal strings, in the completion list; no other entry of
    the completion list gets in. *)
Theorem get_results_completed (w : World) (tab cols : string) (s : Self)
    (log : list event) (sid q : string) (users : list string)
    (complete : list sheet_item) :
  spreadsheet_id s = Some sid ->
  srvy_q_text s = Some q ->
  filteredUsers s = Some users ->
  sheet_values w sid (tab +:+ "!" +:+ cols) <> [] ->
  values_tolist (sheet_frame (sheet_values w sid (tab +:+ "!" +:+ cols))) (Some q)
  = Return complete ->
  exists (s' : Self) (completed : list string),
    GoogleForms_get_results w tab cols s log
    = (Return (Some (sheet_frame (sheet_values w sid (tab +:+ "!" +:+ cols)))), s', log)
    /\ completeList s' = Some complete
    /\ completeActual s' = Some completed
    /\ NoDup completed
    /\ forall u : string, u ∈ completed <-> u ∈ users /\ Cell (Some u) ∈ complete.
Proof.
  intros Hsid Hq Hu Hv Hc.
  eexists _, (completeActual_of users complete).
  split; [apply (GoogleForms_get_results_run w tab cols s log sid q users complete); assumption|].
  split; [reflexivity|]. split; [reflexivity|].
  split; [apply completeActual_of_NoDup | apply completeActual_of_elem].
Qed.

(** C2 (witness).  The scenario of the specification: the qualified set is
    [R1], the completion list is [R1; R3]. *)
Lemma get_results_completed_witness :
  exists (s' : Self) (completed : list string),
    GoogleForms_get_results Scenario.w1 "Form Responses 1" "A:AZ"
      (Scenario.screened Scenario.w1 ["Q1 == yes"] Scenario.s1) []
    = (Return (Some (sheet_frame Scenario.sheet13)), s', [])
    /\ completeList s' = Some [Cell (Some "R1"); Cell (Some "R3")]
    /\ completeActual s' = Some completed
    /\ NoDup completed
    /\ forall u : string,
         u ∈ completed
         <-> u ∈ ["R1"] /\ Cell (Some u) ∈ [Cell (Some "R1"); Cell (Some "R3")].
Proof.
  apply (get_results_completed Scenario.w1 "Form Responses 1" "A:AZ"
           (Scenario.screened Scenario.w1 ["Q1 == yes"] Scenario.s1) []
           "sheet-1" "code" ["R1"] [Cell (Some "R1"); Cell (Some "R3")]).
  - reflexivity.
  - reflexivity.
  - vm_compute. reflexivity.
  - discriminate.
  - reflexivity.
Defined.

(** The scenario, evaluated: [completed = [R1]] and [remaining = []]. *)
Example scenario_completed_remaining :
  (return_completed Scenario.w1 (Scenario.with_conditions ["Q1 == yes"] Scenario.s1) []).1.1
  = Return ["R1"]
  /\ (return_remaining Scenario.w1 (Scenario.with_conditions ["Q1 == yes"] Scenario.s1) []).1.1
     = Return [].
Proof. split; vm_compute; reflexivity. Qed.

Lemma List_filter_sublist {A} (f : A -> bool) (l : list A) :
  List.filter f l `sublist_of` l.
Proof.
  induction l as [|x l IH]; simpl; [constructor|].
  destruct (f x); [apply sublist_skip | apply sublist_cons]; exact IH.
Qed.

Lemma remaining_of_filter (users : list string) (complete : list sheet_item) :
  remaining_of users (completeActual_of users complete)
  = List.filter (fun u => negb (in_completeList complete u)) users.
Proof.
  unfold remaining_of. apply filter_ext_in. intros u Hu. f_equal.
  apply list_elem_of_In in Hu.
  destruct (in_completeList complete u) eqn:Hin.
  - apply bool_decide_eq_true, completeActual_of_elem.
    split; [exact Hu | apply in_completeList_elem, Hin].
  - apply bool_decide_eq_false. intros Hc. apply completeActual_of_elem in Hc as [_ Hc].
    apply in_completeList_elem in Hc. congruence.
Qed.

(** C9 (as amended).  After [get_results], [remaining] is the qualified list
    with the completed respondents struck out: the entries of the qualified
    list whose identifier is not in the completion list, in the order and
    with the multiplicity they have in the qualified list.  It is disjoint
    from [completeActual], and it is free of repetitions whenever the
    qualified list is. *)
Theorem get_results_remaining (w : World) (tab cols : string) (s : Self)
    (log : list event) (sid q : string) (users : list string)
    (complete : list sheet_item) :
  spreadsheet_id s = Some sid ->
  srvy_q_text s = Some q ->
  filteredUsers s = Some users ->
  sheet_values w sid (tab +:+ "!" +:+ cols) <> [] ->
  values_tolist (sheet_frame (sheet_values w sid (tab +:+ "!" +:+ cols))) (Some q)
  = Return complete ->
  exists (s' : Self) (completed rest : list string),
    GoogleForms_get_results w tab cols s log
    = (Return (Some (sheet_frame (sheet_values w sid (tab +:+ "!" +:+ cols)))), s', log)
    /\ completeActual s' = Some completed
    /\ remaining s' = Some rest
    /\ rest = List.filter (fun u => negb (in_completeList complete u)) users
    /\ rest `sublist_of` users
    /\ (forall u : string, u ∈ rest <-> u ∈ users /\ u ∉ completed)
    /\ (forall u : string, u ∈ rest -> u ∈ completed -> False)
    /\ (forall u : string,
          u ∉ completed ->
          count_occ String.string_dec rest u = count_occ String.string_dec users u)
    /\ (NoDup users -> NoDup rest).
Proof.
  intros Hsid Hq Hu Hv Hc.
  eexists _, (completeActual_of users complete),
    (remaining_of users (completeActual_of users complete)).
  split; [apply (GoogleForms_get_results_run w tab cols s log sid q users complete); assumption|].
  split; [reflexivity|]. split; [reflexivity|].
  split; [apply remaining_of_filter|].
  split.
  { apply List_filter_sublist. }
  split; [apply remaining_of_elem|].
  split; [intros u Hr Hc'; apply remaining_of_elem in Hr; tauto|].
  split; [intros u; apply remaining_of_count | apply remaining_of_NoDup].
Qed.

(** C9 (witness).  Three workers qualify, in the order [R1], [R2], [R3], and
    the sheet lists [R2] and a stranger: [R1] and [R3] remain, in this
    order. *)
Lemma get_results_remaining_witness :
  let w := Scenario.world Scenario.three_workers
             [["Timestamp"; "code"]; ["Monday"; "R2"]; ["Tuesday"; "R7"]] [] in
  exists (s' : Self) (completed rest : list string),
    GoogleForms_get_results w "Form Responses 1" "A:AZ"
      (Scenario.screened w ["Q1 == yes"] Scenario.s4) []
    = (Return (Some (sheet_frame (sheet_values w "sheet-1" "Form Responses 1!A:AZ"))),
       s', [])
    /\ completeActual s' = Some completed
    /\ remaining s' = Some rest
    /\ rest = ["R1"; "R3"]
    /\ completed = ["R2"].
Proof.
  intros w.
  destruct (get_results_remaining w "Form Responses 1" "A:AZ"
              (Scenario.screened w ["Q1 == yes"] Scenario.s4) []
              "sheet-1" "code" ["R1"; "R2"; "R3"]
              [Cell (Some "R2"); Cell (Some "R7")])
    as (s' & completed & rest & Hrun & Hdone & Hrest & Heq & _).
  - reflexivity.
  - reflexivity.
  - vm_compute. reflexivity.
  - discriminate.
  - reflexivity.
  - exists s', completed, rest. split; [exact Hrun|].
    split; [exact Hdone|]. split; [exact Hrest|].
    split; [rewrite Heq; vm_compute; reflexivity|].
    assert (s' = (GoogleForms_get_results w "Form Responses 1" "A:AZ"
                    (Scenario.screened w ["Q1 == yes"] Scenario.s4) []).1.2) as Hs
      by (rewrite Hrun; reflexivity).
    rewrite Hs in Hdone. vm_compute in Hdone. injection Hdone as <-. reflexivity.
Defined.

(** C9 (counterexample).  With worker [R1] qualified in the two tasks [T1]
    and [T2] and nothing completed, [return_remaining] answers [R1; R1]:
    the remaining pool repeats an identifier. *)
Lemma remaining_repeats_worker :
  (return_remaining Scenario.w3
     (Scenario.with_conditions ["Q1 == yes"] Scenario.s3) []).1.1
  = Return ["R1"; "R1"]
  /\ ~ NoDup ["R1"; "R1"].
Proof.
  split; [vm_compute; reflexivity|].
  intros Hnd. apply NoDup_cons in Hnd as [Hnotin _].
  apply Hnotin. left.
Qed.

(** ** Notifications *)

Lemma send_one_run (w : World) (subj msg user : string) (s : Self) (log : list event) :
  let outcome := notify_workers w log user subj (msg +:+ user) in
  send_one w subj msg user s log
  = (Return match outcome with
            | Return notify => Sent user notify
            | Raise _ => NotSent ("Could not email user: " +:+ user)
            end,
     s, log ++ [NotifyWorkers user subj (msg +:+ user) outcome]).
Proof.
  unfold send_one, bind, history, emit, ret.
  destruct (notify_workers w log user subj (msg +:+ user)); reflexivity.
Qed.



(** The first turn of the scenario fails for [R2] only: three entries, one
    failure. *)
Example send_reminder_emails_scenario :
  (send_reminder_emails Scenario.w1 ["R1"; "R2"; "R3"] "subject" "body "
     Scenario.s1 []).1.1
  = Return [Sent "R1" "sent"; NotSent "Could not email user: R2"; Sent "R3" "sent"].
Proof. reflexivity. Qed.

(** [send_first_mailer] is the batch over [filteredUsers]. *)
Lemma send_first_mailer_batch (w : World) (s : Self) (log : list event)
    (users : list string) :
  filteredUsers s = Some users ->
  send_first_mailer w s log
  = send_reminder_emails w users send_first_mailer_subject
      (send_first_mailer_message (srvy_link s) (from_name s)) s log.
Proof.
  intros Hu. unfold send_first_mailer, bind, self, attr. rewrite Hu. reflexivity.
Qed.

(** ** Aggregation *)

Lemma rmapM_Return {A B} (f : A -> result B) (xs : list A) (ys : list B) :
  rmapM f xs = Return ys -> Forall2 (fun x y => f x = Return y) xs ys.
Proof.
  revert ys. induction xs as [|x xs IH]; intros ys; simpl.
  - intros [= <-]. constructor.
  - destruct (f x) as [y|e] eqn:Hx; simpl; [|discriminate].
    destruct (rmapM f xs) as [ys'|e] eqn:Hxs; simpl; [|discriminate].
    intros [= <-]. constructor; [assumption | apply IH; reflexivity].
Qed.

Lemma rmapM_Forall2 {A B} (f : A -> result B) (xs : list A) (ys : list B) :
  Forall2 (fun x y => f x = Return y) xs ys -> rmapM f xs = Return ys.
Proof.
  induction 1 as [|x y xs ys Hx _ IH]; simpl; [reflexivity|].
  rewrite Hx, IH. reflexivity.
Qed.

Lemma Forall2_elem_r {A B} (P : A -> B -> Prop) (xs : list A) (ys : list B) (y : B) :
  Forall2 P xs ys -> y ∈ ys -> exists x, x ∈ xs /\ P x y.
Proof.
  induction 1 as [|x y' xs ys Hxy _ IH]; intros Hy.
  - inversion Hy.
  - apply elem_of_cons in Hy as [-> | Hy].
    + exists x. split; [left | assumption].
    + destruct (IH Hy) as (x' & Hx' & HP). exists x'. split; [right|]; assumption.
Qed.

Lemma assignment_rows_answered (hit_id question : string) (a : Assignment)
    (rs : list (list string)) (r : list string) :
  assignment_rows hit_id question a = Return rs ->
  r ∈ rs ->
  (exists resp, r = [hit_id; WorkerId a; AssignmentId a; resp])
  /\ answers_question question a = true.
Proof.
  unfold assignment_rows, answers_question, py_index.
  destruct (answers a) as [|given rest]; simpl; [discriminate|].
  intros Hrs Hr. apply rmapM_Return in Hrs.
  destruct (Forall2_elem_r _ _ _ _ Hrs Hr) as (qfa & Hqfa & Hrow).
  apply list_elem_of_In, filter_In in Hqfa as [Hin Hq].
  split.
  - destruct (fields qfa) as [|resp others]; simpl in Hrow; [discriminate|].
    injection Hrow as <-. eexists; reflexivity.
  - apply existsb_exists. exists qfa. split; assumption.
Qed.

Lemma helper_rows (w : World) (hit_id question : string) (df : MFrame) :
  helper w hit_id question = Return df ->
  columns df = merge_key ++ [question]
  /\ forall r, r ∈ rows df ->
       exists wid aid resp,
         r.2 = [hit_id; wid; aid; resp] /\ answered w hit_id wid aid question = true.
Proof.
  unfold helper.
  destruct (rmapM _ _) as [rs|e] eqn:Hrs; simpl; [|discriminate].
  intros [= <-]. split; [reflexivity|].
  intros [i cells] Hr. simpl in Hr. apply elem_of_zip_r in Hr.
  apply list_elem_of_In, in_concat in Hr as (l & Hl & Hcells).
  apply rmapM_Return in Hrs.
  destruct (Forall2_elem_r _ _ _ _ Hrs ltac:(apply list_elem_of_In; exact Hl))
    as (a & Ha & Hrows).
  destruct (assignment_rows_answered _ _ _ _ cells Hrows
              ltac:(apply list_elem_of_In; exact Hcells)) as [[resp ->] Hans].
  exists (WorkerId a), (AssignmentId a), resp. split; [reflexivity|].
  unfold answered. apply existsb_exists. exists a.
  split; [apply list_elem_of_In; exact Ha|].
  rewrite !String.eqb_refl. exact Hans.
Qed.

Lemma suffixed_not_key (s sfx : string) :
  sfx = "_x" \/ sfx = "_y" -> s +:+ sfx ∉ merge_key.
Proof.
  intros Hs Hin. unfold merge_key in Hin.
  rewrite !elem_of_cons in Hin.
  destruct Hin as [H | [H | [H | H]]]; [| | |inversion H];
    destruct Hs as [-> | ->];
    repeat (destruct s as [|? s]; simpl in H;
            [discriminate | first [discriminate | injection H as _ H]]).
Qed.

Lemma label_positions_absent (from : nat) (k : string) (cols : list string) :
  k ∉ cols -> label_positions from k cols = [].
Proof.
  revert from. induction cols as [|c cols IH]; intros from Hk; simpl; [reflexivity|].
  apply not_elem_of_cons in Hk as [Hne Hk].
  rewrite bool_decide_eq_false_2 by assumption. apply IH, Hk.
Qed.

Lemma getseries_key_prefix (extra : list string) :
  key_free extra ->
  getseries (merge_key ++ extra) "HITID" = Return 0
  /\ getseries (merge_key ++ extra) "WorkerID" = Return 1
  /\ getseries (merge_key ++ extra) "AssignmentID" = Return 2.
Proof.
  intros Hfree. unfold getseries, merge_key. simpl.
  rewrite !label_positions_absent; [repeat split; reflexivity | ..];
    apply Hfree; unfold merge_key; set_solver.
Qed.

Lemma drop_positions_above {A} (from : nat) (drop : list nat) (xs : list A) :
  (forall p, p ∈ drop -> p < from) -> drop_positions from drop xs = xs.
Proof.
  revert from. induction xs as [|x xs IH]; intros from Hlt; simpl; [reflexivity|].
  rewrite bool_decide_eq_false_2.
  - f_equal. apply IH. intros p Hp. specialize (Hlt p Hp). lia.
  - intros Hin. specialize (Hlt from Hin). lia.
Qed.

Lemma drop_key_positions {A} (a b c : A) (xs : list A) :
  drop_positions 0 [0; 1; 2] (a :: b :: c :: xs) = xs.
Proof.
  simpl. apply drop_positions_above.
  intros p Hp. rewrite !elem_of_cons in Hp.
  destruct Hp as [-> | [-> | [-> | Hp]]]; [lia | lia | lia | inversion Hp].
Qed.

Lemma add_suffix_absent (others : list string) (sfx label : string) :
  label ∉ others -> add_suffix String.append others sfx label = label.
Proof. intros H. unfold add_suffix. rewrite bool_decide_eq_false_2; auto. Qed.

(** A join that returns: the keys were resolved and no suffix clashed. *)
Lemma pd_merge_on_Return {L C : Type} `{EqDecision L} `{EqDecision C}
    (with_suffix : L -> string -> L) (keys : list (L * L))
    (left right merged : Frame L nat C) :
  pd_merge_on with_suffix keys left right = Return merged ->
  exists ps,
    rmapM (resolve_key_pair (columns left) (columns right)) keys = Return ps
    /\ merged
       = DataFrame
           (join_rows ps (right_drop keys ps) (rows left) (rows right))
           (map (add_suffix with_suffix
                   (drop_positions 0 (right_drop keys ps) (columns right)) "_x")
                (columns left)
            ++ map (add_suffix with_suffix (columns left) "_y")
                 (drop_positions 0 (right_drop keys ps) (columns right))).
Proof.
  unfold pd_merge_on.
  destruct (rmapM _ _) as [ps|e]; cbn [rbind]; [|discriminate].
  destruct (_ || _); [discriminate|]. intros [= <-].
  exists ps. split; reflexivity.
Qed.

Lemma label_positions_elem {L : Type} `{EqDecision L} (from : nat) (label : L)
    (cols : list L) (p : nat) :
  p ∈ label_positions from label cols
  <-> from <= p /\ cols !! (p - from) = Some label.
Proof.
  revert from. induction cols as [|c cols IH]; intros from; cbn [label_positions].
  - rewrite elem_of_nil. split; [tauto | intros [_ [=]]].
  - assert (p ∈ label_positions (S from) label cols
            <-> from <= p /\ p <> from /\ (c :: cols) !! (p - from) = Some label) as Hrest.
    { rewrite IH. split.
      - intros [Hle Hp]. split; [lia|]. split; [lia|].
        replace (p - from) with (S (p - S from)) by lia. exact Hp.
      - intros (Hle & Hne & Hp). split; [lia|].
        replace (p - from) with (S (p - S from)) in Hp by lia. exact Hp. }
    destruct (bool_decide (label = c)) eqn:Hc.
    + apply bool_decide_eq_true in Hc as <-. rewrite elem_of_cons, Hrest. split.
      * intros [-> | (Hle & _ & Hp)]; [|tauto].
        split; [lia|]. rewrite Nat.sub_diag. reflexivity.
      * intros [Hle Hp]. destruct (decide (p = from)) as [->|Hne]; [left|right]; tauto.
    + apply bool_decide_eq_false in Hc. rewrite Hrest. split; [tauto|].
      intros [Hle Hp]. split; [exact Hle|]. split; [|exact Hp].
      intros ->. rewrite Nat.sub_diag in Hp. cbn in Hp. congruence.
Qed.

(** [getseries] names the one position that carries the label. *)
Lemma getseries_position {L : Type} `{EqDecision L} (cols : list L) (label : L)
    (p : nat) :
  getseries cols label = Return p ->
  cols !! p = Some label
  /\ (forall j, cols !! j = Some label -> j = p)
  /\ getitem cols label = Return (Series p).
Proof.
  unfold getseries, getitem. intros Hp.
  destruct (label_positions 0 label cols) as [|p' [|p'' ps]] eqn:Hps; try discriminate.
  injection Hp as ->.
  assert (forall j, j ∈ label_positions 0 label cols <-> cols !! j = Some label) as Hj.
  { intros j. rewrite label_positions_elem, Nat.sub_0_r. split; [tauto|].
    intros Hl. split; [lia | exact Hl]. }
  split; [apply Hj; rewrite Hps; apply list_elem_of_here|].
  split; [|reflexivity].
  intros j Hl. apply Hj in Hl. rewrite Hps in Hl.
  apply list_elem_of_singleton in Hl. exact Hl.
Qed.

(** Dropping positions acts on the cells of a row as on the labels of the
    columns: what stands at a position afterwards stood, in both, at one and
    the same position before. *)
Lemma drop_positions_lookup {A B} (from : nat) (drop : list nat) (xs : list A)
    (ys : list B) (p : nat) (x : A) :
  drop_positions from drop xs !! p = Some x ->
  exists j,
    xs !! j = Some x /\ ((from + j) ∉ drop) /\ drop_positions from drop ys !! p = ys !! j.
Proof.
  revert from ys p. induction xs as [|c xs IH]; intros from ys p; cbn [drop_positions].
  - intros [=].
  - destruct (bool_decide (from ∈ drop)) eqn:Hd.
    + intros Hp. destruct ys as [|y ys].
      * destruct (IH (S from) [] p Hp) as (j & Hj & Hno & _).
        exists (S j). split; [exact Hj|]. split; [|reflexivity].
        rewrite Nat.add_succ_r. exact Hno.
      * destruct (IH (S from) ys p Hp) as (j & Hj & Hno & Hy).
        exists (S j). split; [exact Hj|]. split; [rewrite Nat.add_succ_r; exact Hno|].
        cbn [drop_positions]. rewrite Hd. exact Hy.
    + apply bool_decide_eq_false in Hd. destruct p as [|p].
      * intros [= <-]. exists 0. split; [reflexivity|].
        split; [rewrite Nat.add_0_r; exact Hd|].
        destruct ys as [|y ys]; [reflexivity|]. cbn [drop_positions].
        rewrite bool_decide_eq_false_2 by exact Hd. reflexivity.
      * cbn [lookup list_lookup]. intros Hp. destruct ys as [|y ys].
        -- destruct (IH (S from) [] p Hp) as (j & Hj & Hno & _).
           exists (S j). split; [exact Hj|]. split; [|reflexivity].
           rewrite Nat.add_succ_r. exact Hno.
        -- destruct (IH (S from) ys p Hp) as (j & Hj & Hno & Hy).
           exists (S j). split; [exact Hj|].
           split; [rewrite Nat.add_succ_r; exact Hno|].
           cbn [drop_positions]. rewrite bool_decide_eq_false_2 by exact Hd.
           exact Hy.
Qed.

Lemma drop_positions_none {A} (from : nat) (xs : list A) :
  drop_positions from [] xs = xs.
Proof.
  revert from. induction xs as [|x xs IH]; intros from; cbn [drop_positions];
    [reflexivity|].
  rewrite bool_decide_eq_false_2 by apply not_elem_of_nil. rewrite IH. reflexivity.
Qed.

Lemma rmapM_only_raises {A B} (f : A -> result B) (xs : list A) (e0 e : exn) :
  (forall x e', f x = Raise e' -> e' = e0) ->
  rmapM f xs = Raise e -> e = e0.
Proof.
  intros Hf. induction xs as [|x xs IH]; simpl; [discriminate|].
  destruct (f x) as [y|e'] eqn:Hx; simpl.
  - destruct (rmapM f xs) as [ys|e'']; simpl; [discriminate|].
    intros [= <-]. apply IH. reflexivity.
  - intros [= <-]. exact (Hf x e' Hx).
Qed.

Lemma rmapM_raises {A B} (f : A -> result B) (xs : list A) (x : A) (e : exn) :
  x ∈ xs -> f x = Raise e -> exists e', rmapM f xs = Raise e'.
Proof.
  intros Hx Hf. induction xs as [|y xs IH]; [inversion Hx|].
  simpl. apply elem_of_cons in Hx as [<- | Hx].
  - rewrite Hf. eexists; reflexivity.
  - destruct (f y); simpl; [|eexists; reflexivity].
    destruct (IH Hx) as [e' ->]. eexists; reflexivity.
Qed.

Lemma assignment_rows_only_IndexError (hit_id question : string) (a : Assignment)
    (e : exn) :
  assignment_rows hit_id question a = Raise e -> e = IndexError.
Proof.
  unfold assignment_rows, py_index.
  destruct (nth_error (answers a) 0) as [given|]; cbn [rbind]; [|congruence].
  apply rmapM_only_raises. intros qfa e'.
  destruct (nth_error (fields qfa) 0); cbn [rbind]; [discriminate | congruence].
Qed.

Lemma suffix_clash_from_same {L : Type} `{EqDecision L} (seen labels : list L) :
  suffix_clash_from seen seen labels labels = false.
Proof.
  revert seen. induction labels as [|x labels IH]; intros seen; [reflexivity|].
  cbn [suffix_clash_from]. rewrite IH.
  destruct (bool_decide (x ∈ seen)); reflexivity.
Qed.

(** Labels that no suffix has changed do not clash. *)
Lemma suffix_clash_same {L : Type} `{EqDecision L} (labels : list L) :
  suffix_clash labels labels = false.
Proof. apply suffix_clash_from_same. Qed.

(** The join of two frames that start with the three key columns. *)
Lemma pd_merge_keyed (left right : MFrame) (extraL extraR : list string) :
  columns left = merge_key ++ extraL ->
  columns right = merge_key ++ extraR ->
  key_free extraL ->
  key_free extraR ->
  pd_merge String.append left right merge_key
  = if suffix_clash (merge_key ++ extraL)
         (merge_key ++ map (add_suffix String.append extraR "_x") extraL)
       || suffix_clash extraR
            (map (add_suffix String.append (merge_key ++ extraL) "_y") extraR)
    then Raise ValueError
    else Return (DataFrame
                   (join_rows [(0, 0); (1, 1); (2, 2)] [0; 1; 2] (rows left) (rows right))
                   (merge_key
                    ++ map (add_suffix String.append extraR "_x") extraL
                    ++ map (add_suffix String.append (merge_key ++ extraL) "_y") extraR)).
Proof.
  intros HL HR HfL HfR.
  destruct (getseries_key_prefix extraL HfL) as (L0 & L1 & L2).
  destruct (getseries_key_prefix extraR HfR) as (R0 & R1 & R2).
  unfold pd_merge, pd_merge_on. rewrite HL, HR.
  change (map (fun k : string => (k, k)) merge_key)
    with [("HITID", "HITID"); ("WorkerID", "WorkerID"); ("AssignmentID", "AssignmentID")].
  cbn [rmapM]. unfold resolve_key_pair. cbn [fst snd].
  rewrite L0, L1, L2, R0, R1, R2. cbn [rbind].
  unfold right_drop. cbn [zip zip_with List.filter fst snd map].
  rewrite !bool_decide_eq_true_2 by reflexivity. cbn [map fst snd].
  change (merge_key ++ extraR) with ("HITID" :: "WorkerID" :: "AssignmentID" :: extraR).
  rewrite drop_key_positions.
  change (merge_key ++ extraL) with ("HITID" :: "WorkerID" :: "AssignmentID" :: extraL).
  cbn [map].
  rewrite !add_suffix_absent by (apply HfR; unfold merge_key; set_solver).
  reflexivity.
Qed.

(** The same join when it returns. *)
Lemma pd_merge_keyed_Return (left right merged : MFrame) (extraL extraR : list string) :
  columns left = merge_key ++ extraL ->
  columns right = merge_key ++ extraR ->
  key_free extraL ->
  key_free extraR ->
  pd_merge String.append left right merge_key = Return merged ->
  merged
  = DataFrame (join_rows [(0, 0); (1, 1); (2, 2)] [0; 1; 2] (rows left) (rows right))
      (merge_key
       ++ map (add_suffix String.append extraR "_x") extraL
       ++ map (add_suffix String.append (merge_key ++ extraL) "_y") extraR).
Proof.
  intros HL HR HfL HfR. rewrite (pd_merge_keyed left right extraL extraR HL HR HfL HfR).
  destruct (_ || _); [discriminate|]. intros [= <-]. reflexivity.
Qed.

(** The join with the table of a question that is new: no label is found on
    both sides, no suffix is added and the merge returns. *)
Lemma pd_merge_fresh (left right : MFrame) (done : list string) (q : string) :
  columns left = merge_key ++ done ->
  columns right = merge_key ++ [q] ->
  key_free done ->
  q ∉ merge_key ->
  q ∉ done ->
  pd_merge String.append left right merge_key
  = Return (DataFrame
              (join_rows [(0, 0); (1, 1); (2, 2)] [0; 1; 2] (rows left) (rows right))
              (merge_key ++ done ++ [q])).
Proof.
  intros HL HR Hfree Hq Hnew.
  assert (key_free [q]) as HfreeR.
  { intros k Hk Hin. apply list_elem_of_singleton in Hin. congruence. }
  rewrite (pd_merge_keyed left right done [q] HL HR Hfree HfreeR).
  assert (map (add_suffix String.append [q] "_x") done = done) as ->.
  { clear -Hnew. induction done as [|d done IH]; [reflexivity|].
    apply not_elem_of_cons in Hnew as [Hne Hnew]. cbn [map].
    rewrite add_suffix_absent, (IH Hnew); [reflexivity|].
    intros Hin. apply list_elem_of_singleton in Hin. congruence. }
  cbn [map]. rewrite add_suffix_absent
    by (intros Hin; apply elem_of_app in Hin as [Hin | Hin]; contradiction).
  rewrite !suffix_clash_same. reflexivity.
Qed.

Lemma join_rows_elem (ps : list (nat * nat)) (drop : list nat)
    (lrows rrows : list (nat * list string)) (m : list string) :
  m ∈ join_rows ps drop lrows rrows ->
  exists l r,
    l ∈ lrows /\ r ∈ rrows /\ keys_agree ps l.2 r.2 = true
    /\ m = l.2 ++ drop_positions 0 drop r.2.
Proof.
  unfold join_rows. rewrite list_elem_of_In, in_flat_map.
  intros (l & Hl & Hm). apply in_map_iff in Hm as (r & <- & Hr).
  apply filter_In in Hr as [Hr Hk].
  exists l, r. rewrite !list_elem_of_In. auto.
Qed.

Lemma helper_joined_rows_ok (w : World) (hit_id q : string) (df : MFrame) :
  helper w hit_id q = Return df ->
  q ∉ merge_key ->
  joined_rows_ok w hit_id [q] df.
Proof.
  intros Hh Hq. destruct (helper_rows _ _ _ _ Hh) as [Hcols Hrows].
  exists [q]. split; [assumption|]. split.
  - intros k Hk Hin. apply list_elem_of_singleton in Hin. congruence.
  - intros r Hr. destruct (Hrows r Hr) as (wid & aid & resp & Hcells & Hans).
    exists wid, aid, [resp]. split; [assumption|].
    intros q' Hq'. apply list_elem_of_singleton in Hq'. congruence.
Qed.

Lemma merged_extra_key_free (extra others others' : list string) (q : string) :
  key_free extra ->
  q ∉ merge_key ->
  key_free (map (add_suffix String.append others "_x") extra
            ++ map (add_suffix String.append others' "_y") [q]).
Proof.
  intros Hfree Hq k Hk Hin.
  apply elem_of_app in Hin as [Hin | Hin];
    apply list_elem_of_fmap in Hin as (e & -> & He); unfold add_suffix in Hk;
    destruct (bool_decide _); try (eapply suffixed_not_key; [|exact Hk]; auto; fail).
  - exact (Hfree _ Hk He).
  - apply list_elem_of_singleton in He. congruence.
Qed.

(** The rows of the join of a table built for the questions [done] with the
    table of the question [q]. *)
Lemma join_rows_answered (w : World) (hit_id q : string) (done : list string)
    (left right : MFrame) (m : list string) :
  joined_rows_ok w hit_id done left ->
  helper w hit_id q = Return right ->
  m ∈ join_rows [(0, 0); (1, 1); (2, 2)] [0; 1; 2] (rows left) (rows right) ->
  exists wid aid rest,
    m = hit_id :: wid :: aid :: rest
    /\ forall q', q' ∈ done ++ [q] -> answered w hit_id wid aid q' = true.
Proof.
  intros (extra & _ & _ & Hrows) Hh Hm.
  destruct (helper_rows _ _ _ _ Hh) as [_ HrowsR].
  apply join_rows_elem in Hm as (l & r & Hl & Hr & Hkeys & ->).
  destruct (Hrows l Hl) as (wid & aid & rest & Hlc & Hans).
  destruct (HrowsR r Hr) as (wid' & aid' & resp & Hrc & Hans').
  rewrite Hlc, Hrc in *.
  unfold keys_agree in Hkeys. cbn in Hkeys.
  rewrite !andb_true_iff, !bool_decide_eq_true in Hkeys.
  destruct Hkeys as (_ & [= ->] & [= ->] & _).
  exists wid', aid', (rest ++ [resp]). split.
  - rewrite drop_key_positions. reflexivity.
  - intros q' Hq'. apply elem_of_app in Hq' as [Hq' | Hq'].
    + apply Hans, Hq'.
    + apply list_elem_of_singleton in Hq'. congruence.
Qed.

(** One merge, when it returns. *)
Lemma merge_step_sound (w : World) (hit_id q : string) (done : list string)
    (left right merged : MFrame) :
  joined_rows_ok w hit_id done left ->
  helper w hit_id q = Return right ->
  q ∉ merge_key ->
  pd_merge String.append left right merge_key = Return merged ->
  joined_rows_ok w hit_id (done ++ [q]) merged.
Proof.
  intros Hok Hh Hq Hm. pose proof Hok as (extra & Hcols & Hfree & _).
  destruct (helper_rows _ _ _ _ Hh) as [HcolsR _].
  assert (key_free [q]) as HfreeR.
  { intros k Hk Hin. apply list_elem_of_singleton in Hin. congruence. }
  rewrite (pd_merge_keyed_Return left right merged extra [q] Hcols HcolsR Hfree HfreeR Hm).
  eexists. split; [reflexivity|]. split.
  - apply merged_extra_key_free; assumption.
  - intros [i m] Hrow. cbn [rows DataFrame snd] in *.
    apply elem_of_zip_r in Hrow.
    exact (join_rows_answered w hit_id q done left right m Hok Hh Hrow).
Qed.

(** One merge with the table of a new question: it returns. *)
Lemma merge_step_ok (w : World) (hit_id q : string) (done : list string)
    (left right : MFrame) :
  columns left = merge_key ++ done ->
  key_free done ->
  joined_rows_ok w hit_id done left ->
  helper w hit_id q = Return right ->
  q ∉ merge_key ->
  q ∉ done ->
  exists merged,
    pd_merge String.append left right merge_key = Return merged
    /\ merged
       = DataFrame
           (join_rows [(0, 0); (1, 1); (2, 2)] [0; 1; 2] (rows left) (rows right))
           (merge_key ++ done ++ [q])
    /\ joined_rows_ok w hit_id (done ++ [q]) merged.
Proof.
  intros Hcols Hfree Hok Hh Hq Hnew.
  destruct (helper_rows _ _ _ _ Hh) as [HcolsR _].
  pose proof (pd_merge_fresh left right done q Hcols HcolsR Hfree Hq Hnew) as Hm.
  eexists. split; [exact Hm|]. split; [reflexivity|].
  exact (merge_step_sound w hit_id q done left right _ Hok Hh Hq Hm).
Qed.

Lemma fold_merge_Raise (frames : list MFrame) (e : exn) :
  fold_left (fun acc panda =>
               rbind acc (fun mergedPanda =>
                 pd_merge String.append mergedPanda panda merge_key))
            frames (Raise e) = Raise e.
Proof. induction frames as [|f frames IH]; [reflexivity | exact IH]. Qed.

(** The merges in turn, when they return. *)
Lemma merge_fold_sound (w : World) (hit_id : string) (qs : list string)
    (frames : list MFrame) (done : list string) (acc merged : MFrame) :
  Forall2 (fun q df => helper w hit_id q = Return df) qs frames ->
  (forall q, q ∈ qs -> q ∉ merge_key) ->
  joined_rows_ok w hit_id done acc ->
  fold_left (fun acc panda =>
               rbind acc (fun mergedPanda =>
                 pd_merge String.append mergedPanda panda merge_key))
            frames (Return acc) = Return merged ->
  joined_rows_ok w hit_id (done ++ qs) merged.
Proof.
  intros Hframes. revert done acc.
  induction Hframes as [|q df qs frames Hq _ IH]; intros done acc Hkeys Hacc Hfold.
  - cbn in Hfold. injection Hfold as <-. rewrite app_nil_r. exact Hacc.
  - cbn [fold_left rbind] in Hfold.
    destruct (pd_merge String.append acc df merge_key) as [m|e] eqn:Hm;
      [|rewrite fold_merge_Raise in Hfold; discriminate].
    replace (done ++ q :: qs) with ((done ++ [q]) ++ qs)
      by (rewrite <- app_assoc; reflexivity).
    apply (IH (done ++ [q]) m); [|  |exact Hfold].
    + intros q' Hq'. apply Hkeys. right. exact Hq'.
    + apply (merge_step_sound w hit_id q done acc df m Hacc Hq); [|exact Hm].
      apply Hkeys. left.
Qed.

(** The merges in turn over new questions: they return. *)
Lemma merge_fold_ok (w : World) (hit_id : string) (qs : list string)
    (frames : list MFrame) (done : list string) (acc : MFrame) :
  Forall2 (fun q df => helper w hit_id q = Return df) qs frames ->
  (forall q, q ∈ done ++ qs -> q ∉ merge_key) ->
  NoDup (done ++ qs) ->
  columns acc = merge_key ++ done ->
  joined_rows_ok w hit_id done acc ->
  exists merged,
    fold_left (fun acc panda =>
                 rbind acc (fun mergedPanda =>
                   pd_merge String.append mergedPanda panda merge_key))
              frames (Return acc) = Return merged
    /\ columns merged = merge_key ++ done ++ qs
    /\ joined_rows_ok w hit_id (done ++ qs) merged.
Proof.
  intros Hframes. revert done acc.
  induction Hframes as [|q df qs frames Hq _ IH]; intros done acc Hkeys Hnd Hcols Hacc.
  - exists acc. rewrite app_nil_r. split; [reflexivity|]. split; assumption.
  - assert (key_free done) as Hfree.
    { intros k Hk Hin. apply (Hkeys k); [apply elem_of_app; left; exact Hin | exact Hk]. }
    apply NoDup_app in Hnd as Hparts. destruct Hparts as (_ & Hdisj & Hndq).
    destruct (merge_step_ok w hit_id q done acc df Hcols Hfree Hacc Hq)
      as (m & Hm & Hform & Hok).
    { apply Hkeys. apply elem_of_app. right. left. }
    { intros Hin. apply (Hdisj q Hin). left. }
    destruct (IH (done ++ [q]) m) as (merged & Hfold & Hcolsm & Hmerged).
    + intros q' Hq'. apply Hkeys. rewrite <- app_assoc in Hq'. exact Hq'.
    + rewrite <- app_assoc. exact Hnd.
    + rewrite Hform, app_assoc. reflexivity.
    + exact Hok.
    + exists merged. cbn [fold_left rbind]. rewrite Hm.
      rewrite <- !app_assoc in Hcolsm, Hmerged. split; [exact Hfold|]. split; assumption.
Qed.

Lemma merge_all_ok (w : World) (hit_id : string) (qs : list string)
    (frames : list MFrame) :
  rmapM (helper w hit_id) qs = Return frames ->
  qs <> [] ->
  NoDup qs ->
  (forall q, q ∈ qs -> q ∉ merge_key) ->
  exists merged,
    merge_all frames = Return merged
    /\ columns merged = merge_key ++ qs
    /\ joined_rows_ok w hit_id qs merged.
Proof.
  intros Hframes Hne Hnd Hkeys. apply rmapM_Return in Hframes.
  destruct Hframes as [|q df qs frames Hq Hrest]; [congruence|].
  unfold merge_all, py_index. cbn [nth_error rbind tail].
  apply (merge_fold_ok w hit_id qs frames [q] df Hrest); try assumption.
  - destruct (helper_rows _ _ _ _ Hq) as [-> _]. reflexivity.
  - apply helper_joined_rows_ok; [assumption|]. apply Hkeys. left.
Qed.

(** *** Counting the rows of a submission *)

Lemma filter_zip_seq_length {A} (f : A -> bool) (l : list A) (n : nat) :
  length (List.filter (fun r : nat * A => f r.2) (zip (seq n (length l)) l))
  = length (List.filter f l).
Proof.
  revert n. induction l as [|x l IH]; intros n; [reflexivity|].
  cbn [length seq zip zip_with List.filter snd].
  destruct (f x); cbn [length]; [f_equal|]; apply IH.
Qed.

Lemma filter_concat_length {A} (f : A -> bool) (ls : list (list A)) :
  length (List.filter f (concat ls))
  = list_sum (map (fun l => length (List.filter f l)) ls).
Proof.
  induction ls as [|l ls IH]; [reflexivity|].
  cbn [concat map list_sum]. rewrite List.filter_app, length_app, IH. reflexivity.
Qed.

Lemma filter_map_constant {A B} (f : B -> bool) (g : A -> B) (c : bool) (xs : list A) :
  (forall x, f (g x) = c) ->
  length (List.filter f (map g xs)) = if c then length xs else 0.
Proof.
  intros Hc. induction xs as [|x xs IH]; [destruct c; reflexivity|].
  cbn [map List.filter]. rewrite Hc. destruct c; cbn [length]; [f_equal|]; exact IH.
Qed.

Lemma rmapM_length {A B} (f : A -> result B) (xs : list A) (ys : list B) :
  rmapM f xs = Return ys -> length ys = length xs.
Proof.
  intros H. apply rmapM_Return in H.
  induction H as [|x y xs ys _ _ IH]; [reflexivity|]. cbn [length]. f_equal. exact IH.
Qed.

Lemma has_ids_keyed (wid aid hit w a : string) (rest : list string) :
  has_ids wid aid (hit :: w :: a :: rest) = String.eqb w wid && String.eqb a aid.
Proof.
  unfold has_ids. cbn [lookup list_lookup].
  destruct (String.eqb_spec w wid) as [->|Hw], (String.eqb_spec a aid) as [->|Ha];
    cbn [andb];
    first [ apply bool_decide_eq_true_2; split; reflexivity
          | apply bool_decide_eq_false_2; intros [[=] [=]]; congruence ].
Qed.

(** The rows that one submission contributes for a question. *)
Lemma assignment_rows_count (hit_id question wid aid : string) (a : Assignment)
    (rs : list (list string)) :
  assignment_rows hit_id question a = Return rs ->
  length (List.filter (has_ids wid aid) rs)
  = if String.eqb (WorkerId a) wid && String.eqb (AssignmentId a) aid
    then length (List.filter (fun qfa => String.eqb (qid qfa) question)
                   (hd [] (answers a)))
    else 0.
Proof.
  unfold assignment_rows, py_index.
  destruct (answers a) as [|given others]; cbn [nth_error rbind hd]; [discriminate|].
  intros Hrs. rewrite <- (rmapM_length _ _ _ Hrs).
  apply rmapM_Return in Hrs.
  set (c := String.eqb (WorkerId a) wid && String.eqb (AssignmentId a) aid).
  assert (Forall (fun r => has_ids wid aid r = c) rs) as Hall.
  { induction Hrs as [|qfa r qfas rs Hr _ IH]; constructor; [|exact IH].
    destruct (fields qfa) as [|resp more]; cbn [nth_error rbind] in Hr; [discriminate|].
    injection Hr as <-. apply has_ids_keyed. }
  clear Hrs. induction Hall as [|r rs Hr _ IH]; [destruct c; reflexivity|].
  cbn [List.filter]. rewrite Hr. destruct c; cbn [length]; [f_equal|]; exact IH.
Qed.

(** The rows of a submission in the table of a question. *)
Lemma helper_count (w : World) (hit_id question wid aid : string) (df : MFrame) :
  helper w hit_id question = Return df ->
  length (List.filter (fun r => has_ids wid aid r.2) (rows df))
  = answer_count w hit_id wid aid question.
Proof.
  unfold helper, answer_count.
  destruct (rmapM _ _) as [rs|e] eqn:Hrs; cbn [rbind]; [|discriminate].
  intros [= <-]. cbn [rows DataFrame].
  rewrite (filter_zip_seq_length (has_ids wid aid)), filter_concat_length.
  apply rmapM_Return in Hrs. f_equal.
  induction Hrs as [|a r assignments rs Ha _ IH]; [reflexivity|].
  cbn [map]. rewrite IH, (assignment_rows_count _ _ _ _ _ _ Ha). reflexivity.
Qed.

(** The rows of a submission in a join on the three key columns: as many as
    the pairs of a left row and a right row of the submission. *)
Lemma join_rows_count (hit_id wid aid : string) (lrows rrows : list (nat * list string)) :
  (forall l, l ∈ lrows -> exists w a rest, l.2 = hit_id :: w :: a :: rest) ->
  (forall r, r ∈ rrows -> exists w a rest, r.2 = hit_id :: w :: a :: rest) ->
  length (List.filter (has_ids wid aid)
            (join_rows [(0, 0); (1, 1); (2, 2)] [0; 1; 2] lrows rrows))
  = length (List.filter (fun l => has_ids wid aid l.2) lrows)
    * length (List.filter (fun r => has_ids wid aid r.2) rrows).
Proof.
  intros HL HR. induction lrows as [|l lrows IH]; [reflexivity|].
  unfold join_rows in *. cbn [flat_map].
  rewrite List.filter_app, length_app, IH
    by (intros l' Hl'; apply HL; right; exact Hl').
  destruct (HL l ltac:(left)) as (w & a & rest & Hl).
  cbn [List.filter]. rewrite Hl.
  rewrite (filter_map_constant (has_ids wid aid) _
             (String.eqb w wid && String.eqb a aid))
    by (intros r; apply (has_ids_keyed wid aid hit_id w a)).
  rewrite has_ids_keyed.
  destruct (String.eqb_spec w wid) as [->|Hw], (String.eqb_spec a aid) as [->|Ha];
    cbn [andb length]; try reflexivity.
  rewrite (filter_ext_in _ (fun r : nat * list string => has_ids wid aid r.2)).
  - lia.
  - intros r Hr. apply list_elem_of_In in Hr.
    destruct (HR r Hr) as (w' & a' & rest' & ->).
    rewrite has_ids_keyed. unfold keys_agree. cbn [forallb fst snd lookup list_lookup].
    rewrite (bool_decide_eq_true_2 (Some hit_id = Some hit_id)) by reflexivity.
    rewrite andb_true_r. cbn [andb].
    destruct (String.eqb_spec w' wid) as [->|Hw'], (String.eqb_spec a' aid) as [->|Ha'];
      cbn [andb];
      repeat first [ rewrite bool_decide_eq_true_2 by reflexivity
                   | rewrite bool_decide_eq_false_2 by congruence ];
      reflexivity.
Qed.

Lemma answer_product_snoc (w : World) (hit_id wid aid : string) (done : list string)
    (q : string) :
  answer_product w hit_id wid aid (done ++ [q])
  = answer_product w hit_id wid aid done * answer_count w hit_id wid aid q.
Proof.
  unfold answer_product. induction done as [|d done IH]; cbn [app map fold_right].
  - lia.
  - rewrite IH. lia.
Qed.

(** The rows of a submission after one merge. *)
Lemma merge_step_count (w : World) (hit_id q wid aid : string) (done : list string)
    (left right : MFrame) :
  joined_rows_ok w hit_id done left ->
  helper w hit_id q = Return right ->
  length (List.filter (fun r => has_ids wid aid r.2) (rows left))
  = answer_product w hit_id wid aid done ->
  length (List.filter (fun r : nat * list string => has_ids wid aid r.2)
            (rows (DataFrame
                     (join_rows [(0, 0); (1, 1); (2, 2)] [0; 1; 2] (rows left) (rows right))
                     (merge_key ++ done ++ [q]))))
  = answer_product w hit_id wid aid (done ++ [q]).
Proof.
  intros (extra & _ & _ & Hrows) Hh Hcount.
  destruct (helper_rows _ _ _ _ Hh) as [_ HrowsR].
  cbn [rows DataFrame].
  rewrite (filter_zip_seq_length (has_ids wid aid)).
  rewrite (join_rows_count hit_id).
  - rewrite Hcount, (helper_count _ _ _ _ _ _ Hh), answer_product_snoc. reflexivity.
  - intros l Hl. destruct (Hrows l Hl) as (w0 & a0 & rest & Hc & _). eauto.
  - intros r Hr. destruct (HrowsR r Hr) as (w0 & a0 & resp & Hc & _). eauto.
Qed.

(** The rows of a submission after all the merges over new questions. *)
Lemma merge_fold_count (w : World) (hit_id wid aid : string) (qs : list string)
    (frames : list MFrame) (done : list string) (acc merged : MFrame) :
  Forall2 (fun q df => helper w hit_id q = Return df) qs frames ->
  (forall q, q ∈ done ++ qs -> q ∉ merge_key) ->
  NoDup (done ++ qs) ->
  columns acc = merge_key ++ done ->
  joined_rows_ok w hit_id done acc ->
  length (List.filter (fun r => has_ids wid aid r.2) (rows acc))
  = answer_product w hit_id wid aid done ->
  fold_left (fun acc panda =>
               rbind acc (fun mergedPanda =>
                 pd_merge String.append mergedPanda panda merge_key))
            frames (Return acc) = Return merged ->
  length (List.filter (fun r => has_ids wid aid r.2) (rows merged))
  = answer_product w hit_id wid aid (done ++ qs).
Proof.
  intros Hframes. revert done acc.
  induction Hframes as [|q df qs frames Hq _ IH];
    intros done acc Hkeys Hnd Hcols Hacc Hcount Hfold.
  - cbn in Hfold. injection Hfold as <-. rewrite app_nil_r. exact Hcount.
  - assert (key_free done) as Hfree.
    { intros k Hk Hin. apply (Hkeys k); [apply elem_of_app; left; exact Hin | exact Hk]. }
    apply NoDup_app in Hnd as Hparts. destruct Hparts as (_ & Hdisj & Hndq).
    destruct (merge_step_ok w hit_id q done acc df Hcols Hfree Hacc Hq)
      as (m & Hm & Hform & Hok).
    { apply Hkeys. apply elem_of_app. right. left. }
    { intros Hin. apply (Hdisj q Hin). left. }
    cbn [fold_left rbind] in Hfold. rewrite Hm in Hfold.
    replace (done ++ q :: qs) with ((done ++ [q]) ++ qs)
      by (rewrite <- app_assoc; reflexivity).
    apply (IH (done ++ [q]) m); try assumption.
    + intros q' Hq'. apply Hkeys. rewrite <- app_assoc in Hq'. exact Hq'.
    + rewrite <- app_assoc. exact Hnd.
    + rewrite Hform, app_assoc. reflexivity.
    + rewrite Hform. exact (merge_step_count w hit_id q wid aid done acc df Hacc Hq Hcount).
Qed.

Lemma merge_all_count (w : World) (hit_id wid aid : string) (qs : list string)
    (frames : list MFrame) (merged : MFrame) :
  rmapM (helper w hit_id) qs = Return frames ->
  NoDup qs ->
  (forall q, q ∈ qs -> q ∉ merge_key) ->
  merge_all frames = Return merged ->
  length (List.filter (fun r => has_ids wid aid r.2) (rows merged))
  = answer_product w hit_id wid aid qs.
Proof.
  intros Hframes Hnd Hkeys Hm. apply rmapM_Return in Hframes.
  destruct Hframes as [|q df qs frames Hq Hrest]; [discriminate|].
  unfold merge_all, py_index in Hm. cbn [nth_error rbind tail] in Hm.
  apply (merge_fold_count w hit_id wid aid qs frames [q] df merged Hrest);
    try assumption.
  - destruct (helper_rows _ _ _ _ Hq) as [-> _]. reflexivity.
  - apply helper_joined_rows_ok; [assumption|]. apply Hkeys. left.
  - rewrite (helper_count _ _ _ _ _ _ Hq). unfold answer_product. cbn. lia.
Qed.

(** C5.  When the per-question fetches succeed, for a non-empty list of
    pairwise different questions none of which is named like a key column,
    [get_mturk_results] returns a merged table and stores it.  Every row of
    that table starts with the task, the worker and the assignment of a
    fetched submission that answered every requested question, so a
    respondent-submission that lacks an answer to one of the questions has
    no row (inner join).  And the table has, for every worker and
    assignment, as many rows as the product over the questions of the
    numbers of answers that the submission holds for the question: one row
    for a submission that answers every question once, none for a
    submission that leaves a question out. *)
Theorem get_mturk_results_inner_join (w : World) (hit_id : string)
    (questionList : list string) (frames : list MFrame) (s : Self)
    (log : list event) :
  rmapM (helper w hit_id) questionList = Return frames ->
  questionList <> [] ->
  NoDup questionList ->
  (forall q, q ∈ questionList -> q ∉ merge_key) ->
  exists df,
    get_mturk_results w hit_id questionList s log
    = (Return (Some df), set_mturk_resp df s, log)
    /\ (forall r, r ∈ rows df ->
          exists wid aid rest,
            r.2 = hit_id :: wid :: aid :: rest
            /\ forall q, q ∈ questionList -> answered w hit_id wid aid q = true)
    /\ (forall wid aid q,
          q ∈ questionList ->
          answered w hit_id wid aid q = false ->
          forall r, r ∈ rows df -> ~ (r.2 !! 1 = Some wid /\ r.2 !! 2 = Some aid))
    /\ (forall wid aid,
          length (List.filter (fun r => has_ids wid aid r.2) (rows df))
          = answer_product w hit_id wid aid questionList).
Proof.
  intros Hframes Hne Hnd Hkeys.
  destruct (merge_all_ok w hit_id questionList frames Hframes Hne Hnd Hkeys)
    as (df & Hmerge & _ & extra & Hcols & Hfree & Hrows).
  exists df. split; [|split; [|split]].
  - unfold get_mturk_results, bind, lift. rewrite Hframes.
    unfold merge_or_report. rewrite Hmerge. reflexivity.
  - exact Hrows.
  - intros wid aid q Hq Hno r Hr [Hw Ha].
    destruct (Hrows r Hr) as (wid' & aid' & rest & Hcells & Hans).
    rewrite Hcells in Hw, Ha. cbn in Hw, Ha.
    injection Hw as ->. injection Ha as ->.
    specialize (Hans q Hq). congruence.
  - intros wid aid.
    exact (merge_all_count w hit_id wid aid questionList frames df
             Hframes Hnd Hkeys Hmerge).
Qed.

(** C5 (witness).  The scenario of the specification: task [T1] with the
    questions [Q1] and [Q2]; [R1] answers both and [R2] only [Q1].  The
    merged table has exactly one row for [R1] and none for [R2]. *)
Lemma get_mturk_results_inner_join_witness :
  exists df,
    get_mturk_results Scenario.w1 "T1" ["Q1"; "Q2"] Scenario.s1 []
    = (Return (Some df), set_mturk_resp df Scenario.s1, [])
    /\ length (List.filter (fun r => has_ids "R1" "A1" r.2) (rows df)) = 1
    /\ length (List.filter (fun r => has_ids "R2" "A2" r.2) (rows df)) = 0
    /\ (forall r, r ∈ rows df -> ~ (r.2 !! 1 = Some "R2" /\ r.2 !! 2 = Some "A2")).
Proof.
  destruct (get_mturk_results_inner_join Scenario.w1 "T1" ["Q1"; "Q2"]
              [DataFrame [["T1"; "R1"; "A1"; "yes"]; ["T1"; "R2"; "A2"; "yes"]]
                 ["HITID"; "WorkerID"; "AssignmentID"; "Q1"];
               DataFrame [["T1"; "R1"; "A1"; "5"]]
                 ["HITID"; "WorkerID"; "AssignmentID"; "Q2"]]
              Scenario.s1 [])
    as (df & Hrun & _ & Hdrop & Hcount).
  - reflexivity.
  - discriminate.
  - repeat constructor; rewrite ?elem_of_cons, ?elem_of_nil; intuition discriminate.
  - intros q Hq Hk. apply list_elem_of_In in Hq. apply list_elem_of_In in Hk.
    simpl in Hq, Hk. intuition (subst; discriminate).
  - exists df. split; [exact Hrun|].
    split; [rewrite Hcount; reflexivity|].
    split; [rewrite Hcount; reflexivity|].
    apply (Hdrop "R2" "A2" "Q2");
      [apply list_elem_of_further, list_elem_of_here | reflexivity].
Defined.

(** The scenario, evaluated: one row for [R1], none for [R2]. *)
Example get_mturk_results_scenario :
  (get_mturk_results Scenario.w1 "T1" ["Q1"; "Q2"] Scenario.s1 []).1.1
  = Return (Some (mkFrame ["HITID"; "WorkerID"; "AssignmentID"; "Q1"; "Q2"]
                    [(0, ["T1"; "R1"; "A1"; "yes"; "5"])])).
Proof. reflexivity. Qed.

(** *** The exceptions of the merge *)

Lemma rmapM_only_raises_in {A B} (f : A -> result B) (xs : list A) (e0 e : exn) :
  (forall x e', x ∈ xs -> f x = Raise e' -> e' = e0) ->
  rmapM f xs = Raise e -> e = e0.
Proof.
  induction xs as [|x xs IH]; intros Hf; simpl; [discriminate|].
  destruct (f x) as [y|e'] eqn:Hx; simpl.
  - destruct (rmapM f xs) as [ys|e''] eqn:Hxs; simpl; [discriminate|].
    intros [= <-]. apply IH; [|reflexivity].
    intros x' e' Hx'. apply Hf. right. exact Hx'.
  - intros [= <-]. exact (Hf x e' ltac:(left) Hx).
Qed.

(** A label that some column carries is found, or found more than once. *)
Lemma getseries_raises_present {L : Type} `{EqDecision L} (cols : list L) (label : L)
    (e : exn) :
  label ∈ cols -> getseries cols label = Raise e -> e = ValueError.
Proof.
  intros Hin. unfold getseries.
  destruct (label_positions 0 label cols) as [|p [|p' ps]] eqn:Hps.
  - apply list_elem_of_lookup in Hin as [i Hi].
    assert (i ∈ label_positions 0 label cols) as Hp.
    { apply label_positions_elem. split; [lia|]. rewrite Nat.sub_0_r. exact Hi. }
    rewrite Hps in Hp. inversion Hp.
  - discriminate.
  - congruence.
Qed.


(** The join on the three key columns of tables that carry them raises
    nothing but [ValueError]. *)
Lemma pd_merge_raises_keyed (left right : MFrame) (e : exn) :
  (forall k, k ∈ merge_key -> k ∈ columns left) ->
  (forall k, k ∈ merge_key -> k ∈ columns right) ->
  pd_merge String.append left right merge_key = Raise e ->
  e = ValueError.
Proof.
  intros Hl Hr. unfold pd_merge, pd_merge_on.
  destruct (rmapM _ _) as [ps|e'] eqn:Hps; cbn [rbind].
  - destruct (_ || _); [congruence | discriminate].
  - intros [= <-]. revert Hps. apply rmapM_only_raises_in.
    intros [k k'] e0 Hk. apply list_elem_of_fmap in Hk as (k0 & [= -> ->] & Hk0).
    unfold resolve_key_pair. cbn [fst snd].
    destruct (getseries (columns right) k0) as [rp|er] eqn:Hrp; cbn [rbind].
    + destruct (getseries (columns left) k0) as [lp|el] eqn:Hlp; cbn [rbind];
        [discriminate|].
      intros [= <-]. exact (getseries_raises_present _ _ _ (Hl k0 Hk0) Hlp).
    + intros [= <-]. exact (getseries_raises_present _ _ _ (Hr k0 Hk0) Hrp).
Qed.

(** The join keeps the key columns of its left table. *)
Lemma pd_merge_keeps_keys (left right merged : MFrame) :
  pd_merge String.append left right merge_key = Return merged ->
  forall k, k ∈ merge_key -> k ∈ columns merged.
Proof.
  unfold pd_merge, pd_merge_on, merge_key. cbn [map rmapM].
  unfold resolve_key_pair. cbn [fst snd].
  destruct (getseries (columns right) "HITID") as [r0|] eqn:Hr0; cbn [rbind];
    [|discriminate].
  destruct (getseries (columns left) "HITID") as [l0|] eqn:Hl0; cbn [rbind];
    [|discriminate].
  destruct (getseries (columns right) "WorkerID") as [r1|] eqn:Hr1; cbn [rbind];
    [|discriminate].
  destruct (getseries (columns left) "WorkerID") as [l1|] eqn:Hl1; cbn [rbind];
    [|discriminate].
  destruct (getseries (columns right) "AssignmentID") as [r2|] eqn:Hr2; cbn [rbind];
    [|discriminate].
  destruct (getseries (columns left) "AssignmentID") as [l2|] eqn:Hl2; cbn [rbind];
    [|discriminate].
  change (right_drop _ _) with [r0; r1; r2].
  destruct (_ || _); [discriminate|]. intros [= <-] k Hk. cbn [columns DataFrame].
  apply elem_of_app. left.
  assert (forall lk rk,
            getseries (columns left) k = Return lk ->
            getseries (columns right) k = Return rk ->
            rk ∈ [r0; r1; r2] ->
            k ∈ map (add_suffix String.append
                       (drop_positions 0 [r0; r1; r2] (columns right)) "_x")
                    (columns left)) as Hfound.
  { intros lk rk Hlk Hrk Hdrop.
    destruct (getseries_position _ _ _ Hlk) as (Hat & _ & _).
    destruct (getseries_position _ _ _ Hrk) as (_ & Hone & _).
    apply list_elem_of_fmap. exists k. split; [|eapply list_elem_of_lookup_2; exact Hat].
    symmetry. apply add_suffix_absent. intros Hin.
    apply list_elem_of_lookup in Hin as [p Hp].
    destruct (drop_positions_lookup 0 [r0; r1; r2] (columns right) (columns right)
                p k Hp) as (j & Hj & Hno & _).
    apply Hone in Hj as ->. exact (Hno Hdrop). }
  rewrite !elem_of_cons in Hk. destruct Hk as [-> | [-> | [-> | Hk]]].
  - eapply Hfound; [eassumption | eassumption | left].
  - eapply Hfound; [eassumption | eassumption | right; left].
  - eapply Hfound; [eassumption | eassumption | right; right; left].
  - inversion Hk.
Qed.

(** The merges in turn, over tables that carry the key columns, raise
    nothing but [ValueError]. *)
Lemma merge_fold_raises (frames : list MFrame) (acc : MFrame) (e : exn) :
  Forall (fun df => forall k, k ∈ merge_key -> k ∈ columns df) frames ->
  (forall k, k ∈ merge_key -> k ∈ columns acc) ->
  fold_left (fun acc panda =>
               rbind acc (fun mergedPanda =>
                 pd_merge String.append mergedPanda panda merge_key))
            frames (Return acc) = Raise e ->
  e = ValueError.
Proof.
  intros Hframes. revert acc.
  induction Hframes as [|f frames Hf _ IH]; intros acc Hacc; cbn [fold_left rbind];
    [discriminate|].
  destruct (pd_merge String.append acc f merge_key) as [m|e'] eqn:Hm.
  - apply IH. exact (pd_merge_keeps_keys _ _ _ Hm).
  - rewrite fold_merge_Raise. intros [= <-].
    exact (pd_merge_raises_keyed _ _ _ Hacc Hf Hm).
Qed.

(** The tables that the helper builds carry the key columns. *)
Lemma helper_frames_keyed (w : World) (hit_id : string) (qs : list string)
    (frames : list MFrame) :
  rmapM (helper w hit_id) qs = Return frames ->
  Forall (fun df => forall k, k ∈ merge_key -> k ∈ columns df) frames.
Proof.
  intros Hframes. apply rmapM_Return in Hframes.
  induction Hframes as [|q df qs frames Hq _ IH]; constructor; [|exact IH].
  destruct (helper_rows _ _ _ _ Hq) as [-> _].
  intros k Hk. apply elem_of_app. left. exact Hk.
Qed.

(** The merge of all the tables raises [IndexError] when there is no table,
    and otherwise nothing but [ValueError]. *)
Lemma merge_all_raises (frames : list MFrame) (e : exn) :
  Forall (fun df => forall k, k ∈ merge_key -> k ∈ columns df) frames ->
  merge_all frames = Raise e ->
  (frames = [] /\ e = IndexError) \/ (frames <> [] /\ e = ValueError).
Proof.
  intros Hframes. unfold merge_all, py_index.
  destruct Hframes as [|f frames Hf Hrest]; cbn [nth_error rbind tail].
  - intros [= <-]. left. split; reflexivity.
  - intros Hm. right. split; [discriminate|].
    exact (merge_fold_raises frames f e Hrest Hf Hm).
Qed.

(** ** Filtering *)

Lemma rmapM_rbind_map {A B C} (f : A -> result B) (g : B -> C) (xs : list A) :
  rmapM (fun x => rbind (f x) (fun y => Return (g y))) xs
  = rbind (rmapM f xs) (fun ys => Return (map g ys)).
Proof.
  induction xs as [|x xs IH]; simpl; [reflexivity|].
  destruct (f x) as [y|e]; simpl; [|reflexivity].
  rewrite IH. destruct (rmapM f xs); reflexivity.
Qed.

Lemma rmapM_ext {A B} (f g : A -> result B) (xs : list A) :
  (forall x, f x = g x) -> rmapM f xs = rmapM g xs.
Proof.
  intros Hfg. induction xs as [|x xs IH]; simpl; [reflexivity|].
  rewrite Hfg, IH. reflexivity.
Qed.

Lemma eval_condition_mask (w : World) (mapping : list (string * operand))
    (table : MFrame) (cond : string) :
  eval_condition w mapping table cond
  = rbind (condition_mask w mapping (columns table) cond) (fun mask =>
      Return (select_rows mask table)).
Proof.
  unfold eval_condition, condition_mask, apply_operand.
  destruct (parse_condition mapping cond); reflexivity.
Qed.

Lemma select_rows_ext (mask mask' : list string -> bool) (table : MFrame) :
  (forall cells, mask cells = mask' cells) ->
  select_rows mask table = select_rows mask' table.
Proof.
  intros Hext. unfold select_rows. f_equal.
  apply List.filter_ext. intros r. apply Hext.
Qed.

Lemma select_rows_all (table : MFrame) :
  select_rows (fun _ => true) table = table.
Proof.
  destruct table as [cols rs]. unfold select_rows. cbn [columns rows]. f_equal.
  induction rs as [|r rs IH]; simpl; [reflexivity | rewrite IH; reflexivity].
Qed.

(** With pairwise distinct index labels, a label is among the labels of a
    selection exactly when its own row is selected. *)
Lemma label_selected (all : list (nat * list string)) (mask : list string -> bool)
    (r : nat * list string) :
  NoDup (map fst all) ->
  In r all ->
  bool_decide (r.1 ∈ map fst (List.filter (fun r' => mask r'.2) all)) = mask r.2.
Proof.
  intros Hnd Hr. destruct (mask r.2) eqn:Hm.
  - apply bool_decide_eq_true. apply list_elem_of_In, in_map.
    apply filter_In. split; assumption.
  - apply bool_decide_eq_false. intros Hin.
    apply list_elem_of_In, in_map_iff in Hin as (r' & Hlabel & Hr').
    apply filter_In in Hr' as [Hr' Hm'].
    assert (r' = r) as ->; [|congruence].
    clear Hm Hm'. induction all as [|x all IH]; [contradiction|].
    simpl in Hnd. apply NoDup_cons in Hnd as [Hx Hnd].
    destruct Hr as [-> | Hr], Hr' as [-> | Hr']; try reflexivity.
    + exfalso. apply Hx. rewrite <- Hlabel. apply list_elem_of_In, in_map, Hr'.
    + exfalso. apply Hx. rewrite Hlabel. apply list_elem_of_In, in_map, Hr.
    + apply IH; assumption.
Qed.

Lemma isin_select (table : MFrame) (macc mask : list string -> bool) :
  NoDup (index table) ->
  isin_index (select_rows macc table) (select_rows mask table)
  = select_rows (fun cells => macc cells && mask cells) table.
Proof.
  intros Hnd. unfold isin_index, select_rows, index in *. cbn [columns rows]. f_equal.
  assert (forall rs, (forall r, In r rs -> In r (rows table)) ->
            List.filter
              (fun r => bool_decide
                          (r.1 ∈ map fst (List.filter (fun r' => mask r'.2) (rows table))))
              (List.filter (fun r => macc r.2) rs)
            = List.filter (fun r => macc r.2 && mask r.2) rs) as Hgen.
  { induction rs as [|r rs IH]; intros Hsub; simpl; [reflexivity|].
    assert (In r (rows table)) as Hr by (apply Hsub; left; reflexivity).
    destruct (macc r.2) eqn:Hm; simpl.
    - rewrite (label_selected _ mask r Hnd Hr).
      destruct (mask r.2); rewrite IH; auto; intros; apply Hsub; right; assumption.
    - apply IH. intros; apply Hsub; right; assumption. }
  apply Hgen. auto.
Qed.

Lemma recurse_from_masks (table : MFrame) (macc : list string -> bool)
    (masks : list (list string -> bool)) :
  NoDup (index table) ->
  recurse_from (select_rows macc table) (map (fun m => select_rows m table) masks)
  = select_rows (fun cells => macc cells && forallb (fun m => m cells) masks) table.
Proof.
  intros Hnd. revert macc.
  induction masks as [|m masks IH]; intros macc; simpl.
  - apply select_rows_ext. intros cells. rewrite andb_true_r. reflexivity.
  - rewrite isin_select by assumption. rewrite IH.
    apply select_rows_ext. intros cells. rewrite andb_assoc. reflexivity.
Qed.

(** On a table whose index labels are pairwise distinct, the reduction by
    index membership computes the conjunction of the conditions: same rows,
    same order, and the same exception when a condition cannot be
    evaluated.  Without any condition both give the table itself. *)
Lemma filter_table_conjunction (w : World) (mapping : list (string * operand))
    (conds : list string) (table : MFrame) :
  NoDup (index table) ->
  filter_table w (Some mapping) conds table
  = filter_by_conjunction w mapping conds table.
Proof.
  intros Hnd. unfold filter_table, filter_by_conjunction.
  destruct conds as [|c conds].
  - simpl. rewrite select_rows_all. reflexivity.
  - rewrite bool_decide_eq_true_2 by (simpl; lia).
    cbv beta iota.
    rewrite (rmapM_ext _ _ _ (eval_condition_mask w mapping table)).
    rewrite rmapM_rbind_map.
    destruct (rmapM (condition_mask w mapping (columns table)) (c :: conds))
      as [masks|e] eqn:Hmasks; [|reflexivity].
    cbn [rbind]. destruct masks as [|m masks].
    + apply rmapM_Return in Hmasks. inversion Hmasks.
    + cbn [map recurse]. f_equal.
      rewrite recurse_from_masks by assumption. reflexivity.
Qed.

Lemma select_rows_index_NoDup (mask : list string -> bool) (table : MFrame) :
  NoDup (index table) -> NoDup (index (select_rows mask table)).
Proof.
  unfold index, select_rows. cbn [rows].
  induction (rows table) as [|r rs IH]; simpl; intros Hnd; [constructor|].
  apply NoDup_cons in Hnd as [Hr Hnd].
  destruct (mask r.2); simpl; [|apply IH, Hnd].
  constructor; [|apply IH, Hnd].
  intros Hin. apply Hr.
  apply list_elem_of_In, in_map_iff in Hin as (r' & Hl & Hr').
  apply filter_In in Hr' as [Hr' _].
  rewrite <- Hl. apply list_elem_of_In, in_map, Hr'.
Qed.

Lemma select_rows_twice (mask : list string -> bool) (table : MFrame) :
  select_rows mask (select_rows mask table) = select_rows mask table.
Proof.
  unfold select_rows. cbn [columns rows]. f_equal.
  induction (rows table) as [|r rs IH]; simpl; [reflexivity|].
  destruct (mask r.2) eqn:Hm; simpl; [rewrite Hm, IH; reflexivity | exact IH].
Qed.

(** On a table whose index labels are pairwise distinct, filtering the
    filtered table again with the same conditions changes nothing. *)
Lemma filter_table_idempotent (w : World) (mapping : list (string * operand))
    (conds : list string) (table filtered : MFrame) :
  NoDup (index table) ->
  filter_table w (Some mapping) conds table = Return filtered ->
  filter_table w (Some mapping) conds filtered = Return filtered.
Proof.
  intros Hnd Hf. rewrite filter_table_conjunction in Hf by assumption.
  unfold filter_by_conjunction in Hf.
  destruct (rmapM _ conds) as [masks|e] eqn:Hmasks; [|discriminate].
  injection Hf as <-.
  rewrite filter_table_conjunction by (apply select_rows_index_NoDup; assumption).
  unfold filter_by_conjunction. cbn [columns select_rows].
  rewrite Hmasks. cbn [rbind]. f_equal. apply select_rows_twice.
Qed.

(** C1 (the code at the failing input).  Two tasks, one submission each:
    [R1] says [yes] and [3], [R2] says [no] and [5].  Both rows carry the
    index label [0] in the aggregated table, so [R1], found by the first
    condition, passes the membership test against the result of the second
    condition, which holds [R2].  The pipeline reports [R1] as qualified
    although the conjunction of the two conditions holds on no row. *)
Theorem filter_index_membership_two_tasks :
  (aggregate Scenario.w2 (Scenario.with_conditions Scenario.conds2 Scenario.s2) []).1.1
  = Return Scenario.table2
  /\ filter_table Scenario.w2 (Some cond_mapping_dict) Scenario.conds2 Scenario.table2
     = Return (mkFrame ["HITID"; "WorkerID"; "AssignmentID"; "Q1"; "Q2"]
                 [(0, ["T1"; "R1"; "A1"; "yes"; "3"])])
  /\ filter_by_conjunction Scenario.w2 cond_mapping_dict Scenario.conds2 Scenario.table2
     = Return (mkFrame ["HITID"; "WorkerID"; "AssignmentID"; "Q1"; "Q2"] [])
  /\ (return_filtered_users Scenario.w2
        (Scenario.with_conditions Scenario.conds2 Scenario.s2) []).1.1
     = Return ["R1"].
Proof. repeat split; vm_compute; reflexivity. Qed.

(** C7 (the code at the failing input).  On the same table, filtering the
    filtered table again removes [R1]: the second pass differs from the
    first. *)
Theorem filter_twice_two_tasks :
  exists once twice : MFrame,
    filter_table Scenario.w2 (Some cond_mapping_dict) Scenario.conds2 Scenario.table2
    = Return once
    /\ filter_table Scenario.w2 (Some cond_mapping_dict) Scenario.conds2 once
       = Return twice
    /\ rows once = [(0, ["T1"; "R1"; "A1"; "yes"; "3"])]
    /\ rows twice = [].
Proof.
  eexists _, _. split; [vm_compute; reflexivity|].
  split; [vm_compute; reflexivity|]. split; reflexivity.
Qed.

(** ** The pipeline as a function of the fetched data *)

Lemma get_mturk_results_fetched (w : World) (hit_id : string)
    (questionList : list string) (s : Self) (log : list event) :
  get_mturk_results w hit_id questionList s log
  = (fetched w questionList hit_id,
     match fetched w questionList hit_id with
     | Return o => store_resp o s
     | Raise _ => s
     end,
     match fetched w questionList hit_id with
     | Return None => log ++ [Print [PStr "There are no values!"]]
     | _ => log
     end).
Proof.
  unfold get_mturk_results, fetched, bind, lift.
  destruct (rmapM (helper w hit_id) questionList) as [frames|e]; [|reflexivity].
  cbn [rbind]. unfold merge_or_report.
  destruct (merge_all frames) as [df|[]]; reflexivity.
Qed.

Lemma store_resp_twice (o : option MFrame) (df : MFrame) (s : Self) :
  store_resp (match o with Some x => Some x | None => Some df end) s
  = store_resp o (set_mturk_resp df s).
Proof. destruct o, s; reflexivity. Qed.

Lemma last_stored_acc (w : World) (qs hits : list string) (acc : option MFrame) :
  last_stored w qs hits acc
  = match last_stored w qs hits None with Some x => Some x | None => acc end.
Proof.
  revert acc. induction hits as [|h hits IH]; intros acc; simpl.
  - destruct acc; reflexivity.
  - destruct (fetched w qs h) as [[df|]|e].
    + rewrite (IH (Some df)).
      destruct (last_stored w qs hits None); reflexivity.
    + apply IH.
    + destruct acc; reflexivity.
Qed.

Lemma fetch_loop_run (w : World) (hits : list string) (s : Self) (log : list event) :
  mapM (fun hit_id => let! qs := self questions in get_mturk_results w hit_id qs)
       hits s log
  = (rmapM (fetched w (questions s)) hits,
     store_resp (last_stored w (questions s) hits None) s,
     log ++ reports w (questions s) hits).
Proof.
  revert s log. induction hits as [|h hits IH]; intros s log.
  - simpl. unfold ret. rewrite app_nil_r. reflexivity.
  - cbn [mapM rmapM last_stored reports]. unfold bind at 1. unfold bind at 1.
    unfold self at 1. rewrite get_mturk_results_fetched.
    destruct (fetched w (questions s) h) as [[df|]|e] eqn:Hf; cbn [rbind].
    + unfold bind at 1. rewrite IH.
      replace (questions (store_resp (Some df) s)) with (questions s)
        by (destruct s; reflexivity).
      rewrite (last_stored_acc _ _ _ (Some df)), store_resp_twice.
      destruct (rmapM (fetched w (questions s)) hits); reflexivity.
    + unfold bind at 1. rewrite IH. cbn [store_resp].
      rewrite <- app_assoc.
      destruct (rmapM (fetched w (questions s)) hits); reflexivity.
    + rewrite app_nil_r. reflexivity.
Qed.

Lemma aggregate_run (w : World) (s : Self) (log : list event) :
  aggregate w s log
  = (valid_results_of w (questions s) (HITlist s),
     store_resp (last_stored w (questions s) (HITlist s) None) s,
     log ++ reports w (questions s) (HITlist s)).
Proof.
  unfold aggregate, valid_results_of. unfold bind at 1. unfold self at 1.
  cbv beta iota. unfold bind at 1. rewrite fetch_loop_run.
  destruct (rmapM (fetched w (questions s)) (HITlist s)); reflexivity.
Qed.

(** The state that a successful run of [filter_mturk_results] leaves. *)
Lemma filter_mturk_results_run (w : World) (s : Self) (log : list event)
    (valid filtered : MFrame) (conds aa au fa fu : list string) :
  valid_results_of w (questions s) (HITlist s) = Return valid ->
  conditions s = Some conds ->
  filter_table w (cond_mapping s) conds valid = Return filtered ->
  str_list valid "AssignmentID" = Return aa ->
  str_list valid "WorkerID" = Return au ->
  str_list filtered "AssignmentID" = Return fa ->
  str_list filtered "WorkerID" = Return fu ->
  filter_mturk_results w s log
  = (Return tt,
     set_filteredUsers fu
       (set_filteredAssignments fa
          (set_allUsers au
             (set_allAssignments aa
                (set_filtered_mturk_resp filtered
                   (store_resp (last_stored w (questions s) (HITlist s) None) s))))),
     log ++ reports w (questions s) (HITlist s)).
Proof.
  intros Hvalid Hconds Hfilter Haa Hau Hfa Hfu.
  unfold filter_mturk_results. unfold bind at 1. rewrite aggregate_run, Hvalid.
  destruct (last_stored w (questions s) (HITlist s) None) as [df|];
    unfold bind, attr, self, lift, assign; cbn [store_resp];
    cbn [conditions set_mturk_resp]; rewrite Hconds;
    cbn [cond_mapping set_mturk_resp];
    rewrite Hfilter, Haa, Hau, Hfa, Hfu; reflexivity.
Qed.

Lemma filter_mturk_results_inv (w : World) (s s1 : Self) (log log1 : list event) :
  filter_mturk_results w s log = (Return tt, s1, log1) ->
  exists (valid filtered : MFrame) (conds aa au fa fu : list string),
    valid_results_of w (questions s) (HITlist s) = Return valid
    /\ conditions s = Some conds
    /\ filter_table w (cond_mapping s) conds valid = Return filtered
    /\ str_list valid "AssignmentID" = Return aa
    /\ str_list valid "WorkerID" = Return au
    /\ str_list filtered "AssignmentID" = Return fa
    /\ str_list filtered "WorkerID" = Return fu.
Proof.
  unfold filter_mturk_results. unfold bind at 1. rewrite aggregate_run.
  destruct (valid_results_of w (questions s) (HITlist s)) as [valid|e];
    [|discriminate].
  destruct (last_stored w (questions s) (HITlist s) None) as [df|];
    unfold bind, attr, self, lift, assign; cbn [store_resp];
    cbn [conditions set_mturk_resp];
    (destruct (conditions s) as [conds|]; [|discriminate]);
    cbn [cond_mapping set_mturk_resp];
    (destruct (filter_table w (cond_mapping s) conds valid) as [filtered|] eqn:Hf;
     [|discriminate]);
    (destruct (str_list valid "AssignmentID") as [aa|] eqn:Haa; [|discriminate]);
    (destruct (str_list valid "WorkerID") as [au|] eqn:Hau; [|discriminate]);
    (destruct (str_list filtered "AssignmentID") as [fa|] eqn:Hfa; [|discriminate]);
    (destruct (str_list filtered "WorkerID") as [fu|] eqn:Hfu; [|discriminate]);
    intros _; exists valid, filtered, conds, aa, au, fa, fu;
    repeat split; first [assumption | reflexivity].
Qed.

Lemma screened_state_config (o : option MFrame) (filtered : MFrame)
    (aa au fa fu : list string) (s : Self) :
  let s1 :=
    set_filteredUsers fu
      (set_filteredAssignments fa
         (set_allUsers au
            (set_allAssignments aa
               (set_filtered_mturk_resp filtered (store_resp o s))))) in
  questions s1 = questions s
  /\ HITlist s1 = HITlist s
  /\ conditions s1 = conditions s
  /\ cond_mapping s1 = cond_mapping s
  /\ set_filteredUsers fu
       (set_filteredAssignments fa
          (set_allUsers au
             (set_allAssignments aa
                (set_filtered_mturk_resp filtered (store_resp o s1))))) = s1.
Proof. destruct o, s; repeat split; reflexivity. Qed.

(** Running the screening twice on unchanged data and conditions: the second
    run succeeds as the first did and leaves the object exactly as the first
    left it, hence the same lists of all and of qualified respondents. *)
Lemma filter_mturk_results_rerun (w : World) (s s1 : Self) (log log1 : list event) :
  filter_mturk_results w s log = (Return tt, s1, log1) ->
  filter_mturk_results w s1 log1
  = (Return tt, s1, log1 ++ reports w (questions s) (HITlist s)).
Proof.
  intros Hrun.
  destruct (filter_mturk_results_inv w s s1 log log1 Hrun)
    as (valid & filtered & conds & aa & au & fa & fu
        & Hvalid & Hconds & Hfilter & Haa & Hau & Hfa & Hfu).
  rewrite (filter_mturk_results_run w s log valid filtered conds aa au fa fu) in Hrun
    by assumption.
  injection Hrun as <- <-.
  destruct (screened_state_config (last_stored w (questions s) (HITlist s) None)
              filtered aa au fa fu s) as (Hq & Hh & Hc & Hm & Hfix).
  rewrite (filter_mturk_results_run w _ _ valid filtered conds aa au fa fu);
    rewrite ?Hq, ?Hh, ?Hc, ?Hm; try assumption.
  rewrite Hfix. reflexivity.
Qed.

(** *** Tables of a single task *)






(** ** Operations on a new object *)

Lemma freshly_constructed_unset (w : World) (s : Self) :
  freshly_constructed w s ->
  conditions s = None /\ cond_mapping s = None /\ filteredUsers s = None.
Proof.
  intros (hits & qs & link & name & log0 & [Hinit | (sheet_id & q_text & Hinit)]).
  - unfold Survey_init in Hinit.
    destruct (rbind _ _); [|discriminate].
    injection Hinit as <- _. repeat split; reflexivity.
  - unfold GoogleForms_init, Survey_init in Hinit.
    destruct (rbind (get_account_balance w) _); [|discriminate].
    cbn [rbind] in Hinit. injection Hinit as <- _. repeat split; reflexivity.
Qed.

(** Without conditions the filtering raises: the exception of the
    aggregation if it has one, [AttributeError] on [self.conditions]
    otherwise. *)
Lemma filter_mturk_results_unset (w : World) (s : Self) (log : list event) :
  conditions s = None ->
  exists s' log',
    filter_mturk_results w s log
    = (Raise match valid_results_of w (questions s) (HITlist s) with
             | Return _ => AttributeError
             | Raise e => e
             end, s', log').
Proof.
  intros Hc. unfold filter_mturk_results. unfold bind at 1. rewrite aggregate_run.
  destruct (valid_results_of w (questions s) (HITlist s)) as [valid|e].
  - unfold bind at 1. unfold attr.
    replace (conditions (store_resp _ s)) with (conditions s)
      by (destruct (last_stored _ _ _ _), s; reflexivity).
    rewrite Hc. eexists _, _. reflexivity.
  - eexists _, _. reflexivity.
Qed.

Lemma raised_bind {A B} (m : M A) (k : A -> M B) (s s' : Self)
    (log log' : list event) (e : exn) :
  m s log = (Raise e, s', log') -> raised (bind m k s log) = Some e.
Proof. intros Hm. unfold raised, bind. rewrite Hm. reflexivity. Qed.

(** C10 (as amended).  On a freshly constructed object every listed
    operation raises; none treats the missing condition list as empty.
    [send_first_mailer] raises [AttributeError] (on [filteredUsers]).  The
    six operations that start with [filter_mturk_results] raise
    [AttributeError] (on [conditions]) once the aggregation has produced its
    table, and the exception of the aggregation when the aggregation itself
    raises. *)
Theorem fresh_survey_operations_raise (w : World) (s : Self) (op : operation)
    (log : list event) :
  freshly_constructed w s ->
  call w op s log
  = Some match op with
         | CallSendFirstMailer => AttributeError
         | _ =>
             match valid_results_of w (questions s) (HITlist s) with
             | Return _ => AttributeError
             | Raise e => e
             end
         end.
Proof.
  intros Hfresh.
  destruct (freshly_constructed_unset w s Hfresh) as (Hc & _ & Hu).
  destruct (filter_mturk_results_unset w s log Hc) as (s' & log' & Hf).
  destruct op; cbn [call];
    try (eapply raised_bind; exact Hf).
  unfold raised, send_first_mailer, bind, self, attr. rewrite Hu. reflexivity.
Qed.

(** C10 (witness).  The survey of the scenario, just constructed. *)
Lemma fresh_survey_operations_raise_witness :
  call Scenario.w1 CallReturnFilteredUsers Scenario.s1 [] = Some AttributeError.
Proof.
  apply (fresh_survey_operations_raise Scenario.w1 Scenario.s1
           CallReturnFilteredUsers []).
  exists ["T1"], ["Q1"; "Q2"], "http://part.two", "Ann". eexists.
  right. exists "sheet-1", "code". reflexivity.
Defined.

(** C10 (counterexample).  A survey constructed with an empty question list:
    [allPandas[0]] raises [IndexError] before the conditions are looked at. *)
Lemma fresh_survey_without_questions :
  freshly_constructed Scenario.w1 (Scenario.survey ["T1"] [])
  /\ call Scenario.w1 CallReturnAllUsers (Scenario.survey ["T1"] []) []
     = Some IndexError.
Proof.
  split; [|reflexivity].
  exists ["T1"], [], "http://part.two", "Ann". eexists.
  right. exists "sheet-1", "code". reflexivity.
Qed.

(** ** Bonuses *)



























(** ** The tables that [pd.concat] stacks have the same columns *)

Lemma pd_merge_columns (l l' r r' m m' : MFrame) :
  columns l = columns l' ->
  columns r = columns r' ->
  pd_merge String.append l r merge_key = Return m ->
  pd_merge String.append l' r' merge_key = Return m' ->
  columns m = columns m'.
Proof.
  unfold pd_merge. intros Hl Hr Hm Hm'.
  apply pd_merge_on_Return in Hm as (ps & Hps & ->).
  apply pd_merge_on_Return in Hm' as (ps' & Hps' & ->).
  rewrite Hl, Hr, Hps' in Hps. injection Hps as ->.
  cbn [columns DataFrame]. rewrite Hl, Hr. reflexivity.
Qed.

Lemma merge_all_columns (frames frames' : list MFrame) (df df' : MFrame) :
  map columns frames = map columns frames' ->
  merge_all frames = Return df ->
  merge_all frames' = Return df' ->
  columns df = columns df'.
Proof.
  unfold merge_all, py_index.
  destruct frames as [|f frames], frames' as [|f' frames']; try discriminate.
  cbn [map nth_error rbind tail]. intros [= Hf Hrest].
  assert (forall acc acc' : result MFrame,
            (forall a a', acc = Return a -> acc' = Return a' -> columns a = columns a') ->
            fold_left (fun acc panda =>
                         rbind acc (fun mergedPanda =>
                           pd_merge String.append mergedPanda panda merge_key))
                      frames acc = Return df ->
            fold_left (fun acc panda =>
                         rbind acc (fun mergedPanda =>
                           pd_merge String.append mergedPanda panda merge_key))
                      frames' acc' = Return df' ->
            columns df = columns df') as Hgen.
  { clear Hf. revert frames' Hrest.
    induction frames as [|g frames IH]; intros [|g' frames'] Hrest acc acc' Hacc;
      try discriminate; cbn [fold_left].
    - intros H H'. exact (Hacc _ _ H H').
    - injection Hrest as Hg Hrest. apply (IH frames' Hrest).
      intros a a' Ha Ha'.
      destruct acc as [m|], acc' as [m'|]; try discriminate.
      cbn [rbind] in Ha, Ha'.
      exact (pd_merge_columns m m' g g' a a' (Hacc _ _ eq_refl eq_refl) Hg Ha Ha'). }
  apply Hgen. intros a a' [= <-] [= <-]. exact Hf.
Qed.

(** The columns of the table of a task depend on the question list only. *)
Lemma fetched_columns (w : World) (qs : list string) (hit_id hit_id' : string)
    (df df' : MFrame) :
  fetched w qs hit_id = Return (Some df) ->
  fetched w qs hit_id' = Return (Some df') ->
  columns df = columns df'.
Proof.
  unfold fetched.
  destruct (rmapM (helper w hit_id) qs) as [frames|] eqn:Hframes; [|discriminate].
  destruct (rmapM (helper w hit_id') qs) as [frames'|] eqn:Hframes'; [|discriminate].
  cbn [rbind].
  destruct (merge_all frames) as [m|[]] eqn:Hm; try discriminate.
  destruct (merge_all frames') as [m'|[]] eqn:Hm'; try discriminate.
  intros [= <-] [= <-].
  apply (merge_all_columns frames frames'); [|assumption|assumption].
  apply rmapM_Return in Hframes. apply rmapM_Return in Hframes'.
  clear Hm Hm'. revert frames' Hframes'.
  induction Hframes as [|q f qs frames Hq _ IH]; intros frames' Hframes';
    inversion Hframes' as [|q' f' qs' frames'' Hq' Hrest]; subst; [reflexivity|].
  cbn [map]. f_equal; [|apply IH; assumption].
  destruct (helper_rows _ _ _ _ Hq) as [-> _].
  destruct (helper_rows _ _ _ _ Hq') as [-> _]. reflexivity.
Qed.

(** ** Sanity checks of the string primitives *)

Example str_in_examples :
  str_in "==" "Q1 == yes" = true
  /\ str_in "contains" "Q1 does not contain x" = false
  /\ str_in "does not contain" "Q1 does not contain x" = true
  /\ str_in "" "abc" = true
  /\ str_in "abc" "ab" = false.
Proof. repeat split; reflexivity. Qed.

Example py_split_examples :
  py_split "Q1 == yes" " == " = ["Q1"; "yes"]
  /\ py_split "Q1==yes" " == " = ["Q1==yes"]
  /\ py_split "a == b == c" " == " = ["a"; "b"; "c"]
  /\ py_split "a   b" "  " = ["a"; " b"]
  /\ py_split " == x" " == " = [""; "x"].
Proof. repeat split; reflexivity. Qed.

Example str_ge_examples :
  str_ge "5" "10" = true /\ str_ge "10" "5" = false /\ str_le "abc" "abd" = true.
Proof. repeat split; reflexivity. Qed.

(** Without any condition the filtered table is the whole table. *)
Lemma filter_table_no_condition (w : World) (mapping : option (list (string * operand)))
    (table : MFrame) :
  filter_table w mapping [] table = Return table.
Proof. reflexivity. Qed.

(** ** Aggregation, whenever it gives a table *)

Lemma pd_merge_resolves (left right merged : MFrame) (k : string) :
  pd_merge String.append left right merge_key = Return merged ->
  k ∈ merge_key ->
  (exists p, getseries (columns left) k = Return p)
  /\ (exists p, getseries (columns right) k = Return p).
Proof.
  unfold pd_merge, pd_merge_on. intros Hm Hk.
  destruct (rmapM _ _) as [ps|e] eqn:Hps; [|discriminate].
  apply rmapM_Return in Hps.
  assert ((k, k) ∈ map (fun k : string => (k, k)) merge_key) as Hkk.
  { apply list_elem_of_fmap. exists k. split; [reflexivity | assumption]. }
  clear Hm. induction Hps as [|kk p keys ps Hkp _ IH]; [inversion Hkk|].
  apply elem_of_cons in Hkk as [<- | Hkk]; [|apply IH, Hkk].
  unfold resolve_key_pair in Hkp. cbn [fst snd] in Hkp.
  destruct (getseries (columns right) k) as [rp|]; [|discriminate].
  destruct (getseries (columns left) k) as [lp|]; [|discriminate].
  split; eexists; reflexivity.
Qed.

Lemma question_not_key (q : string) :
  (forall k, k ∈ merge_key -> exists p, getseries (merge_key ++ [q]) k = Return p) ->
  q ∉ merge_key.
Proof.
  intros Hres Hq. destruct (Hres q Hq) as [p Hp].
  unfold merge_key in Hq. rewrite !elem_of_cons in Hq.
  destruct Hq as [-> | [-> | [-> | Hq]]]; [discriminate.. | inversion Hq].
Qed.

Lemma merged_questions_not_keys (w : World) (hit_id : string) (qs : list string)
    (frames : list MFrame) (acc df : MFrame) :
  Forall2 (fun q f => helper w hit_id q = Return f) qs frames ->
  fold_left (fun acc panda =>
               rbind acc (fun mergedPanda =>
                 pd_merge String.append mergedPanda panda merge_key))
            frames (Return acc) = Return df ->
  forall q, q ∈ qs -> q ∉ merge_key.
Proof.
  intros Hframes. revert acc.
  induction Hframes as [|q f qs frames Hq _ IH]; intros acc Hfold q' Hq'.
  - inversion Hq'.
  - cbn [fold_left rbind] in Hfold.
    destruct (pd_merge String.append acc f merge_key) as [m|e] eqn:Hm;
      [|rewrite fold_merge_Raise in Hfold; discriminate].
    apply elem_of_cons in Hq' as [-> | Hq']; [|exact (IH m Hfold q' Hq')].
    apply question_not_key. intros k Hk.
    destruct (helper_rows _ _ _ _ Hq) as [<- _].
    exact (proj2 (pd_merge_resolves acc f m k Hm Hk)).
Qed.

(** Whenever [get_mturk_results] gives a table, whatever the question list,
    each row of the table belongs to a fetched submission that answered
    every requested question. *)
Lemma get_mturk_results_rows_answered (w : World) (hit_id : string)
    (questionList : list string) (s s' : Self) (log log' : list event) (df : MFrame) :
  get_mturk_results w hit_id questionList s log = (Return (Some df), s', log') ->
  forall r, r ∈ rows df ->
    exists wid aid rest,
      r.2 = hit_id :: wid :: aid :: rest
      /\ forall q, q ∈ questionList -> answered w hit_id wid aid q = true.
Proof.
  rewrite get_mturk_results_fetched. intros [= Hf _ _]. unfold fetched in Hf.
  destruct (rmapM (helper w hit_id) questionList) as [frames|] eqn:Hframes;
    [|discriminate].
  cbn [rbind] in Hf. destruct (merge_all frames) as [m|[]] eqn:Hm; try discriminate.
  injection Hf as ->.
  pose proof (rmapM_Return _ _ _ Hframes) as Hall.
  destruct Hall as [|q f qs frames Hq Hrest]; [discriminate|].
  unfold merge_all, py_index in Hm. cbn [nth_error rbind tail] in Hm.
  destruct Hrest as [|q2 f2 qs frames Hq2 Hrest].
  - cbn in Hm. injection Hm as <-. intros r Hr.
    destruct (helper_rows _ _ _ _ Hq) as [_ Hrows].
    destruct (Hrows r Hr) as (wid & aid & resp & Hcells & Hans).
    exists wid, aid, [resp]. split; [assumption|].
    intros q' Hq'. apply list_elem_of_singleton in Hq'. congruence.
  - assert (forall q', q' ∈ q :: q2 :: qs -> q' ∉ merge_key) as Hkeys.
    { intros q' Hq'. apply elem_of_cons in Hq' as [-> | Hq'].
      - cbn [fold_left rbind] in Hm.
        destruct (pd_merge String.append f f2 merge_key) as [m|e] eqn:Hm1;
          [|rewrite fold_merge_Raise in Hm; discriminate].
        apply question_not_key. intros k Hk.
        destruct (helper_rows _ _ _ _ Hq) as [<- _].
        exact (proj1 (pd_merge_resolves f f2 m k Hm1 Hk)).
      - eapply (merged_questions_not_keys w hit_id (q2 :: qs) (f2 :: frames) f df);
          [constructor; assumption | exact Hm | exact Hq']. }
    destruct (merge_fold_sound w hit_id (q2 :: qs) (f2 :: frames) [q] f df)
      as (extra & _ & _ & Hrows).
    + constructor; assumption.
    + intros q' Hq'. apply Hkeys. right. exact Hq'.
    + apply helper_joined_rows_ok; [exact Hq | apply Hkeys; left].
    + exact Hm.
    + exact Hrows.
Qed.

(** * Further properties of the code *)

(** ** Fetching the assignments *)

Lemma all_assignments_app (pre rest : list (list Assignment)) :
  Forall (fun page => page <> []) pre ->
  all_assignments (pre ++ rest) = concat pre ++ all_assignments rest.
Proof.
  induction 1 as [|page pre Hpage _ IH]; [reflexivity|].
  cbn [app all_assignments concat].
  destruct page as [|a page]; [congruence|]. rewrite IH, app_assoc. reflexivity.
Qed.

(** X1.  The pagination loop of [helper] stops at the first empty page: the
    assignments of the pages before it are fetched, in order, and whatever
    the service holds on later pages is never seen; the table of a question
    is the one of a service that holds the earlier pages only. *)
Theorem helper_stops_at_empty_page (w w' : World) (hit_id question : string)
    (pre post : list (list Assignment)) :
  Forall (fun page => page <> []) pre ->
  assignment_pages w hit_id = pre ++ [] :: post ->
  assignment_pages w' hit_id = pre ->
  all_assignments (assignment_pages w hit_id) = concat pre
  /\ helper w hit_id question = helper w' hit_id question.
Proof.
  intros Hpre Hw Hw'.
  assert (all_assignments (assignment_pages w hit_id) = concat pre) as Hall.
  { rewrite Hw, all_assignments_app by assumption. cbn. apply app_nil_r. }
  split; [exact Hall|].
  unfold helper. rewrite Hall, Hw'.
  rewrite <- (app_nil_r pre) at 2.
  rewrite all_assignments_app by assumption. cbn. rewrite app_nil_r. reflexivity.
Qed.

(** X1 (witness).  A second assignment after an empty page is not fetched. *)
Lemma helper_stops_at_empty_page_witness :
  all_assignments
    (assignment_pages
       (Scenario.world
          (fun _ => [[Scenario.submission "R1" "A1" [Scenario.answer "Q1" "yes"]]; [];
                     [Scenario.submission "R2" "A2" [Scenario.answer "Q1" "yes"]]])
          [] []) "T1")
  = concat [[Scenario.submission "R1" "A1" [Scenario.answer "Q1" "yes"]]]
  /\ helper
       (Scenario.world
          (fun _ => [[Scenario.submission "R1" "A1" [Scenario.answer "Q1" "yes"]]; [];
                     [Scenario.submission "R2" "A2" [Scenario.answer "Q1" "yes"]]])
          [] []) "T1" "Q1"
     = helper
         (Scenario.world
            (fun _ => [[Scenario.submission "R1" "A1" [Scenario.answer "Q1" "yes"]]])
            [] []) "T1" "Q1".
Proof.
  apply (helper_stops_at_empty_page _ _ "T1" "Q1"
           [[Scenario.submission "R1" "A1" [Scenario.answer "Q1" "yes"]]]
           [[Scenario.submission "R2" "A2" [Scenario.answer "Q1" "yes"]]]).
  - constructor; [discriminate | constructor].
  - reflexivity.
  - reflexivity.
Defined.

(** X2.  One malformed submission aborts the aggregation: when some fetched
    assignment carries no answer list at all, [get_mturk_results] raises
    [IndexError] for every non-empty question list.  The [except ValueError]
    clause does not apply; nothing is printed and nothing is stored. *)
Theorem get_mturk_results_malformed_assignment (w : World) (hit_id : string)
    (questionList : list string) (a : Assignment) (s : Self) (log : list event) :
  a ∈ all_assignments (assignment_pages w hit_id) ->
  answers a = [] ->
  questionList <> [] ->
  get_mturk_results w hit_id questionList s log = (Raise IndexError, s, log).
Proof.
  intros Ha Hanswers Hqs.
  destruct questionList as [|q qs]; [congruence|].
  assert (helper w hit_id q = Raise IndexError) as Hq.
  { unfold helper.
    destruct (rmapM_raises (assignment_rows hit_id q) _ a IndexError Ha) as [e He].
    { unfold assignment_rows. rewrite Hanswers. reflexivity. }
    rewrite He. cbn [rbind]. f_equal.
    eapply rmapM_only_raises; [|exact He].
    intros x e'. apply assignment_rows_only_IndexError. }
  unfold get_mturk_results, bind, lift. cbn [rmapM]. rewrite Hq. reflexivity.
Qed.

(** X2 (witness).  A submission without answer list next to a regular one. *)
Lemma get_mturk_results_malformed_assignment_witness :
  get_mturk_results
    (Scenario.world
       (fun _ => [[Scenario.submission "R1" "A1" [Scenario.answer "Q1" "yes"];
                   mkAssignment "R2" "A2" []]]) [] [])
    "T1" ["Q1"] Scenario.s1 []
  = (Raise IndexError, Scenario.s1, []).
Proof.
  apply (get_mturk_results_malformed_assignment _ "T1" ["Q1"]
           (mkAssignment "R2" "A2" [])).
  - right. left.
  - reflexivity.
  - discriminate.
Defined.

(** ** The inner join keeps the complete submissions *)

Lemma elem_of_zip_seq {A} (data : list A) (x : A) :
  x ∈ data -> exists i, (i, x) ∈ zip (seq 0 (length data)) data.
Proof.
  intros Hx. apply list_elem_of_lookup in Hx as [i Hi].
  exists i. apply list_elem_of_lookup. exists i.
  apply lookup_zip_Some. split; [|exact Hi].
  apply lookup_seq. split; [reflexivity|]. eapply lookup_lt_Some, Hi.
Qed.

Lemma Forall2_elem_l {A B} (P : A -> B -> Prop) (xs : list A) (ys : list B) (x : A) :
  Forall2 P xs ys -> x ∈ xs -> exists y, y ∈ ys /\ P x y.
Proof.
  induction 1 as [|x' y xs ys Hxy _ IH]; intros Hx.
  - inversion Hx.
  - apply elem_of_cons in Hx as [-> | Hx].
    + exists y. split; [left | assumption].
    + destruct (IH Hx) as (y' & Hy' & HP). exists y'. split; [right|]; assumption.
Qed.

Lemma helper_has_row (w : World) (hit_id question : string) (df : MFrame)
    (a : Assignment) :
  helper w hit_id question = Return df ->
  a ∈ all_assignments (assignment_pages w hit_id) ->
  answers_question question a = true ->
  exists i resp, (i, [hit_id; WorkerId a; AssignmentId a; resp]) ∈ rows df.
Proof.
  unfold helper. intros Hh Ha Hans.
  destruct (rmapM _ _) as [rs|e] eqn:Hrs; [|discriminate].
  injection Hh as <-. apply rmapM_Return in Hrs.
  destruct (Forall2_elem_l _ _ _ a Hrs Ha) as (rs_a & Hin & Hrows).
  unfold assignment_rows, py_index in Hrows. unfold answers_question in Hans.
  destruct (answers a) as [|given others]; [discriminate|].
  cbn [nth_error rbind] in Hrows.
  apply existsb_exists in Hans as (qfa & Hqfa & Hqid).
  destruct (List.filter _ given) as [|qfa' matching] eqn:Hfilter.
  { assert (In qfa (List.filter
                      (fun qfa => String.eqb (qid qfa) question) given)) as Hf
      by (apply filter_In; split; assumption).
    rewrite Hfilter in Hf. contradiction. }
  cbn [rmapM] in Hrows.
  destruct (fields qfa') as [|resp more_fields]; [discriminate|].
  cbn [rbind] in Hrows.
  destruct (rmapM _ matching) as [more|]; [|discriminate].
  cbn [rbind] in Hrows. injection Hrows as <-.
  cbn [rows DataFrame].
  destruct (elem_of_zip_seq (concat rs)
              [hit_id; WorkerId a; AssignmentId a; resp]) as [i Hi].
  { apply list_elem_of_In, in_concat. eexists. split.
    - apply list_elem_of_In, Hin.
    - left. reflexivity. }
  exists i, resp. exact Hi.
Qed.

Lemma join_rows_intro (ps : list (nat * nat)) (drop : list nat)
    (lrows rrows : list (nat * list string)) (l r : nat * list string) :
  l ∈ lrows -> r ∈ rrows -> keys_agree ps l.2 r.2 = true ->
  l.2 ++ drop_positions 0 drop r.2 ∈ join_rows ps drop lrows rrows.
Proof.
  intros Hl Hr Hk. unfold join_rows. apply list_elem_of_In, in_flat_map.
  exists l. split; [apply list_elem_of_In, Hl|].
  apply in_map_iff. exists r. split; [reflexivity|].
  apply filter_In. split; [apply list_elem_of_In, Hr | exact Hk].
Qed.

Lemma merge_step_has_row (w : World) (hit_id q : string) (done : list string)
    (left right : MFrame) (a : Assignment) :
  columns left = merge_key ++ done ->
  key_free done ->
  joined_rows_ok w hit_id done left ->
  helper w hit_id q = Return right ->
  q ∉ merge_key ->
  q ∉ done ->
  (exists i rest, (i, hit_id :: WorkerId a :: AssignmentId a :: rest) ∈ rows left) ->
  a ∈ all_assignments (assignment_pages w hit_id) ->
  answers_question q a = true ->
  exists merged,
    pd_merge String.append left right merge_key = Return merged
    /\ columns merged = merge_key ++ done ++ [q]
    /\ joined_rows_ok w hit_id (done ++ [q]) merged
    /\ exists i rest, (i, hit_id :: WorkerId a :: AssignmentId a :: rest) ∈ rows merged.
Proof.
  intros Hcols Hfree Hok Hh Hq Hnew (i & rest & Hl) Ha Hans.
  destruct (merge_step_ok w hit_id q done left right Hcols Hfree Hok Hh Hq Hnew)
    as (merged & Hm & Hshape & Hok').
  exists merged. split; [exact Hm|]. split; [rewrite Hshape; reflexivity|].
  split; [exact Hok'|].
  rewrite Hshape. cbn [rows DataFrame].
  destruct (helper_has_row w hit_id q right a Hh Ha Hans) as (j & resp & Hr).
  destruct (elem_of_zip_seq
              (join_rows [(0, 0); (1, 1); (2, 2)] [0; 1; 2] (rows left) (rows right))
              (hit_id :: WorkerId a :: AssignmentId a :: rest ++ [resp])) as [n Hn].
  { pose proof (join_rows_intro [(0, 0); (1, 1); (2, 2)] [0; 1; 2] _ _ _ _ Hl Hr) as Hj.
    cbn [snd] in Hj. rewrite drop_key_positions in Hj. apply Hj.
    unfold keys_agree. cbn. rewrite !bool_decide_eq_true_2 by reflexivity. reflexivity. }
  exists n, (rest ++ [resp]). exact Hn.
Qed.

(** X3.  The other half of the inner join: when the per-question fetches
    succeed (non-empty list of pairwise different questions, no question
    named like a key column), every fetched submission that holds an answer
    to each requested question has a row in the table that
    [get_mturk_results] returns. *)
Theorem get_mturk_results_keeps_complete (w : World) (hit_id : string)
    (questionList : list string) (frames : list MFrame) (a : Assignment)
    (s : Self) (log : list event) :
  rmapM (helper w hit_id) questionList = Return frames ->
  questionList <> [] ->
  NoDup questionList ->
  (forall q, q ∈ questionList -> q ∉ merge_key) ->
  a ∈ all_assignments (assignment_pages w hit_id) ->
  (forall q, q ∈ questionList -> answers_question q a = true) ->
  exists df i rest,
    get_mturk_results w hit_id questionList s log
    = (Return (Some df), set_mturk_resp df s, log)
    /\ (i, hit_id :: WorkerId a :: AssignmentId a :: rest) ∈ rows df.
Proof.
  intros Hframes Hne Hnd Hkeys Ha Hans.
  pose proof (rmapM_Return _ _ _ Hframes) as Hall.
  destruct Hall as [|q f qs frames Hq Hrest]; [congruence|].
  assert (forall (qs : list string) (frames : list MFrame) (done : list string)
            (acc : MFrame),
            Forall2 (fun q df => helper w hit_id q = Return df) qs frames ->
            (forall q, q ∈ done ++ qs -> q ∉ merge_key) ->
            NoDup (done ++ qs) ->
            (forall q, q ∈ qs -> answers_question q a = true) ->
            columns acc = merge_key ++ done ->
            joined_rows_ok w hit_id done acc ->
            (exists i rest,
               (i, hit_id :: WorkerId a :: AssignmentId a :: rest) ∈ rows acc) ->
            exists merged,
              fold_left (fun acc panda =>
                           rbind acc (fun mergedPanda =>
                             pd_merge String.append mergedPanda panda merge_key))
                        frames (Return acc) = Return merged
              /\ exists i rest,
                   (i, hit_id :: WorkerId a :: AssignmentId a :: rest) ∈ rows merged)
    as Hfold.
  { clear -Ha. intros qs frames done acc Hall. revert done acc.
    induction Hall as [|q f qs frames Hq _ IH];
      intros done acc Hkeys Hnd Hans Hcols Hok Hrow.
    - exists acc. split; [reflexivity | exact Hrow].
    - destruct (merge_step_has_row w hit_id q done acc f a Hcols)
        as (m & Hm & Hcols' & Hok' & Hrow');
        [ intros k Hk Hin; apply (Hkeys k); [apply elem_of_app; left; exact Hin | exact Hk]
        | exact Hok | exact Hq
        | apply Hkeys, elem_of_app; right; left
        | apply NoDup_app in Hnd as (_ & Hdis & _); intros Hin;
          apply (Hdis q Hin); left
        | exact Hrow | exact Ha | apply Hans; left |].
      destruct (IH (done ++ [q]) m) as (merged & Hmerged & Hfinal).
      + intros q' Hq'. apply Hkeys. rewrite <- app_assoc in Hq'. exact Hq'.
      + rewrite <- app_assoc. exact Hnd.
      + intros q' Hq'. apply Hans. right. exact Hq'.
      + rewrite Hcols'. reflexivity.
      + exact Hok'.
      + exact Hrow'.
      + exists merged. cbn [fold_left rbind]. rewrite Hm. split; assumption. }
  destruct (Hfold qs frames [q] f Hrest) as (df & Hdf & i & rest & Hrow).
  - exact Hkeys.
  - exact Hnd.
  - intros q' Hq'. apply Hans. right. exact Hq'.
  - destruct (helper_rows _ _ _ _ Hq) as [-> _]. reflexivity.
  - apply helper_joined_rows_ok; [exact Hq | apply Hkeys; left].
  - destruct (helper_has_row w hit_id q f a Hq Ha) as (i & resp & Hi);
      [apply Hans; left|]. exists i, [resp]. exact Hi.
  - exists df, i, rest. split; [|exact Hrow].
    unfold get_mturk_results, bind, lift. rewrite Hframes.
    unfold merge_or_report, merge_all, py_index. cbn [nth_error rbind tail].
    rewrite Hdf. reflexivity.
Qed.

(** X3 (witness).  In the scenario [R1] answers both questions. *)
Lemma get_mturk_results_keeps_complete_witness :
  exists df i rest,
    get_mturk_results Scenario.w1 "T1" ["Q1"; "Q2"] Scenario.s1 []
    = (Return (Some df), set_mturk_resp df Scenario.s1, [])
    /\ (i, "T1"
           :: WorkerId (Scenario.submission "R1" "A1"
                          [Scenario.answer "Q1" "yes"; Scenario.answer "Q2" "5"])
           :: AssignmentId (Scenario.submission "R1" "A1"
                              [Scenario.answer "Q1" "yes"; Scenario.answer "Q2" "5"])
           :: rest) ∈ rows df.
Proof.
  apply (get_mturk_results_keeps_complete Scenario.w1 "T1" ["Q1"; "Q2"]
           [DataFrame [["T1"; "R1"; "A1"; "yes"]; ["T1"; "R2"; "A2"; "yes"]]
              ["HITID"; "WorkerID"; "AssignmentID"; "Q1"];
            DataFrame [["T1"; "R1"; "A1"; "5"]]
              ["HITID"; "WorkerID"; "AssignmentID"; "Q2"]]).
  - reflexivity.
  - discriminate.
  - repeat constructor; rewrite ?elem_of_cons, ?elem_of_nil; intuition discriminate.
  - intros q Hq Hk. apply list_elem_of_In in Hq. apply list_elem_of_In in Hk.
    simpl in Hq, Hk. intuition (subst; discriminate).
  - left.
  - intros q Hq. apply list_elem_of_In in Hq. simpl in Hq.
    intuition (subst; reflexivity).
Defined.

(** ** The shape of the tables *)

Lemma merge_all_questions_not_keys (w : World) (hit_id : string)
    (q q2 : string) (qs : list string) (f f2 : MFrame) (frames : list MFrame)
    (df : MFrame) :
  Forall2 (fun q f => helper w hit_id q = Return f) (q :: q2 :: qs) (f :: f2 :: frames) ->
  merge_all (f :: f2 :: frames) = Return df ->
  forall q', q' ∈ q :: q2 :: qs -> q' ∉ merge_key.
Proof.
  intros Hall Hm. unfold merge_all, py_index in Hm. cbn [nth_error rbind tail] in Hm.
  apply Forall2_cons in Hall as [Hq Hrest].
  intros q' Hq'. apply elem_of_cons in Hq' as [-> | Hq'].
  - cbn [fold_left rbind] in Hm.
    destruct (pd_merge String.append f f2 merge_key) as [m|e] eqn:Hm1;
      [|rewrite fold_merge_Raise in Hm; discriminate].
    apply question_not_key. intros k Hk.
    destruct (helper_rows _ _ _ _ Hq) as [<- _].
    exact (proj1 (pd_merge_resolves f f2 m k Hm1 Hk)).
  - exact (merged_questions_not_keys w hit_id (q2 :: qs) (f2 :: frames) f df
             Hrest Hm q' Hq').
Qed.

Lemma merge_step_shape (w : World) (hit_id q : string) (left right merged : MFrame)
    (extra : list string) :
  columns left = merge_key ++ extra ->
  key_free extra ->
  Forall (fun r => length r.2 = length (columns left)) (rows left) ->
  helper w hit_id q = Return right ->
  q ∉ merge_key ->
  pd_merge String.append left right merge_key = Return merged ->
  exists extra',
    columns merged = merge_key ++ extra'
    /\ key_free extra'
    /\ Forall (fun r => length r.2 = length (columns merged)) (rows merged)
    /\ index merged = seq 0 (length (rows merged)).
Proof.
  intros Hcols Hfree Hwf Hh Hq Hm.
  destruct (helper_rows _ _ _ _ Hh) as [HcolsR HrowsR].
  assert (key_free [q]) as HfreeR.
  { intros k Hk Hin. apply list_elem_of_singleton in Hin. congruence. }
  rewrite (pd_merge_keyed_Return left right merged extra [q] Hcols HcolsR Hfree HfreeR Hm).
  eexists. split; [reflexivity|]. split; [|split].
  - apply merged_extra_key_free; assumption.
  - cbn [rows columns DataFrame]. apply List.Forall_forall. intros [i m] Hr.
    rewrite <- list_elem_of_In in Hr. apply elem_of_zip_r, join_rows_elem in Hr
      as (l & r & Hl & Hr & _ & ->).
    destruct (HrowsR r Hr) as (wid & aid & resp & -> & _).
    rewrite List.Forall_forall in Hwf.
    specialize (Hwf l ltac:(apply list_elem_of_In; exact Hl)).
    cbn [snd]. rewrite drop_key_positions.
    rewrite !length_app, !length_map, Hwf, Hcols, !length_app. reflexivity.
  - unfold index. cbn [rows DataFrame].
    rewrite fst_zip by (rewrite length_seq; lia).
    rewrite length_zip, length_seq, Nat.min_id. reflexivity.
Qed.

Lemma helper_shape (w : World) (hit_id q : string) (df : MFrame) :
  helper w hit_id q = Return df ->
  Forall (fun r => length r.2 = length (columns df)) (rows df)
  /\ index df = seq 0 (length (rows df)).
Proof.
  intros Hh. destruct (helper_rows _ _ _ _ Hh) as [Hcols Hrows]. split.
  - apply List.Forall_forall. intros r Hr. rewrite <- list_elem_of_In in Hr.
    destruct (Hrows r Hr) as (wid & aid & resp & -> & _). rewrite Hcols. reflexivity.
  - unfold helper in Hh. destruct (rmapM _ _) as [rs|]; [|discriminate].
    injection Hh as <-. unfold index. cbn [rows DataFrame].
    rewrite fst_zip by (rewrite length_seq; lia).
    rewrite length_zip, length_seq, Nat.min_id. reflexivity.
Qed.

Lemma merge_fold_shape (w : World) (hit_id : string) (qs : list string)
    (frames : list MFrame) (acc merged : MFrame) (extra : list string) :
  Forall2 (fun q df => helper w hit_id q = Return df) qs frames ->
  (forall q, q ∈ qs -> q ∉ merge_key) ->
  columns acc = merge_key ++ extra ->
  key_free extra ->
  Forall (fun r => length r.2 = length (columns acc)) (rows acc) ->
  index acc = seq 0 (length (rows acc)) ->
  fold_left (fun acc panda =>
               rbind acc (fun mergedPanda =>
                 pd_merge String.append mergedPanda panda merge_key))
            frames (Return acc) = Return merged ->
  Forall (fun r => length r.2 = length (columns merged)) (rows merged)
  /\ index merged = seq 0 (length (rows merged)).
Proof.
  intros Hall. revert acc extra.
  induction Hall as [|q f qs frames Hq _ IH];
    intros acc extra Hkeys Hcols Hfree Hwf Hidx Hfold.
  - injection Hfold as <-. split; assumption.
  - cbn [fold_left rbind] in Hfold.
    destruct (pd_merge String.append acc f merge_key) as [m|e] eqn:Hm;
      [|rewrite fold_merge_Raise in Hfold; discriminate].
    destruct (merge_step_shape w hit_id q acc f m extra Hcols Hfree Hwf Hq)
      as (extra' & Hcols' & Hfree' & Hwf' & Hidx'); [apply Hkeys; left | exact Hm |].
    apply (IH m extra'); try assumption.
    intros q' Hq'. apply Hkeys. right. exact Hq'.
Qed.

(** X4.  Every table that [get_mturk_results] returns is rectangular and
    freshly numbered: each row has exactly one cell per column, and the index
    labels are [0, 1, ..., n - 1] in row order. *)
Theorem get_mturk_results_table_shape (w : World) (hit_id : string)
    (questionList : list string) (s s' : Self) (log log' : list event) (df : MFrame) :
  get_mturk_results w hit_id questionList s log = (Return (Some df), s', log') ->
  Forall (fun r => length r.2 = length (columns df)) (rows df)
  /\ index df = seq 0 (length (rows df)).
Proof.
  rewrite get_mturk_results_fetched. intros [= Hf _ _]. unfold fetched in Hf.
  destruct (rmapM (helper w hit_id) questionList) as [frames|] eqn:Hframes;
    [|discriminate].
  cbn [rbind] in Hf. destruct (merge_all frames) as [m|[]] eqn:Hm; try discriminate.
  injection Hf as ->.
  pose proof (rmapM_Return _ _ _ Hframes) as Hall.
  destruct Hall as [|q f qs frames Hq Hrest]; [discriminate|].
  destruct Hrest as [|q2 f2 qs frames Hq2 Hrest].
  - unfold merge_all, py_index in Hm. cbn in Hm. injection Hm as <-.
    exact (helper_shape w hit_id q f Hq).
  - pose proof (merge_all_questions_not_keys w hit_id q q2 qs f f2 frames df
                  ltac:(repeat constructor; assumption) Hm) as Hkeys.
    unfold merge_all, py_index in Hm. cbn [nth_error rbind tail] in Hm.
    destruct (helper_rows _ _ _ _ Hq) as [Hcols _].
    destruct (helper_shape w hit_id q f Hq) as [Hwf Hidx].
    apply (merge_fold_shape w hit_id (q2 :: qs) (f2 :: frames) f df [q]);
      try assumption.
    + constructor; assumption.
    + intros q' Hq'. apply Hkeys. right. exact Hq'.
    + intros k Hk Hin. apply list_elem_of_singleton in Hin. subst k.
      exact (Hkeys q ltac:(left) Hk).
Qed.

(** X4 (witness).  The table of the scenario. *)
Lemma get_mturk_results_table_shape_witness :
  Forall (fun r : nat * list string =>
            length r.2
            = length (columns (mkFrame (I := nat) (C := string)
                                 ["HITID"; "WorkerID"; "AssignmentID"; "Q1"; "Q2"]
                                 [(0, ["T1"; "R1"; "A1"; "yes"; "5"])])))
    (rows (mkFrame ["HITID"; "WorkerID"; "AssignmentID"; "Q1"; "Q2"]
             [(0, ["T1"; "R1"; "A1"; "yes"; "5"])]))
  /\ index (mkFrame ["HITID"; "WorkerID"; "AssignmentID"; "Q1"; "Q2"]
              [(0, ["T1"; "R1"; "A1"; "yes"; "5"])])
     = seq 0 (length (rows (mkFrame (L := string)
                              ["HITID"; "WorkerID"; "AssignmentID"; "Q1"; "Q2"]
                              [(0, ["T1"; "R1"; "A1"; "yes"; "5"])]))).
Proof.
  apply (get_mturk_results_table_shape Scenario.w1 "T1" ["Q1"; "Q2"] Scenario.s1
           (set_mturk_resp
              (mkFrame ["HITID"; "WorkerID"; "AssignmentID"; "Q1"; "Q2"]
                 [(0, ["T1"; "R1"; "A1"; "yes"; "5"])]) Scenario.s1) [] []).
  reflexivity.
Defined.

(** ** What the filtering keeps *)

Lemma List_filter_filter {A} (f g : A -> bool) (l : list A) :
  List.filter g (List.filter f l) = List.filter (fun x => f x && g x) l.
Proof.
  induction l as [|x l IH]; simpl; [reflexivity|].
  destruct (f x); simpl; [destruct (g x); rewrite IH; reflexivity | exact IH].
Qed.

Lemma List_filter_true {A} (l : list A) : List.filter (fun _ => true) l = l.
Proof. induction l as [|x l IH]; simpl; [reflexivity | rewrite IH; reflexivity]. Qed.

(** X5.  [recurse] as one selection: of the first table it keeps, in order,
    exactly the rows whose index label occurs among the labels of every
    other table, whatever these rows hold; the columns are those of the first
    table.  On the empty list it raises [IndexError]. *)
Theorem recurse_index_membership (x : MFrame) (rest : list MFrame) :
  recurse (x :: rest)
  = Return (mkFrame (columns x)
              (List.filter
                 (fun r => forallb (fun y => bool_decide (r.1 ∈ index y)) rest)
                 (rows x)))
  /\ recurse [] = Raise IndexError.
Proof.
  split; [|reflexivity]. cbn [recurse]. f_equal. revert x.
  induction rest as [|y rest IH]; intros x; cbn [recurse_from forallb].
  - rewrite List_filter_true. destruct x; reflexivity.
  - rewrite IH. unfold isin_index. cbn [columns rows].
    rewrite List_filter_filter. reflexivity.
Qed.

Lemma recurse_from_rows (x : MFrame) (rest : list MFrame) :
  columns (recurse_from x rest) = columns x
  /\ rows (recurse_from x rest) `sublist_of` rows x.
Proof.
  revert x. induction rest as [|y rest IH]; intros x; cbn [recurse_from].
  - split; reflexivity.
  - destruct (IH (isin_index x y)) as [Hc Hr]. split; [exact Hc|].
    etransitivity; [exact Hr|]. apply List_filter_sublist.
Qed.

Lemma filter_table_rows (w : World) (mapping : option (list (string * operand)))
    (conds : list string) (table filtered : MFrame) :
  filter_table w mapping conds table = Return filtered ->
  columns filtered = columns table /\ rows filtered `sublist_of` rows table.
Proof.
  unfold filter_table. destruct (bool_decide _).
  - destruct (rmapM _ conds) as [results|] eqn:Hres; [|discriminate].
    cbn [rbind]. destruct results as [|x rest]; [discriminate|].
    cbn [recurse]. intros [= <-].
    apply rmapM_Return in Hres.
    destruct conds as [|c conds]; [inversion Hres|].
    apply Forall2_cons in Hres as [Hx _].
    assert (columns x = columns table /\ rows x `sublist_of` rows table) as [Hc Hr].
    { destruct mapping as [m|]; [|discriminate].
      rewrite eval_condition_mask in Hx.
      destruct (condition_mask w m (columns table) c); [|discriminate].
      injection Hx as <-. split; [reflexivity | apply List_filter_sublist]. }
    destruct (recurse_from_rows x rest) as [Hc' Hr'].
    split; [congruence | etransitivity; eassumption].
  - intros [= <-]. split; reflexivity.
Qed.




(** ** The accessors *)

(** X7.  Asking again gives the same answer: when [return_filtered_users]
    has returned, a second call on the unchanged services returns the same
    list and leaves the object exactly as the first call left it, and
    [return_all_users] then returns the stored list of all respondents, again
    without changing the object. *)
Theorem return_filtered_users_again (w : World) (s s1 : Self) (log log1 : list event)
    (qualified : list string) :
  return_filtered_users w s log = (Return qualified, s1, log1) ->
  return_filtered_users w s1 log1
  = (Return qualified, s1, log1 ++ reports w (questions s) (HITlist s))
  /\ exists all_users,
       allUsers s1 = Some all_users
       /\ return_all_users w s1 log1
          = (Return all_users, s1, log1 ++ reports w (questions s) (HITlist s)).
Proof.
  unfold return_filtered_users, return_all_users. unfold bind at 1.
  destruct (filter_mturk_results w s log) as [[[[]|e] s'] log'] eqn:Hrun;
    [|discriminate].
  unfold attr at 1.
  destruct (filteredUsers s') as [fu|] eqn:Hfu; [|discriminate].
  intros [= <- <- <-].
  pose proof (filter_mturk_results_rerun w s s' log log' Hrun) as Hagain.
  destruct (filter_mturk_results_inv w s s' log log' Hrun)
    as (valid & filtered & conds & aa & au & fa & fu'
        & Hvalid & Hconds & Hfilter & Haa & Hau & Hfa & Hfu').
  pose proof Hrun as Hstate.
  rewrite (filter_mturk_results_run w s log valid filtered conds aa au fa fu') in Hstate
    by assumption.
  injection Hstate as Hs' _.
  split.
  - unfold bind. rewrite Hagain. unfold attr. rewrite Hfu. reflexivity.
  - exists au. split; [rewrite <- Hs'; reflexivity|].
    unfold bind. rewrite Hagain. unfold attr. rewrite <- Hs' at 1. reflexivity.
Qed.

(** X7 (witness).  The scenario with the condition on [Q1]. *)
Lemma return_filtered_users_again_witness :
  return_filtered_users Scenario.w1
    (Scenario.screened Scenario.w1 ["Q1 == yes"] Scenario.s1) []
  = (Return ["R1"], Scenario.screened Scenario.w1 ["Q1 == yes"] Scenario.s1,
     [] ++ reports Scenario.w1
             (questions (Scenario.with_conditions ["Q1 == yes"] Scenario.s1))
             (HITlist (Scenario.with_conditions ["Q1 == yes"] Scenario.s1)))
  /\ exists all_users,
       allUsers (Scenario.screened Scenario.w1 ["Q1 == yes"] Scenario.s1)
       = Some all_users
       /\ return_all_users Scenario.w1
            (Scenario.screened Scenario.w1 ["Q1 == yes"] Scenario.s1) []
          = (Return all_users,
             Scenario.screened Scenario.w1 ["Q1 == yes"] Scenario.s1,
             [] ++ reports Scenario.w1
                     (questions (Scenario.with_conditions ["Q1 == yes"] Scenario.s1))
                     (HITlist (Scenario.with_conditions ["Q1 == yes"] Scenario.s1))).
Proof.
  apply (return_filtered_users_again Scenario.w1
           (Scenario.with_conditions ["Q1 == yes"] Scenario.s1)
           (Scenario.screened Scenario.w1 ["Q1 == yes"] Scenario.s1) [] [] ["R1"]).
  vm_compute. reflexivity.
Defined.



(** ** The syntax of a condition *)

Lemma str_append_cons (c : Ascii.ascii) (s t : string) :
  String c s +:+ t = String c (s +:+ t).
Proof. reflexivity. Qed.

Lemma str_append_assoc (a b c : string) : (a +:+ b) +:+ c = a +:+ (b +:+ c).
Proof.
  induction a as [|x a IH]; [reflexivity|].
  rewrite !str_append_cons, IH. reflexivity.
Qed.

Lemma str_append_nil_r (a : string) : a +:+ "" = a.
Proof.
  induction a as [|x a IH]; [reflexivity|]. rewrite str_append_cons, IH. reflexivity.
Qed.

Lemma prefix_append (a b : string) : String.prefix a (a +:+ b) = true.
Proof.
  induction a as [|x a IH]; [destruct b; reflexivity|].
  rewrite str_append_cons. cbn [String.prefix].
  destruct (Ascii.ascii_dec x x); [exact IH | congruence].
Qed.

Lemma str_in_unfold (pat s : string) :
  str_in pat s
  = String.prefix pat s
    || match s with EmptyString => false | String _ s' => str_in pat s' end.
Proof. destruct s; reflexivity. Qed.

Lemma str_in_append (pre pat post : string) :
  str_in pat (pre +:+ pat +:+ post) = true.
Proof.
  induction pre as [|c pre IH].
  - change ("" +:+ pat +:+ post) with (pat +:+ post).
    rewrite str_in_unfold, prefix_append. reflexivity.
  - rewrite str_append_cons, str_in_unfold, IH. apply orb_true_r.
Qed.

Lemma split_go_skip (sep t cur rest : string) :
  split_go sep (String.length t) cur (t +:+ rest) = split_go sep 0 cur rest.
Proof.
  induction t as [|c t IH]; [reflexivity|].
  rewrite str_append_cons. cbn [String.length split_go]. exact IH.
Qed.

Lemma split_go_field (sep' cur field rest : string) :
  str_in " " field = false ->
  split_go (String Ascii.Space sep') 0 cur (field +:+ String Ascii.Space sep' +:+ rest)
  = (cur +:+ field) :: split_go (String Ascii.Space sep') 0 "" rest.
Proof.
  revert cur. induction field as [|c field IH]; intros cur Hblank.
  - change ("" +:+ String Ascii.Space sep' +:+ rest) with (String Ascii.Space sep' +:+ rest).
    rewrite str_append_nil_r, str_append_cons.
    pose proof (prefix_append (String Ascii.Space sep') rest) as Hp.
    rewrite str_append_cons in Hp. cbn [split_go]. rewrite Hp.
    cbn [String.length]. rewrite Nat.sub_1_r. cbn [Nat.pred].
    rewrite split_go_skip. reflexivity.
  - rewrite str_in_unfold in Hblank. apply orb_false_iff in Hblank as [Hc Hblank].
    rewrite str_append_cons. cbn [split_go].
    cbn [String.prefix] in Hc |- *.
    destruct (Ascii.ascii_dec Ascii.Space c) as [<-|Hne];
      [destruct field; discriminate|].
    rewrite (IH _ Hblank), str_append_assoc. reflexivity.
Qed.

Lemma split_go_value (sep cur value : string) :
  str_in sep value = false ->
  split_go sep 0 cur value = [cur +:+ value].
Proof.
  revert cur. induction value as [|c value IH]; intros cur Hsep.
  - rewrite str_append_nil_r. reflexivity.
  - rewrite str_in_unfold in Hsep. apply orb_false_iff in Hsep as [Hp Hsep].
    cbn [split_go]. rewrite Hp, (IH _ Hsep), str_append_assoc. reflexivity.
Qed.

(** A condition written as field, blank, token, blank, value is read back
    as written, when the token is the first of the mapping that occurs in the
    condition, the field holds no blank and the value does not hold the
    token between blanks. *)
Lemma parse_condition_written (k field value : string) (op : operand) :
  py_index (matching_operands (map fst cond_mapping_dict)
              (field +:+ " " +:+ k +:+ " " +:+ value)) 0 = Return k ->
  dict_get cond_mapping_dict k = Return op ->
  str_in " " field = false ->
  str_in (" " +:+ k +:+ " ") value = false ->
  parse_condition cond_mapping_dict (field +:+ " " +:+ k +:+ " " +:+ value)
  = Return (op, field, value).
Proof.
  intros Hk Hop Hfield Hvalue. unfold parse_condition.
  rewrite Hk. cbn [rbind]. rewrite Hop. cbn [rbind]. unfold py_split.
  replace (field +:+ " " +:+ k +:+ " " +:+ value)
    with (field +:+ String Ascii.Space (k +:+ " ") +:+ value)
    by (f_equal; change (" " +:+ k +:+ " " +:+ value)
          with (String Ascii.Space (k +:+ " " +:+ value));
        rewrite str_append_cons, str_append_assoc; reflexivity).
  change (" " +:+ k +:+ " ") with (String Ascii.Space (k +:+ " ")) in *.
  rewrite (split_go_field _ _ _ _ Hfield), (split_go_value _ _ _ Hvalue).
  reflexivity.
Qed.

(** X9.  A condition written as field, blank, token, blank, value is
    evaluated as the token's comparison of the column named by the field with
    the value, provided that the token is the first key of the mapping that
    occurs in the condition, that the field holds no blank, and that the
    value does not hold the token between two blanks. *)
Theorem eval_condition_written (w : World) (table : MFrame)
    (k field value : string) (op : operand) :
  py_index (matching_operands (map fst cond_mapping_dict)
              (field +:+ " " +:+ k +:+ " " +:+ value)) 0 = Return k ->
  dict_get cond_mapping_dict k = Return op ->
  str_in " " field = false ->
  str_in (" " +:+ k +:+ " ") value = false ->
  parse_condition cond_mapping_dict (field +:+ " " +:+ k +:+ " " +:+ value)
  = Return (op, field, value)
  /\ eval_condition w cond_mapping_dict table (field +:+ " " +:+ k +:+ " " +:+ value)
     = apply_operand w op table field value.
Proof.
  intros Hk Hop Hfield Hvalue.
  pose proof (parse_condition_written k field value op Hk Hop Hfield Hvalue) as Hp.
  split; [exact Hp|]. unfold eval_condition. rewrite Hp. reflexivity.
Qed.

Lemma eval_condition_written_witness :
  eval_condition Scenario.w1 cond_mapping_dict (mkFrame ["Q1"] [(0, ["yes"])])
    "Q1 does not contain no"
  = apply_operand Scenario.w1 OpNotContains (mkFrame ["Q1"] [(0, ["yes"])]) "Q1" "no".
Proof.
  exact (proj2 (eval_condition_written Scenario.w1 (mkFrame ["Q1"] [(0, ["yes"])])
                  "does not contain" "Q1" "no" OpNotContains
                  eq_refl eq_refl eq_refl eq_refl)).
Defined.

(** X10.  The condition made of a field without a blank, the token [==]
    between blanks, and a value that does not hold that token between blanks,
    keeps exactly the rows of the table whose cell in the field's column is
    the value, when one column carries the field's name; the columns stay as
    they are. *)
Theorem eval_condition_equals (w : World) (table : MFrame)
    (field value : string) (p : nat) :
  str_in " " field = false ->
  str_in " == " value = false ->
  getseries (columns table) field = Return p ->
  exists out,
    eval_condition w cond_mapping_dict table (field +:+ " == " +:+ value) = Return out
    /\ columns out = columns table
    /\ forall r, r ∈ rows out <-> r ∈ rows table /\ r.2 !! p = Some value.
Proof.
  intros Hfield Hvalue Hp.
  assert (parse_condition cond_mapping_dict (field +:+ " == " +:+ value)
          = Return (OpEq, field, value)) as Hparse.
  { change (field +:+ " == " +:+ value)
      with (field +:+ " " +:+ "==" +:+ " " +:+ value).
    apply parse_condition_written; [| reflexivity | exact Hfield | exact Hvalue].
    unfold matching_operands. cbn [map fst cond_mapping_dict List.filter].
    replace (field +:+ " " +:+ "==" +:+ " " +:+ value)
      with ((field +:+ " ") +:+ "==" +:+ (" " +:+ value))
      by (rewrite str_append_assoc; reflexivity).
    rewrite str_in_append. reflexivity. }
  exists (select_rows (cell_test p (fun v => String.eqb v value)) table).
  unfold eval_condition. rewrite Hparse. cbn [rbind fst snd].
  unfold apply_operand, operand_mask. rewrite Hp. cbn [rbind].
  split; [reflexivity|]. split; [reflexivity|].
  intros r. unfold select_rows. cbn [rows].
  rewrite !list_elem_of_In, filter_In. unfold cell_test.
  split; intros [Hr Hc]; split; try exact Hr.
  - destruct (r.2 !! p) as [v|]; [|discriminate].
    apply String.eqb_eq in Hc. congruence.
  - rewrite Hc. apply String.eqb_refl.
Qed.

Lemma eval_condition_equals_witness :
  exists out,
    eval_condition Scenario.w1 cond_mapping_dict
      (mkFrame ["WorkerID"; "Q1"] [(0, ["R1"; "yes"]); (1, ["R2"; "no"])])
      "Q1 == yes" = Return out
    /\ columns out = ["WorkerID"; "Q1"]
    /\ forall r, r ∈ rows out <->
         r ∈ [(0, ["R1"; "yes"]); (1, ["R2"; "no"])] /\ r.2 !! 1 = Some "yes".
Proof.
  exact (eval_condition_equals Scenario.w1
           (mkFrame ["WorkerID"; "Q1"] [(0, ["R1"; "yes"]); (1, ["R2"; "no"])])
           "Q1" "yes" 1 eq_refl eq_refl eq_refl).
Defined.

(** X11.  Registering conditions a second time replaces the stored list by
    the new one when the new list is accepted; when it is rejected the call
    raises [ValueError] and the list stored by the first call stays in
    force.  Nothing else of the object changes in either case. *)
Theorem add_conditions_again (conds conds' : list string) (s : Self)
    (log : list event) :
  (add_conditions conds s log).1.1 = Return tt ->
  let s1 := (add_conditions conds s log).1.2 in
  let log1 := (add_conditions conds s log).2 in
  (Forall (fun c => matching_operands cond_mapping_keys c <> []) conds'
   /\ add_conditions conds' s1 log1 = (Return tt, set_conditions conds' s1, log))
  \/ (Exists (fun c => matching_operands cond_mapping_keys c = []) conds'
      /\ add_conditions conds' s1 log1 = (Raise ValueError, s1, log)
      /\ conditions s1 = Some conds).
Proof.
  unfold add_conditions, bind, assign, attr, lift.
  cbn [cond_mapping set_cond_mapping].
  change (map fst cond_mapping_dict) with cond_mapping_keys.
  destruct (check_conditions_outcome cond_mapping_keys conds) as [[_ H1] | [_ H1]];
    rewrite H1; cbn [fst snd]; [intros _ | discriminate].
  cbn [cond_mapping set_cond_mapping set_conditions].
  destruct (check_conditions_outcome cond_mapping_keys conds') as [[H2 H3] | [H2 H3]];
    rewrite H3; [left | right]; repeat split; auto.
Qed.

Lemma add_conditions_again_witness :
  add_conditions ["Q1==yes"; "Q2 is 5"] (add_conditions ["Q1 == yes"] Scenario.s1 []).1.2 []
  = (Raise ValueError, (add_conditions ["Q1 == yes"] Scenario.s1 []).1.2, [])
  /\ conditions (add_conditions ["Q1 == yes"] Scenario.s1 []).1.2 = Some ["Q1 == yes"].
Proof.
  destruct (add_conditions_again ["Q1 == yes"] ["Q1==yes"; "Q2 is 5"] Scenario.s1 []
              eq_refl) as [[Hall _] | [_ H]].
  - exfalso. apply Forall_cons_1 in Hall as [_ Hall].
    apply Forall_cons_1 in Hall as [Hall _]. apply Hall. reflexivity.
  - exact H.
Defined.

(** ** The two mailers *)

(** The notification attempts of a batch, one by one: each goes to the
    listed respondent, with the given subject and the message followed by the
    respondent's identifier. *)
Lemma send_reminder_emails_attempts (w : World) (users : list string)
    (subj msg : string) (s : Self) (log : list event) :
  exists (entries : list mail_result) (attempts : list event),
    send_reminder_emails w users subj msg s log = (Return entries, s, log ++ attempts)
    /\ Forall2 (fun user ev =>
                  exists outcome, ev = NotifyWorkers user subj (msg +:+ user) outcome)
               users attempts.
Proof.
  unfold send_reminder_emails. revert log.
  induction users as [|u users IH]; intros log.
  - exists [], []. simpl. unfold ret. rewrite app_nil_r. split; constructor.
  - simpl. unfold bind at 1. rewrite send_one_run.
    set (ev := NotifyWorkers u subj (msg +:+ u) _).
    destruct (IH (log ++ [ev])) as (entries & attempts & Hrun & Hall).
    unfold bind at 1. rewrite Hrun. unfold ret.
    eexists _, (ev :: attempts). split; [rewrite <- app_assoc; reflexivity|].
    constructor; [eexists; reflexivity | exact Hall].
Qed.




(** X13.  With the qualified respondents stored, [send_first_mailer]
    returns without raising and changes nothing of the object; it makes one
    attempt per qualified respondent, in order, with the invitation subject
    and the invitation text followed by the respondent's identifier; the
    invitation text contains the link and the sender's name. *)
Theorem send_first_mailer_invites_qualified (w : World) (s : Self)
    (log : list event) (users : list string) :
  filteredUsers s = Some users ->
  exists (entries : list mail_result) (attempts : list event),
    send_first_mailer w s log = (Return entries, s, log ++ attempts)
    /\ Forall2 (fun user ev =>
                  exists outcome,
                    ev = NotifyWorkers user send_first_mailer_subject
                           (send_first_mailer_message (srvy_link s) (from_name s)
                            +:+ user) outcome)
               users attempts
    /\ str_in (srvy_link s) (send_first_mailer_message (srvy_link s) (from_name s)) = true
    /\ str_in (from_name s) (send_first_mailer_message (srvy_link s) (from_name s)) = true.
Proof.
  intros Hu. unfold send_first_mailer, bind, self, attr. rewrite Hu.
  destruct (send_reminder_emails_attempts w users send_first_mailer_subject
              (send_first_mailer_message (srvy_link s) (from_name s)) s log)
    as (entries & attempts & Hrun & Hall).
  exists entries, attempts. split; [exact Hrun|]. split; [exact Hall|].
  unfold send_first_mailer_message. split.
  - apply str_in_append.
  - rewrite <- (str_append_assoc _ (srvy_link s)), <- (str_append_assoc _ _ (from_name s +:+ _)).
    apply str_in_append.
Qed.

Lemma send_first_mailer_invites_qualified_witness :
  exists (entries : list mail_result) (attempts : list event),
    send_first_mailer Scenario.w1
      (Scenario.screened Scenario.w1 ["Q1 == yes"] Scenario.s1) []
    = (Return entries, Scenario.screened Scenario.w1 ["Q1 == yes"] Scenario.s1,
       [] ++ attempts)
    /\ Forall2 (fun user ev =>
                  exists outcome,
                    ev = NotifyWorkers user send_first_mailer_subject
                           (send_first_mailer_message "http://part.two" "Ann"
                            +:+ user) outcome)
               ["R1"] attempts
    /\ str_in "http://part.two"
         (send_first_mailer_message "http://part.two" "Ann") = true
    /\ str_in "Ann" (send_first_mailer_message "http://part.two" "Ann") = true.
Proof.
  apply (send_first_mailer_invites_qualified Scenario.w1
           (Scenario.screened Scenario.w1 ["Q1 == yes"] Scenario.s1) [] ["R1"]).
  vm_compute. reflexivity.
Defined.

(** X14.  The reminder does not read the sheet itself: when the screening
    has run on an object whose [remaining] was never assigned,
    [send_second_mailer] raises [AttributeError] without any notification
    attempt and without changing the object. *)
Theorem send_second_mailer_before_results (w : World) (s s1 : Self)
    (log log1 : list event) :
  filter_mturk_results w s log = (Return tt, s1, log1) ->
  remaining s = None ->
  send_second_mailer w s1 log1 = (Raise AttributeError, s1, log1).
Proof.
  intros Hrun Hrem.
  destruct (filter_mturk_results_inv w s s1 log log1 Hrun)
    as (valid & filtered & conds & aa & au & fa & fu & H1 & H2 & H3 & H4 & H5 & H6 & H7).
  rewrite (filter_mturk_results_run w s log valid filtered conds aa au fa fu
             H1 H2 H3 H4 H5 H6 H7) in Hrun.
  injection Hrun as <- <-.
  unfold send_second_mailer, bind, self, attr.
  replace (remaining _) with (remaining s)
    by (destruct (last_stored _ _ _ _), s; reflexivity).
  rewrite Hrem. reflexivity.
Qed.

Lemma send_second_mailer_before_results_witness :
  send_second_mailer Scenario.w1
    (filter_mturk_results Scenario.w1
       (add_conditions ["Q1 == yes"] Scenario.s1 []).1.2 []).1.2
    (filter_mturk_results Scenario.w1
       (add_conditions ["Q1 == yes"] Scenario.s1 []).1.2 []).2
  = (Raise AttributeError,
     (filter_mturk_results Scenario.w1
        (add_conditions ["Q1 == yes"] Scenario.s1 []).1.2 []).1.2,
     (filter_mturk_results Scenario.w1
        (add_conditions ["Q1 == yes"] Scenario.s1 []).1.2 []).2).
Proof.
  apply (send_second_mailer_before_results Scenario.w1
           (add_conditions ["Q1 == yes"] Scenario.s1 []).1.2 _ [] _).
  - vm_compute. reflexivity.
  - reflexivity.
Defined.

(** ** The base class *)

Lemma filter_mturk_results_cls (w : World) (s s1 : Self) (log log1 : list event) :
  filter_mturk_results w s log = (Return tt, s1, log1) -> cls s1 = cls s.
Proof.
  intros Hrun.
  destruct (filter_mturk_results_inv w s s1 log log1 Hrun)
    as (valid & filtered & conds & aa & au & fa & fu & H1 & H2 & H3 & H4 & H5 & H6 & H7).
  rewrite (filter_mturk_results_run w s log valid filtered conds aa au fa fu
             H1 H2 H3 H4 H5 H6 H7) in Hrun.
  injection Hrun as <- _.
  destruct (last_stored _ _ _ _), s; reflexivity.
Qed.

(** X15.  On an object of the base class [Survey] whose screening succeeds,
    [award_bonus], [merge], [return_completed] and [return_remaining] all
    stop at [get_results] with [NotImplementedError]: they leave the object
    as the screening left it, and no bonus is granted, no file written and
    no line printed after the screening. *)
Theorem base_survey_needs_subclass (w : World) (s s1 : Self) (log log1 : list event)
    (amount : float) (kwargs : bonus_kwargs) (csv_fname : option string) :
  cls s = Survey ->
  filter_mturk_results w s log = (Return tt, s1, log1) ->
  award_bonus w amount kwargs s log = (Raise NotImplementedError, s1, log1)
  /\ merge w csv_fname s log = (Raise NotImplementedError, s1, log1)
  /\ return_completed w s log = (Raise NotImplementedError, s1, log1)
  /\ return_remaining w s log = (Raise NotImplementedError, s1, log1).
Proof.
  intros Hcls Hrun.
  assert (get_results w s1 log1 = (Raise NotImplementedError, s1, log1)) as Hget.
  { unfold get_results, bind, self.
    rewrite (filter_mturk_results_cls w s s1 log log1 Hrun), Hcls. reflexivity. }
  unfold award_bonus, merge, return_completed, return_remaining.
  repeat split; unfold bind at 1; rewrite Hrun; unfold bind at 1; rewrite Hget;
    reflexivity.
Qed.

Lemma base_survey_needs_subclass_witness :
  let s := (add_conditions ["Q1 == yes"]
              (mkSelf Survey ["T1"] ["Q1"; "Q2"] "http://part.two" "Ann" None None
                 None None None None None None None None None None None None None)
              []).1.2 in
  award_bonus Scenario.w1 1%float (mkKwargs None None) s []
  = (Raise NotImplementedError, (filter_mturk_results Scenario.w1 s []).1.2,
     (filter_mturk_results Scenario.w1 s []).2).
Proof.
  intros s.
  apply (base_survey_needs_subclass Scenario.w1 s _ [] _ 1%float (mkKwargs None None) None).
  - reflexivity.
  - vm_compute. reflexivity.
Defined.

(** ** Reading the sheet *)

(** What a successful screening leaves untouched. *)
Lemma filter_mturk_results_keeps (w : World) (s s1 : Self) (log log1 : list event) :
  filter_mturk_results w s log = (Return tt, s1, log1) ->
  cls s1 = cls s
  /\ spreadsheet_id s1 = spreadsheet_id s
  /\ srvy_q_text s1 = srvy_q_text s
  /\ completeList s1 = completeList s
  /\ completeActual s1 = completeActual s
  /\ remaining s1 = remaining s
  /\ results s1 = results s
  /\ merged s1 = merged s
  /\ HITlist s1 = HITlist s.
Proof.
  intros Hrun.
  destruct (filter_mturk_results_inv w s s1 log log1 Hrun)
    as (valid & filtered & conds & aa & au & fa & fu & H1 & H2 & H3 & H4 & H5 & H6 & H7).
  rewrite (filter_mturk_results_run w s log valid filtered conds aa au fa fu
             H1 H2 H3 H4 H5 H6 H7) in Hrun.
  injection Hrun as <- _.
  destruct (last_stored _ _ _ _), s; repeat split; reflexivity.
Qed.

(** X16.  When the sheet has no values, [GoogleForms.get_results] prints
    [No data found.], returns [None] and assigns nothing.  The accessors
    [return_completed] and [return_remaining] then answer with the lists that
    an earlier reading stored, and raise [AttributeError] when there was no
    earlier reading. *)
Theorem get_results_empty_sheet (w : World) (s s1 : Self) (log log1 : list event)
    (sid : string) :
  cls s = GoogleForms ->
  spreadsheet_id s = Some sid ->
  sheet_values w sid "Form Responses 1!A:AZ" = [] ->
  filter_mturk_results w s log = (Return tt, s1, log1) ->
  get_results w s1 log1 = (Return None, s1, log1 ++ [Print [PStr "No data found."]])
  /\ return_completed w s log
     = (match completeActual s with
        | Some l => Return l
        | None => Raise AttributeError
        end, s1, log1 ++ [Print [PStr "No data found."]])
  /\ return_remaining w s log
     = (match remaining s with
        | Some l => Return l
        | None => Raise AttributeError
        end, s1, log1 ++ [Print [PStr "No data found."]]).
Proof.
  intros Hcls Hsid Hvals Hrun.
  destruct (filter_mturk_results_keeps w s s1 log log1 Hrun)
    as (Kcls & Ksid & _ & _ & Kactual & Krem & _).
  assert (get_results w s1 log1
          = (Return None, s1, log1 ++ [Print [PStr "No data found."]])) as Hget.
  { unfold get_results, GoogleForms_get_results, bind, self, attr.
    rewrite Kcls, Hcls, Ksid, Hsid.
    change ("Form Responses 1" +:+ "!" +:+ "A:AZ") with "Form Responses 1!A:AZ".
    rewrite Hvals. reflexivity. }
  split; [exact Hget|].
  unfold return_completed, return_remaining.
  split; unfold bind at 1; rewrite Hrun; unfold bind at 1; rewrite Hget;
    unfold attr; [rewrite Kactual | rewrite Krem];
    [destruct (completeActual s) | destruct (remaining s)]; reflexivity.
Qed.

Lemma get_results_empty_sheet_witness :
  let w := Scenario.world Scenario.one_task [] [] in
  let s := Scenario.with_conditions ["Q1 == yes"] Scenario.s1 in
  return_completed w s []
  = (Raise AttributeError, (filter_mturk_results w s []).1.2,
     (filter_mturk_results w s []).2 ++ [Print [PStr "No data found."]]).
Proof.
  intros w s.
  apply (proj1 (proj2 (get_results_empty_sheet w s _ [] _ "sheet-1"
                         eq_refl eq_refl eq_refl eq_refl))).
Defined.

Lemma label_positions_missing {L : Type} `{EqDecision L} (from : nat) (label : L)
    (cols : list L) :
  label ∉ cols -> label_positions from label cols = [].
Proof.
  revert from. induction cols as [|c cols IH]; intros from Hk; simpl; [reflexivity|].
  apply not_elem_of_cons in Hk as [Hne Hk].
  rewrite bool_decide_eq_false_2 by assumption. apply IH, Hk.
Qed.

Lemma sheet_frame_columns (header : list string) (body : list (list string)) :
  exists n, columns (sheet_frame (header :: body)) = map Some header ++ replicate n None.
Proof. unfold sheet_frame, pad_rows. cbn [map columns]. eexists. reflexivity. Qed.

(** X17.  When the first row of the sheet does not hold the text of the
    survey question, [GoogleForms.get_results] raises [KeyError] before it
    assigns anything: the object and the printed lines stay as they were. *)
Theorem get_results_question_missing (w : World) (tab cols : string) (s : Self)
    (log : list event) (sid q : string) (header : list string)
    (body : list (list string)) :
  spreadsheet_id s = Some sid ->
  srvy_q_text s = Some q ->
  sheet_values w sid (tab +:+ "!" +:+ cols) = header :: body ->
  q ∉ header ->
  GoogleForms_get_results w tab cols s log = (Raise KeyError, s, log).
Proof.
  intros Hsid Hq Hvals Hmiss.
  unfold GoogleForms_get_results, bind, attr, lift.
  rewrite Hsid, Hvals, Hq.
  unfold values_tolist, getitem.
  destruct (sheet_frame_columns header body) as [n ->].
  rewrite label_positions_missing; [reflexivity|].
  rewrite elem_of_app, list_elem_of_fmap, elem_of_replicate.
  intros [(x & [= <-] & Hin) | [[=] _]]. contradiction.
Qed.

Lemma get_results_question_missing_witness :
  GoogleForms_get_results (Scenario.world Scenario.one_task [["Timestamp"; "Code"]; ["Monday"; "R1"]] [])
    "Form Responses 1" "A:AZ" Scenario.s1 []
  = (Raise KeyError, Scenario.s1, []).
Proof.
  apply (get_results_question_missing
           (Scenario.world Scenario.one_task [["Timestamp"; "Code"]; ["Monday"; "R1"]] [])
           "Form Responses 1" "A:AZ" Scenario.s1 []
           "sheet-1" "code" ["Timestamp"; "Code"] [["Monday"; "R1"]]
           eq_refl eq_refl eq_refl).
  intros Hin. apply list_elem_of_In in Hin. simpl in Hin.
  intuition discriminate.
Defined.

(** ** Live bonus runs *)

Lemma dict_get_raises {K V} `{EqDecision K} (d : list (K * V)) (k : K) (e : exn) :
  dict_get d k = Raise e -> e = KeyError.
Proof.
  induction d as [|[k' v] d IH]; simpl; [congruence|].
  destruct (bool_decide (k = k')); [discriminate | exact IH].
Qed.

(** One turn of the inner loop in live mode. *)
Lemma bonus_one_live (w : World) (amount : float) (kwargs : bonus_kwargs)
    (budget : float) (entry : string * list (string * string)) (s : Self)
    (log : list event) :
  debug_on kwargs = false ->
  bonus_one w amount kwargs budget entry s log
  = match dict_get entry.2 "AssignmentID" with
    | Raise e => (Raise e, s, log)
    | Return a =>
        match grant_bonus w log entry.1 a amount bonus_message with
        | Return bonus =>
            (Return (budget + amount)%float, s,
             log ++ [GrantBonus entry.1 a amount bonus_message (Return bonus);
                     Print [PStr entry.1; PStr bonus]])
        | Raise e =>
            (Raise e, s, log ++ [GrantBonus entry.1 a amount bonus_message (Raise e)])
        end
    end.
Proof.
  intros Hlive. unfold bonus_one. rewrite Hlive.
  unfold bind, lift, history, emit, print, emit, ret.
  destruct (dict_get entry.2 "AssignmentID") as [a|e]; [|reflexivity].
  destruct (grant_bonus w log entry.1 a amount bonus_message) as [bonus|e];
    [|reflexivity].
  rewrite <- app_assoc. reflexivity.
Qed.

Lemma Forall_removelast_cons {A} (P : A -> Prop) (a : A) (l : list A) :
  P a -> Forall P (removelast l) -> Forall P (removelast (a :: l)).
Proof.
  intros Ha Hl. destruct l as [|b l]; [constructor|].
  change (removelast (a :: b :: l)) with (a :: removelast (b :: l)).
  constructor; assumption.
Qed.

(** The inner loop in live mode. *)
Lemma foldM_bonus_one_live (w : World) (amount : float) (kwargs : bonus_kwargs)
    (d : list (string * list (string * string))) (budget : float) (s : Self)
    (log : list event) :
  debug_on kwargs = false ->
  exists outcome new,
    foldM (bonus_one w amount kwargs) d budget s log = (outcome, s, log ++ new)
    /\ live_run amount (map fst d) outcome new.
Proof.
  intros Hlive. revert budget log.
  induction d as [|entry d IH]; intros budget log.
  - exists (Return budget), []. cbn. unfold ret. rewrite app_nil_r.
    split; [reflexivity|]. exists [], [].
    repeat split; constructor.
  - cbn [foldM map]. unfold bind at 1. rewrite bonus_one_live by exact Hlive.
    destruct (dict_get entry.2 "AssignmentID") as [a|e] eqn:Ha.
    + destruct (grant_bonus w log entry.1 a amount bonus_message) as [bonus|e] eqn:Hg.
      * destruct (IH (budget + amount)%float
                    (log ++ [GrantBonus entry.1 a amount bonus_message (Return bonus);
                             Print [PStr entry.1; PStr bonus]]))
          as (outcome & new & Hrun & done & rest & Hsplit & Hdone & Hall & Hbut & Hout).
        exists outcome,
          (GrantBonus entry.1 a amount bonus_message (Return bonus)
           :: Print [PStr entry.1; PStr bonus] :: new).
        split; [rewrite Hrun, <- app_assoc; reflexivity|].
        exists (entry.1 :: done), rest.
        split; [rewrite Hsplit; reflexivity|].
        split; [cbn; rewrite Hdone; reflexivity|].
        split; [repeat constructor; exact Hall|].
        split; [apply Forall_removelast_cons; [reflexivity|];
                apply Forall_removelast_cons; [reflexivity | exact Hbut]|].
        destruct outcome as [b|exn].
        -- destruct Hout as [-> Hok]. split; [reflexivity|].
           repeat constructor. exact Hok.
        -- destruct Hout as [[-> Hok] | (pre & u & a' & ->)].
           ++ left. split; [reflexivity|]. repeat constructor. exact Hok.
           ++ right.
              exists (GrantBonus entry.1 a amount bonus_message (Return bonus)
                      :: Print [PStr entry.1; PStr bonus] :: pre), u, a'.
              reflexivity.
      * exists (Raise e), [GrantBonus entry.1 a amount bonus_message (Raise e)].
        split; [reflexivity|]. exists [entry.1], (map fst d).
        split; [reflexivity|]. split; [reflexivity|].
        split; [repeat constructor|]. split; [constructor|].
        right. exists [], entry.1, a. reflexivity.
    + exists (Raise e), []. rewrite app_nil_r. split; [reflexivity|].
      exists [], (entry.1 :: map fst d).
      split; [reflexivity|]. split; [reflexivity|].
      split; [constructor|]. split; [constructor|].
      left. split; [exact (dict_get_raises _ _ _ Ha) | constructor].
Qed.

Lemma foldM_app {A B} (body : B -> A -> M B) (xs ys : list A) (acc : B) (s : Self)
    (log : list event) :
  foldM body (xs ++ ys) acc s log
  = bind (foldM body xs acc) (fun acc' => foldM body ys acc') s log.
Proof.
  revert acc s log. induction xs as [|x xs IH]; intros acc s log.
  - reflexivity.
  - cbn [foldM app]. unfold bind.
    destruct (body acc x s log) as [[[acc'|e] s'] log']; [|reflexivity].
    rewrite IH. reflexivity.
Qed.

(** In live mode the two nested loops go through the entries of all the
    dictionaries, one task after the other. *)
Lemma foldM_bonus_hit_flat (w : World) (amount : float) (kwargs : bonus_kwargs)
    (workerList hits : list string) (filtered : MFrame)
    (dicts : list (list (string * list (string * string)))) (budget : float)
    (s : Self) (log : list event) :
  debug_on kwargs = false ->
  filtered_mturk_resp s = Some filtered ->
  rmapM (fun hit => pandaDict_of filtered hit workerList) hits = Return dicts ->
  foldM (bonus_hit w amount kwargs workerList) hits budget s log
  = foldM (bonus_one w amount kwargs) (concat dicts) budget s log.
Proof.
  intros Hlive Hf. revert dicts budget log.
  induction hits as [|hit hits IH]; intros dicts budget log Hd.
  - injection Hd as <-. reflexivity.
  - cbn [rmapM] in Hd.
    destruct (pandaDict_of filtered hit workerList) as [d|e] eqn:Hhit; [|discriminate].
    cbn [rbind] in Hd.
    destruct (rmapM _ hits) as [dicts'|e] eqn:Hrest; [|discriminate].
    injection Hd as <-. cbn [concat]. rewrite foldM_app.
    cbn [foldM]. unfold bind at 1 2. unfold bonus_hit at 1.
    unfold bind at 1. unfold attr at 1. rewrite Hf.
    unfold bind at 1. unfold lift at 1. rewrite Hhit.
    destruct (foldM_bonus_one_live w amount kwargs d budget s log Hlive)
      as (outcome & new & -> & _).
    destruct outcome as [b|e]; [|reflexivity].
    apply IH. reflexivity.
Qed.

Lemma bonus_pairs_dicts (filtered : MFrame) (hits workerList : list string)
    (pairs : list (string * string)) :
  bonus_pairs filtered hits workerList = Return pairs ->
  exists dicts,
    rmapM (fun hit => pandaDict_of filtered hit workerList) hits = Return dicts
    /\ map fst (concat dicts) = map snd pairs.
Proof.
  unfold bonus_pairs. revert pairs.
  induction hits as [|hit hits IH]; intros pairs Hp.
  - injection Hp as <-. exists []. split; reflexivity.
  - cbn [rmapM] in Hp |- *.
    destruct (pandaDict_of filtered hit workerList) as [d|e]; [|discriminate].
    cbn [rbind] in Hp |- *.
    destruct (rmapM _ hits) as [per_hit|e] eqn:Hrest; [|discriminate].
    cbn [rbind] in Hp. injection Hp as <-.
    destruct (IH (concat per_hit) eq_refl) as (dicts & -> & Hd).
    exists (d :: dicts). split; [reflexivity|].
    cbn [concat]. rewrite !map_app, Hd, map_map. reflexivity.
Qed.

(** What a live run of [award_bonus] does once the screening and the reading
    of the sheet have succeeded. *)
Lemma award_bonus_live_run (w : World) (amount : float) (kwargs : bonus_kwargs)
    (s s1 s2 : Self) (log log1 log2 : list event) (r : option SheetFrame)
    (workerList : list string) (filtered : MFrame) (pairs : list (string * string)) :
  debug_on kwargs = false ->
  filter_mturk_results w s log = (Return tt, s1, log1) ->
  get_results w s1 log1 = (Return r, s2, log2) ->
  match customList kwargs with Some l => Some l | None => completeActual s2 end
  = Some workerList ->
  filtered_mturk_resp s2 = Some filtered ->
  bonus_pairs filtered (HITlist s2) workerList = Return pairs ->
  exists (outcome : result unit) (new : list event),
    award_bonus w amount kwargs s log = (outcome, s2, log2 ++ new)
    /\ live_run amount (map snd pairs) outcome new.
Proof.
  intros Hlive Hfilter Hget Hworkers Hfiltered Hpairs.
  destruct (bonus_pairs_dicts _ _ _ _ Hpairs) as (dicts & Hdicts & Husers).
  unfold award_bonus. unfold bind at 1. rewrite Hfilter.
  unfold bind at 1. rewrite Hget. unfold bind at 1.
  assert ((match customList kwargs with
           | Some l => ret l
           | None => attr completeActual
           end) s2 log2 = (Return workerList, s2, log2)) as ->.
  { destruct (customList kwargs) as [l|]; unfold ret, attr.
    - injection Hworkers as ->. reflexivity.
    - rewrite Hworkers. reflexivity. }
  unfold bind at 1. unfold self at 1. unfold bind at 1.
  rewrite (foldM_bonus_hit_flat w amount kwargs workerList (HITlist s2) filtered dicts)
    by assumption.
  destruct (foldM_bonus_one_live w amount kwargs (concat dicts) 0%float s2 log2 Hlive)
    as (outcome & new & -> & Hrun).
  rewrite Husers in Hrun. rewrite Hlive.
  destruct outcome as [b|e].
  - exists (Return tt), new. split; [reflexivity | exact Hrun].
  - exists (Raise e), new. split; [reflexivity | exact Hrun].
Qed.

(** X18.  A live run of [award_bonus], once the screening and the reading of
    the sheet have succeeded: the object stays as the reading left it; the
    run adds only printed lines and grants, each grant of the given amount
    with the fixed message; the grants go, in order, to an initial segment
    of the workers of the qualifying task/worker pairs, and to all of them
    when the run returns. *)
Theorem award_bonus_live_grants_in_order (w : World) (amount : float)
    (kwargs : bonus_kwargs) (s s1 s2 : Self) (log log1 log2 : list event)
    (r : option SheetFrame) (workerList : list string) (filtered : MFrame)
    (pairs : list (string * string)) :
  debug_on kwargs = false ->
  filter_mturk_results w s log = (Return tt, s1, log1) ->
  get_results w s1 log1 = (Return r, s2, log2) ->
  match customList kwargs with Some l => Some l | None => completeActual s2 end
  = Some workerList ->
  filtered_mturk_resp s2 = Some filtered ->
  bonus_pairs filtered (HITlist s2) workerList = Return pairs ->
  exists (outcome : result unit) (new : list event) (done rest : list string),
    award_bonus w amount kwargs s log = (outcome, s2, log2 ++ new)
    /\ map snd pairs = done ++ rest
    /\ omap granted_user new = done
    /\ Forall (live_event amount) new
    /\ (outcome = Return tt -> rest = []).
Proof.
  intros Hlive Hfilter Hget Hworkers Hfiltered Hpairs.
  destruct (award_bonus_live_run w amount kwargs s s1 s2 log log1 log2 r workerList
              filtered pairs Hlive Hfilter Hget Hworkers Hfiltered Hpairs)
    as (outcome & new & Hrun & done & rest & Hsplit & Hdone & Hall & _ & Hout).
  exists outcome, new, done, rest. repeat split; try assumption.
  intros ->. apply Hout.
Qed.

Lemma award_bonus_live_grants_in_order_witness :
  exists (outcome : result unit) (new : list event) (done rest : list string),
    award_bonus Scenario.w4 1 (mkKwargs None None)
      (Scenario.with_conditions ["Q1 == yes"] Scenario.s4) []
    = (outcome,
       (get_results Scenario.w4
          (Scenario.screened Scenario.w4 ["Q1 == yes"] Scenario.s4) []).1.2,
       [] ++ new)
    /\ map snd [("T1", "R1"); ("T1", "R2"); ("T1", "R3")] = done ++ rest
    /\ omap granted_user new = done
    /\ Forall (live_event 1) new
    /\ (outcome = Return tt -> rest = []).
Proof.
  apply (award_bonus_live_grants_in_order Scenario.w4 1 (mkKwargs None None)
           (Scenario.with_conditions ["Q1 == yes"] Scenario.s4)
           (Scenario.screened Scenario.w4 ["Q1 == yes"] Scenario.s4)
           (get_results Scenario.w4
              (Scenario.screened Scenario.w4 ["Q1 == yes"] Scenario.s4) []).1.2
           [] [] [] (Some (sheet_frame Scenario.sheet123))
           ["R3"; "R1"; "R2"]
           (mkFrame ["HITID"; "WorkerID"; "AssignmentID"; "Q1"]
              [(0, ["T1"; "R1"; "A1"; "yes"]); (1, ["T1"; "R2"; "A2"; "yes"]);
               (2, ["T1"; "R3"; "A3"; "yes"])])).
  - reflexivity.
  - vm_compute. reflexivity.
  - vm_compute. reflexivity.
  - vm_compute. reflexivity.
  - vm_compute. reflexivity.
  - vm_compute. reflexivity.
Defined.




(** The keys of a dictionary after an assignment. *)
Lemma dict_set_keys {K V} `{EqDecision K} (d : list (K * V)) (k : K) (v : V) :
  map fst (dict_set d k v)
  = if bool_decide (k ∈ map fst d) then map fst d else map fst d ++ [k].
Proof.
  induction d as [|[k' v'] d IH]; [reflexivity|].
  cbn [dict_set map fst]. destruct (bool_decide (k = k')) eqn:Hk.
  - apply bool_decide_eq_true in Hk as <-.
    rewrite bool_decide_eq_true_2 by apply list_elem_of_here. reflexivity.
  - apply bool_decide_eq_false in Hk. cbn [map fst]. rewrite IH.
    destruct (bool_decide (k ∈ map fst d)) eqn:Hin.
    + apply bool_decide_eq_true in Hin.
      rewrite bool_decide_eq_true_2 by (apply list_elem_of_further, Hin). reflexivity.
    + apply bool_decide_eq_false in Hin.
      rewrite bool_decide_eq_false_2; [reflexivity|].
      rewrite elem_of_cons. tauto.
Qed.

Lemma dict_fold_keys {K V} `{EqDecision K} (items acc : list (K * V)) :
  NoDup (map fst acc) ->
  NoDup (map fst (fold_left (fun d kv => dict_set d kv.1 kv.2) items acc))
  /\ forall x,
       x ∈ map fst (fold_left (fun d kv => dict_set d kv.1 kv.2) items acc)
       <-> x ∈ map fst acc \/ x ∈ map fst items.
Proof.
  revert acc. induction items as [|[k v] items IH]; intros acc Hnd; cbn [fold_left].
  - split; [exact Hnd|]. intros x. cbn. rewrite elem_of_nil. tauto.
  - assert (NoDup (map fst (dict_set acc k v))
            /\ forall x, x ∈ map fst (dict_set acc k v) <-> x ∈ map fst acc \/ x = k)
      as [Hnd' Hkeys].
    { cbn [fst snd]. rewrite dict_set_keys.
      destruct (bool_decide (k ∈ map fst acc)) eqn:Hin.
      - apply bool_decide_eq_true in Hin. split; [exact Hnd|].
        intros x. split; [tauto | intros [Hx | ->]; assumption].
      - apply bool_decide_eq_false in Hin. split.
        + apply NoDup_app. split; [exact Hnd|]. split; [|apply NoDup_singleton].
          intros x Hx Hx'. apply list_elem_of_singleton in Hx'. subst x. contradiction.
        + intros x. rewrite elem_of_app, list_elem_of_singleton. reflexivity. }
    destruct (IH _ Hnd') as [Hnd'' Hall]. split; [exact Hnd''|].
    intros x. rewrite Hall, Hkeys. cbn [map fst]. rewrite elem_of_cons. tauto.
Qed.

Lemma dict_of_keys {K V} `{EqDecision K} (items : list (K * V)) :
  NoDup (map fst (dict_of items))
  /\ forall x, x ∈ map fst (dict_of items) <-> x ∈ map fst items.
Proof.
  destruct (dict_fold_keys items [] (NoDup_nil_2 : NoDup (map fst []))) as [Hnd Hall].
  split; [exact Hnd|]. intros x. unfold dict_of. rewrite Hall. cbn.
  rewrite elem_of_nil. tauto.
Qed.

(** The workers of [pandaDict]: no worker twice, each one listed in
    [workerList] and with a row of the task in the filtered table. *)
Lemma pandaDict_of_keys (filtered : MFrame) (hit : string) (workerList : list string)
    (d : list (string * list (string * string))) :
  pandaDict_of filtered hit workerList = Return d ->
  NoDup (map fst d)
  /\ forall user,
       user ∈ map fst d ->
       user ∈ workerList
       /\ exists r ph pw,
            r ∈ rows filtered
            /\ getseries (columns filtered) "HITID" = Return ph
            /\ r.2 !! ph = Some hit
            /\ getseries (columns filtered) "WorkerID" = Return pw
            /\ r.2 !! pw = Some user.
Proof.
  unfold pandaDict_of.
  destruct (getseries (columns filtered) "HITID") as [ph|e]; [|discriminate].
  destruct (getseries (columns filtered) "WorkerID") as [pw|e]; [|discriminate].
  cbn [rbind]. destruct (bool_decide _); [|discriminate]. intros [= <-].
  match goal with |- context [dict_of ?items] =>
    destruct (dict_of_keys items) as [Hnd Hall] end.
  split; [exact Hnd|]. intros user Hu. apply Hall in Hu.
  rewrite map_map in Hu. cbn [fst] in Hu.
  apply list_elem_of_fmap in Hu as (r & -> & Hr).
  unfold select_rows in Hr. cbn [rows] in Hr.
  apply list_elem_of_In, filter_In in Hr as [Hr Hmask].
  apply andb_true_iff in Hmask as [Hh Hw]. unfold cell_test in Hh, Hw.
  destruct (r.2 !! ph) as [vh|] eqn:Hvh; [|discriminate].
  destruct (r.2 !! pw) as [vw|] eqn:Hvw; [|discriminate].
  apply String.eqb_eq in Hh. subst vh. apply bool_decide_eq_true in Hw.
  cbn [default]. split; [exact Hw|].
  exists r, ph, pw. rewrite <- list_elem_of_In in Hr. repeat split; assumption.
Qed.

Lemma bonus_pairs_elem (filtered : MFrame) (hits workerList : list string)
    (pairs : list (string * string)) :
  bonus_pairs filtered hits workerList = Return pairs ->
  forall p, p ∈ pairs ->
    p.1 ∈ hits
    /\ exists d, pandaDict_of filtered p.1 workerList = Return d /\ p.2 ∈ map fst d.
Proof.
  unfold bonus_pairs. revert pairs.
  induction hits as [|hit hits IH]; intros pairs Hp p Hin.
  - injection Hp as <-. apply elem_of_nil in Hin. contradiction.
  - cbn [rmapM] in Hp.
    destruct (pandaDict_of filtered hit workerList) as [d|e] eqn:Hd; [|discriminate].
    cbn [rbind] in Hp.
    destruct (rmapM _ hits) as [per_hit|e] eqn:Hrest; [|discriminate].
    cbn [rbind concat] in Hp. injection Hp as <-.
    apply elem_of_app in Hin as [Hin | Hin].
    + apply list_elem_of_fmap in Hin as (entry & -> & Hentry). cbn [fst snd].
      split; [apply list_elem_of_here|]. exists d. split; [exact Hd|].
      apply list_elem_of_fmap. exists entry. split; [reflexivity | exact Hentry].
    + destruct (IH (concat per_hit) eq_refl p Hin) as [Hh Hrow].
      split; [apply list_elem_of_further, Hh | exact Hrow].
Qed.

(** X20.  In a live run of [award_bonus] every grant goes to a worker of
    the worker list (the custom list when one is passed, the completed
    respondents otherwise) who has, in the filtered table, a row of one of
    the tasks of [HITlist]. *)
Theorem award_bonus_live_only_listed (w : World) (amount : float)
    (kwargs : bonus_kwargs) (s s1 s2 : Self) (log log1 log2 : list event)
    (r : option SheetFrame) (workerList : list string) (filtered : MFrame)
    (pairs : list (string * string)) :
  debug_on kwargs = false ->
  filter_mturk_results w s log = (Return tt, s1, log1) ->
  get_results w s1 log1 = (Return r, s2, log2) ->
  match customList kwargs with Some l => Some l | None => completeActual s2 end
  = Some workerList ->
  filtered_mturk_resp s2 = Some filtered ->
  bonus_pairs filtered (HITlist s2) workerList = Return pairs ->
  exists (outcome : result unit) (new : list event),
    award_bonus w amount kwargs s log = (outcome, s2, log2 ++ new)
    /\ forall user,
         user ∈ omap granted_user new ->
         user ∈ workerList
         /\ exists hit row ph pw,
              hit ∈ HITlist s2
              /\ row ∈ rows filtered
              /\ getseries (columns filtered) "HITID" = Return ph
              /\ row.2 !! ph = Some hit
              /\ getseries (columns filtered) "WorkerID" = Return pw
              /\ row.2 !! pw = Some user.
Proof.
  intros Hlive Hfilter Hget Hworkers Hfiltered Hpairs.
  destruct (award_bonus_live_run w amount kwargs s s1 s2 log log1 log2 r workerList
              filtered pairs Hlive Hfilter Hget Hworkers Hfiltered Hpairs)
    as (outcome & new & Hrun & done & rest & Hsplit & Hdone & _).
  exists outcome, new. split; [exact Hrun|].
  intros user Hu. rewrite Hdone in Hu.
  assert (user ∈ map snd pairs) as Hin
    by (rewrite Hsplit; apply elem_of_app; left; exact Hu).
  apply list_elem_of_fmap in Hin as ([hit u] & -> & Hp). cbn [snd].
  destruct (bonus_pairs_elem _ _ _ _ Hpairs _ Hp) as (Hhit & d & Hd & Hkey).
  cbn [fst snd] in Hhit, Hd, Hkey.
  destruct (pandaDict_of_keys _ _ _ _ Hd) as [_ Hkeys].
  destruct (Hkeys u Hkey) as (Hlisted & row & ph & pw & Hrow & Hph & Hvh & Hpw & Hvw).
  split; [exact Hlisted|]. exists hit, row, ph, pw. repeat split; assumption.
Qed.

Lemma award_bonus_live_only_listed_witness :
  exists (outcome : result unit) (new : list event),
    award_bonus Scenario.w4 1 (mkKwargs (Some ["R2"; "R9"]) None)
      (Scenario.with_conditions ["Q1 == yes"] Scenario.s4) []
    = (outcome,
       (get_results Scenario.w4
          (Scenario.screened Scenario.w4 ["Q1 == yes"] Scenario.s4) []).1.2,
       [] ++ new)
    /\ forall user,
         user ∈ omap granted_user new ->
         user ∈ ["R2"; "R9"]
         /\ exists hit row ph pw,
              hit ∈ ["T1"]
              /\ row ∈ [(0, ["T1"; "R1"; "A1"; "yes"]); (1, ["T1"; "R2"; "A2"; "yes"]);
                        (2, ["T1"; "R3"; "A3"; "yes"])]
              /\ getseries ["HITID"; "WorkerID"; "AssignmentID"; "Q1"] "HITID" = Return ph
              /\ row.2 !! ph = Some hit
              /\ getseries ["HITID"; "WorkerID"; "AssignmentID"; "Q1"] "WorkerID"
                 = Return pw
              /\ row.2 !! pw = Some user.
Proof.
  apply (award_bonus_live_only_listed Scenario.w4 1 (mkKwargs (Some ["R2"; "R9"]) None)
           (Scenario.with_conditions ["Q1 == yes"] Scenario.s4)
           (Scenario.screened Scenario.w4 ["Q1 == yes"] Scenario.s4)
           (get_results Scenario.w4
              (Scenario.screened Scenario.w4 ["Q1 == yes"] Scenario.s4) []).1.2
           [] [] [] (Some (sheet_frame Scenario.sheet123))
           ["R2"; "R9"]
           (mkFrame ["HITID"; "WorkerID"; "AssignmentID"; "Q1"]
              [(0, ["T1"; "R1"; "A1"; "yes"]); (1, ["T1"; "R2"; "A2"; "yes"]);
               (2, ["T1"; "R3"; "A3"; "yes"])])
           [("T1", "R2")]).
  - reflexivity.
  - vm_compute. reflexivity.
  - vm_compute. reflexivity.
  - reflexivity.
  - vm_compute. reflexivity.
  - vm_compute. reflexivity.
Defined.

(** ** Joining the two parts *)

Lemma with_suffix_opt_not_WorkerID (label : option string) (sfx : string) :
  sfx = "_x" \/ sfx = "_y" -> with_suffix_opt label sfx <> Some "WorkerID".
Proof.
  intros Hs [= H]. apply (suffixed_not_key (default "None" label) sfx Hs).
  rewrite H. unfold merge_key. apply list_elem_of_further, list_elem_of_here.
Qed.

(** In the columns of the joined table the label [WorkerID] stands where it
    stood in the left table and nowhere else. *)
Lemma joined_WorkerID_position (lcols : list string) (rcols : list (option string))
    (lp j : nat) :
  getseries (map Some lcols) (Some "WorkerID") = Return lp ->
  (map (add_suffix with_suffix_opt rcols "_x") (map Some lcols)
   ++ map (add_suffix with_suffix_opt (map Some lcols) "_y") rcols) !! j
  = Some (Some "WorkerID") ->
  j = lp /\ lp < length lcols.
Proof.
  intros Hlp Hj.
  destruct (getseries_position _ _ _ Hlp) as (Hat & Huniq & _).
  assert (lp < length lcols) as Hlt
    by (apply lookup_lt_Some in Hat; rewrite length_map in Hat; exact Hat).
  split; [|exact Hlt].
  apply lookup_app_Some in Hj as [Hj | [_ Hj]].
  - apply list_lookup_fmap_Some in Hj as (c & Hf & Hc).
    unfold add_suffix in Hf. destruct (bool_decide (c ∈ rcols)).
    + symmetry in Hf. apply with_suffix_opt_not_WorkerID in Hf; [contradiction | auto].
    + subst c. apply Huniq, Hc.
  - apply list_lookup_fmap_Some in Hj as (c & Hf & Hc).
    unfold add_suffix in Hf.
    destruct (bool_decide (c ∈ map Some lcols)) eqn:Hin.
    + symmetry in Hf. apply with_suffix_opt_not_WorkerID in Hf; [contradiction | auto].
    + apply bool_decide_eq_false in Hin. subst c. exfalso. apply Hin.
      apply list_elem_of_lookup. exists lp. exact Hat.
Qed.

(** [merge], step by step, once the screening and the reading of the sheet
    have succeeded. *)
Lemma merge_run (w : World) (csv_fname : option string) (s s1 s2 : Self)
    (log log1 log2 : list event) (r : option SheetFrame) (filtered : MFrame)
    (res : SheetFrame) (q : string) :
  filter_mturk_results w s log = (Return tt, s1, log1) ->
  get_results w s1 log1 = (Return r, s2, log2) ->
  filtered_mturk_resp s2 = Some filtered ->
  results s2 = Some res ->
  srvy_q_text s2 = Some q ->
  merge w csv_fname s log
  = match pd_merge_on with_suffix_opt [(Some "WorkerID", Some q)]
            (lift_frame filtered) res with
    | Raise e => (Raise e, s2, log2)
    | Return joined =>
        match drop_column (Some q) (positioned joined) with
        | Raise e => (Raise e, set_merged (positioned joined) s2, log2)
        | Return dropped =>
            match set_index (Some "WorkerID") dropped with
            | Raise e => (Raise e, set_merged dropped s2, log2)
            | Return out =>
                (Return out, set_merged out s2,
                 log2 ++ match csv_fname with
                         | Some fname =>
                             if bool_decide (fname = "") then []
                             else [ToCsv fname out;
                                   Print [PStr ("
Exported to " +:+ fname)]]
                         | None => []
                         end)
            end
        end
    end.
Proof.
  intros Hfilter Hget Hf Hres Hq.
  unfold merge. unfold bind at 1. rewrite Hfilter.
  unfold bind at 1. rewrite Hget.
  unfold bind at 1. unfold attr at 1. rewrite Hf.
  unfold bind at 1. unfold attr at 1. rewrite Hres.
  unfold bind at 1. unfold attr at 1. rewrite Hq.
  unfold bind at 1. unfold lift at 1.
  destruct (pd_merge_on _ _ _ _) as [joined|e]; [|reflexivity].
  unfold bind, assign, attr, lift, self, ret, print, emit.
  cbn [merged set_merged srvy_q_text]. rewrite Hq.
  destruct (drop_column (Some q) (positioned joined)) as [dropped|e];
    [|destruct s2; reflexivity].
  cbn [merged set_merged].
  destruct (set_index (Some "WorkerID") dropped) as [out|e];
    [|destruct s2; reflexivity].
  cbn [merged set_merged].
  destruct csv_fname as [fname|]; [destruct (bool_decide (fname = ""))|];
    destruct s2; cbn [merged set_merged];
    rewrite <- ?app_assoc, ?app_nil_r; reflexivity.
Qed.

Lemma label_positions_Some (from : nat) (label : string) (cols : list string) :
  label_positions from (Some label) (map Some cols) = label_positions from label cols.
Proof.
  revert from. induction cols as [|c cols IH]; intros from; cbn [map label_positions];
    [reflexivity|].
  rewrite IH.
  rewrite (bool_decide_ext (Some label = Some c) (label = c))
    by (split; congruence).
  reflexivity.
Qed.

Lemma join_rows_source {C : Type} `{EqDecision C} (ps : list (nat * nat))
    (drop : list nat) (lrows rrows : list (nat * list C)) (m : list C) :
  m ∈ join_rows ps drop lrows rrows ->
  exists l r,
    l ∈ lrows /\ r ∈ rrows /\ keys_agree ps l.2 r.2 = true
    /\ m = l.2 ++ drop_positions 0 drop r.2.
Proof.
  unfold join_rows. rewrite list_elem_of_In, in_flat_map.
  intros (l & Hl & Hm). apply in_map_iff in Hm as (r & <- & Hr).
  apply filter_In in Hr as [Hr Hk].
  exists l, r. rewrite !list_elem_of_In. auto.
Qed.

(** The index of the merged table, read off the two tables that are joined:
    every label is the identifier of a respondent of the filtered table who
    occurs in the question column of the sheet. *)
Lemma merged_index_labels (filtered : MFrame) (res : SheetFrame) (q : string)
    (joined : Frame (option string) nat (option string)) (dropped out : MergedFrame)
    (users : list string) (complete : list sheet_item) :
  q <> "WorkerID" ->
  Forall (fun r => length r.2 = length (columns filtered)) (rows filtered) ->
  str_list filtered "WorkerID" = Return users ->
  values_tolist res (Some q) = Return complete ->
  pd_merge_on with_suffix_opt [(Some "WorkerID", Some q)] (lift_frame filtered) res
  = Return joined ->
  drop_column (Some q) (positioned joined) = Return dropped ->
  set_index (Some "WorkerID") dropped = Return out ->
  Forall (fun label =>
            exists u, label = Worker (Some u) /\ u ∈ users /\ Cell (Some u) ∈ complete)
         (index out).
Proof.
  intros Hq Hshape Husers Hcomplete Hjoin Hdrop Hindex.
  unfold pd_merge_on in Hjoin. cbn [rmapM] in Hjoin.
  unfold resolve_key_pair in Hjoin. cbn [fst snd] in Hjoin.
  destruct (getseries (columns res) (Some q)) as [rp|] eqn:Hrp; [|discriminate].
  destruct (getseries (columns (lift_frame filtered)) (Some "WorkerID")) as [lp|] eqn:Hlp;
    [|discriminate].
  cbn [rbind] in Hjoin. unfold right_drop in Hjoin.
  cbn [zip zip_with List.filter fst snd] in Hjoin.
  rewrite bool_decide_eq_false_2 in Hjoin by congruence.
  cbn [map] in Hjoin. rewrite drop_positions_none in Hjoin.
  destruct (_ || _); [discriminate|]. injection Hjoin as <-.
  unfold drop_column in Hdrop. cbn [columns positioned DataFrame] in Hdrop.
  match type of Hdrop with
  | context [label_positions 0 (Some q) ?c] =>
      set (cols := c) in *; destruct (label_positions 0 (Some q) cols) as [|p0 ps0]
  end; [discriminate|].
  set (ps := p0 :: ps0) in *. injection Hdrop as <-.
  unfold set_index in Hindex. cbn [columns rows] in Hindex.
  destruct (getseries (drop_positions 0 ps cols) (Some "WorkerID")) as [p|] eqn:Hp;
    [|discriminate].
  cbn [rbind] in Hindex. injection Hindex as <-.
  unfold index. cbn [rows positioned DataFrame]. rewrite !map_map. cbn [fst snd].
  apply List.Forall_forall. intros label Hlabel.
  apply in_map_iff in Hlabel as ([i m] & <- & Hm). cbn [snd].
  rewrite <- list_elem_of_In in Hm. apply elem_of_zip_r in Hm.
  apply join_rows_source in Hm as (l & r & Hl & Hr & Hagree & ->).
  rewrite drop_positions_none.
  destruct (getseries_position _ _ _ Hp) as (Hat & _ & _).
  destruct (drop_positions_lookup 0 ps cols (l.2 ++ r.2) p _ Hat) as (j & Hj & _ & ->).
  cbn [columns lift_frame] in Hlp.
  destruct (joined_WorkerID_position (columns filtered) (columns res) lp j Hlp Hj)
    as [-> Hlt].
  cbn [rows lift_frame] in Hl. apply list_elem_of_fmap in Hl as ([i' cells] & -> & Hcells).
  cbn [fst snd] in Hagree |- *.
  rewrite List.Forall_forall in Hshape.
  pose proof (Hshape _ ltac:(apply list_elem_of_In; exact Hcells)) as Hlen.
  cbn [snd] in Hlen.
  destruct (lookup_lt_is_Some_2 cells lp ltac:(lia)) as [u Hu].
  assert (map Some cells !! lp = Some (Some u)) as Hlu
    by (rewrite list_lookup_fmap, Hu; reflexivity).
  rewrite lookup_app_l by (rewrite length_map; lia).
  rewrite Hlu. exists u. split; [reflexivity|]. split.
  - unfold str_list, getitem in Husers.
    unfold getseries in Hlp. rewrite label_positions_Some in Hlp.
    destruct (label_positions 0 "WorkerID" (columns filtered)) as [|p' [|p'' ps']];
      try discriminate.
    injection Hlp as ->. cbn [rbind] in Husers. injection Husers as <-.
    unfold column_values. rewrite map_map.
    apply list_elem_of_fmap. exists (i', cells). split; [|exact Hcells].
    cbn [snd]. rewrite Hu. reflexivity.
  - unfold values_tolist in Hcomplete.
    destruct (getseries_position _ _ _ Hrp) as (_ & _ & Hitem).
    rewrite Hitem in Hcomplete. cbn [rbind] in Hcomplete. injection Hcomplete as <-.
    apply list_elem_of_fmap. exists r. split; [|exact Hr].
    unfold keys_agree in Hagree. cbn [forallb fst snd] in Hagree.
    apply andb_true_iff in Hagree as [Hagree _].
    apply bool_decide_eq_true in Hagree. rewrite <- Hagree, Hlu. reflexivity.
Qed.

(** Every table of a task is rectangular. *)
Lemma fetched_shape (w : World) (qs : list string) (hit_id : string) (df : MFrame) :
  fetched w qs hit_id = Return (Some df) ->
  Forall (fun r => length r.2 = length (columns df)) (rows df).
Proof.
  unfold fetched. intros Hf.
  destruct (rmapM (helper w hit_id) qs) as [frames|] eqn:Hframes; [|discriminate].
  cbn [rbind] in Hf. destruct (merge_all frames) as [m|[]] eqn:Hm; try discriminate.
  injection Hf as ->.
  pose proof (rmapM_Return _ _ _ Hframes) as Hall.
  destruct Hall as [|q f qs frames Hq Hrest]; [discriminate|].
  destruct Hrest as [|q2 f2 qs frames Hq2 Hrest].
  - unfold merge_all, py_index in Hm. cbn in Hm. injection Hm as <-.
    exact (proj1 (helper_shape w hit_id q f Hq)).
  - pose proof (merge_all_questions_not_keys w hit_id q q2 qs f f2 frames df
                  ltac:(repeat constructor; assumption) Hm) as Hkeys.
    unfold merge_all, py_index in Hm. cbn [nth_error rbind tail] in Hm.
    destruct (helper_rows _ _ _ _ Hq) as [Hcols _].
    destruct (helper_shape w hit_id q f Hq) as [Hwf Hidx].
    apply (merge_fold_shape w hit_id (q2 :: qs) (f2 :: frames) f df [q]);
      try assumption.
    + constructor; assumption.
    + intros q' Hq'. apply Hkeys. right. exact Hq'.
    + intros k Hk Hin. apply list_elem_of_singleton in Hin. subst k.
      exact (Hkeys q ltac:(left) Hk).
Qed.

(** So is the aggregated table. *)
Lemma valid_results_shape (w : World) (qs hits : list string) (valid : MFrame) :
  valid_results_of w qs hits = Return valid ->
  Forall (fun r => length r.2 = length (columns valid)) (rows valid).
Proof.
  unfold valid_results_of.
  destruct (rmapM (fetched w qs) hits) as [objs|] eqn:Hobjs; [|discriminate].
  cbn [rbind]. unfold pd_concat.
  match goal with
  | |- context [match ?o with _ => _ end] => destruct o as [|df dfs] eqn:Hsome
  end; [discriminate|].
  intros [= <-]. cbn [columns rows].
  apply rmapM_Return in Hobjs.
  assert (forall d, d ∈ df :: dfs -> exists hit, fetched w qs hit = Return (Some d))
    as Hsrc.
  { intros d Hd. rewrite <- Hsome in Hd.
    apply list_elem_of_omap in Hd as (o & Ho & Hid). cbn in Hid. subst o.
    destruct (Forall2_elem_r _ _ _ _ Hobjs Ho) as (hit & _ & Hhit).
    exists hit. exact Hhit. }
  destruct (Hsrc df ltac:(apply list_elem_of_here)) as [hit0 Hhit0].
  apply List.Forall_forall. intros r Hr.
  change (rows df ++ flat_map rows dfs) with (flat_map rows (df :: dfs)) in Hr.
  apply in_flat_map in Hr as (d & Hd & Hr).
  rewrite <- list_elem_of_In in Hd. destruct (Hsrc d Hd) as [hit Hhit].
  rewrite (fetched_columns w qs hit0 hit df d Hhit0 Hhit).
  pose proof (fetched_shape w qs hit d Hhit) as Hshape.
  rewrite List.Forall_forall in Hshape. apply Hshape, Hr.
Qed.

(** What a successful screening stores about the qualified respondents. *)
Lemma filter_mturk_results_screened (w : World) (s s1 : Self) (log log1 : list event) :
  filter_mturk_results w s log = (Return tt, s1, log1) ->
  exists (filtered : MFrame) (users : list string),
    filtered_mturk_resp s1 = Some filtered
    /\ filteredUsers s1 = Some users
    /\ str_list filtered "WorkerID" = Return users
    /\ Forall (fun r => length r.2 = length (columns filtered)) (rows filtered).
Proof.
  intros Hrun.
  destruct (filter_mturk_results_inv w s s1 log log1 Hrun)
    as (valid & filtered & conds & aa & au & fa & fu & H1 & H2 & H3 & H4 & H5 & H6 & H7).
  rewrite (filter_mturk_results_run w s log valid filtered conds aa au fa fu
             H1 H2 H3 H4 H5 H6 H7) in Hrun.
  injection Hrun as <- _.
  exists filtered, fu. split; [reflexivity|]. split; [reflexivity|].
  split; [exact H7|].
  destruct (filter_table_rows _ _ _ _ _ H3) as [Hcols Hsub].
  rewrite Hcols. pose proof (valid_results_shape _ _ _ _ H1) as Hshape.
  rewrite List.Forall_forall in Hshape |- *.
  intros r Hr. apply Hshape. rewrite <- list_elem_of_In in Hr |- *.
  exact (elem_of_sublist _ _ _ Hr Hsub).
Qed.

(** [GoogleForms.get_results] on a sheet with values, after the screening. *)
Lemma get_results_sheet_run (w : World) (s : Self) (log : list event)
    (sid q : string) (users : list string) :
  let values := sheet_values w sid "Form Responses 1!A:AZ" in
  cls s = GoogleForms ->
  spreadsheet_id s = Some sid ->
  srvy_q_text s = Some q ->
  filteredUsers s = Some users ->
  values <> [] ->
  get_results w s log
  = match values_tolist (sheet_frame values) (Some q) with
    | Return complete =>
        (Return (Some (sheet_frame values)),
         set_results (sheet_frame values)
           (set_remaining (remaining_of users (completeActual_of users complete))
              (set_completeActual (completeActual_of users complete)
                 (set_completeList complete s))),
         log)
    | Raise e => (Raise e, s, log)
    end.
Proof.
  intros values Hcls Hsid Hq Hu Hv.
  unfold get_results. unfold bind at 1. unfold self at 1. rewrite Hcls.
  destruct (values_tolist (sheet_frame values) (Some q)) as [complete|e] eqn:Hc.
  - apply (GoogleForms_get_results_run w "Form Responses 1" "A:AZ" s log sid q users
             complete Hsid Hq Hu Hv Hc).
  - unfold GoogleForms_get_results, bind, attr, lift. rewrite Hsid.
    change ("Form Responses 1" +:+ "!" +:+ "A:AZ") with "Form Responses 1!A:AZ".
    fold values. destruct values as [|v vs]; [congruence|].
    rewrite Hq, Hc. reflexivity.
Qed.

(** The two ways [merge] can end on a [GoogleForms] object whose screening
    succeeds and whose sheet has values. *)
Lemma merge_sheet_outcome (w : World) (csv_fname : option string) (s s1 : Self)
    (log log1 : list event) (sid q : string) :
  let values := sheet_values w sid "Form Responses 1!A:AZ" in
  cls s = GoogleForms ->
  spreadsheet_id s = Some sid ->
  srvy_q_text s = Some q ->
  values <> [] ->
  filter_mturk_results w s log = (Return tt, s1, log1) ->
  (exists e s3, merge w csv_fname s log = (Raise e, s3, log1))
  \/ exists (users : list string) (complete : list sheet_item) (filtered : MFrame)
       (joined : Frame (option string) nat (option string)) (dropped out : MergedFrame),
       merge w csv_fname s log
       = (Return out,
          set_merged out
            (set_results (sheet_frame values)
               (set_remaining (remaining_of users (completeActual_of users complete))
                  (set_completeActual (completeActual_of users complete)
                     (set_completeList complete s1)))),
          log1 ++ match csv_fname with
                  | Some fname =>
                      if bool_decide (fname = "") then []
                      else [ToCsv fname out;
                            Print [PStr ("
Exported to " +:+ fname)]]
                  | None => []
                  end)
       /\ str_list filtered "WorkerID" = Return users
       /\ Forall (fun r => length r.2 = length (columns filtered)) (rows filtered)
       /\ values_tolist (sheet_frame values) (Some q) = Return complete
       /\ pd_merge_on with_suffix_opt [(Some "WorkerID", Some q)]
            (lift_frame filtered) (sheet_frame values) = Return joined
       /\ drop_column (Some q) (positioned joined) = Return dropped
       /\ set_index (Some "WorkerID") dropped = Return out.
Proof.
  intros values Hcls Hsid Hq Hv Hrun.
  destruct (filter_mturk_results_keeps w s s1 log log1 Hrun)
    as (Kcls & Ksid & Kq & _).
  destruct (filter_mturk_results_screened w s s1 log log1 Hrun)
    as (filtered & users & Hf & Hu & Husers & Hshape).
  rewrite <- Kcls in Hcls. rewrite <- Ksid in Hsid. rewrite <- Kq in Hq.
  pose proof (get_results_sheet_run w s1 log1 sid q users Hcls Hsid Hq Hu Hv) as Hget.
  fold values in Hget.
  destruct (values_tolist (sheet_frame values) (Some q)) as [complete|e] eqn:Hc.
  - pose proof (merge_run w csv_fname s s1 _ log log1 log1 _ filtered
                  (sheet_frame values) q Hrun Hget) as Hmerge.
    cbn [filtered_mturk_resp results srvy_q_text set_results set_remaining
         set_completeActual set_completeList] in Hmerge.
    specialize (Hmerge Hf eq_refl Hq).
    destruct (pd_merge_on _ _ _ _) as [joined|e] eqn:Hjoin;
      [|left; eexists _, _; exact Hmerge].
    destruct (drop_column (Some q) (positioned joined)) as [dropped|e] eqn:Hdrop;
      [|left; eexists _, _; exact Hmerge].
    destruct (set_index (Some "WorkerID") dropped) as [out|e] eqn:Hindex;
      [|left; eexists _, _; exact Hmerge].
    right. exists users, complete, filtered, joined, dropped, out.
    repeat split; assumption.
  - left. exists e, s1. unfold merge. unfold bind at 1. rewrite Hrun.
    unfold bind at 1. rewrite Hget. reflexivity.
Qed.

(** X21.  On a [GoogleForms] object whose screening succeeds and whose
    sheet has values, a [merge] that returns gives the table that it stored
    in [merged], and that table is indexed by completed respondents: every
    index label is the identifier of a respondent of [completeActual], that
    is, of a qualified respondent who occurs in the question column of the
    sheet. *)
Theorem merge_indexed_by_completed (w : World) (csv_fname : option string)
    (s s1 : Self) (log log1 : list event) (sid q : string) :
  cls s = GoogleForms ->
  spreadsheet_id s = Some sid ->
  srvy_q_text s = Some q ->
  q <> "WorkerID" ->
  sheet_values w sid "Form Responses 1!A:AZ" <> [] ->
  filter_mturk_results w s log = (Return tt, s1, log1) ->
  exists outcome s3 log3,
    merge w csv_fname s log = (outcome, s3, log3)
    /\ match outcome with
       | Raise _ => True
       | Return out =>
           merged s3 = Some out
           /\ exists completed,
                completeActual s3 = Some completed
                /\ Forall (fun label =>
                             exists u, label = Worker (Some u) /\ u ∈ completed)
                          (index out)
       end.
Proof.
  intros Hcls Hsid Hq Hne Hv Hrun.
  destruct (merge_sheet_outcome w csv_fname s s1 log log1 sid q Hcls Hsid Hq Hv Hrun)
    as [(e & s3 & Hm)
       | (users & complete & filtered & joined & dropped & out
          & Hm & Husers & Hshape & Hc & Hjoin & Hdrop & Hindex)].
  - exists (Raise e), s3, log1. split; [exact Hm | exact I].
  - eexists (Return out), _, _. split; [exact Hm|].
    split; [reflexivity|].
    exists (completeActual_of users complete). split; [reflexivity|].
    pose proof (merged_index_labels filtered _ q joined dropped out users complete
                  Hne Hshape Husers Hc Hjoin Hdrop Hindex) as Hlabels.
    rewrite List.Forall_forall in Hlabels |- *.
    intros label Hl. destruct (Hlabels label Hl) as (u & -> & Hu & Hcell).
    exists u. split; [reflexivity|]. apply completeActual_of_elem. split; assumption.
Qed.

Lemma merge_indexed_by_completed_witness :
  exists outcome s3 log3,
    merge Scenario.w1 None (Scenario.with_conditions ["Q1 == yes"] Scenario.s1) []
    = (outcome, s3, log3)
    /\ match outcome with
       | Raise _ => True
       | Return out =>
           merged s3 = Some out
           /\ exists completed,
                completeActual s3 = Some completed
                /\ Forall (fun label =>
                             exists u, label = Worker (Some u) /\ u ∈ completed)
                          (index out)
       end.
Proof.
  apply (merge_indexed_by_completed Scenario.w1 None
           (Scenario.with_conditions ["Q1 == yes"] Scenario.s1)
           (Scenario.screened Scenario.w1 ["Q1 == yes"] Scenario.s1) [] []
           "sheet-1" "code").
  - reflexivity.
  - reflexivity.
  - reflexivity.
  - discriminate.
  - discriminate.
  - vm_compute. reflexivity.
Defined.

(** X22.  On a [GoogleForms] object whose screening succeeds and whose
    sheet has values, [merge] writes a file only when it returns and was
    given a non-empty file name: it then writes one file, holding the table
    it returns, and prints one line.  With no name or an empty name, and
    whenever it raises, it adds no event after the screening. *)
Theorem merge_writes_named_file (w : World) (csv_fname : option string)
    (s s1 : Self) (log log1 : list event) (sid q : string) :
  cls s = GoogleForms ->
  spreadsheet_id s = Some sid ->
  srvy_q_text s = Some q ->
  sheet_values w sid "Form Responses 1!A:AZ" <> [] ->
  filter_mturk_results w s log = (Return tt, s1, log1) ->
  exists outcome s3 new,
    merge w csv_fname s log = (outcome, s3, log1 ++ new)
    /\ match outcome, csv_fname with
       | Return out, Some fname =>
           if bool_decide (fname = "") then new = []
           else exists line, new = [ToCsv fname out; Print line]
       | _, _ => new = []
       end.
Proof.
  intros Hcls Hsid Hq Hv Hrun.
  destruct (merge_sheet_outcome w csv_fname s s1 log log1 sid q Hcls Hsid Hq Hv Hrun)
    as [(e & s3 & Hm)
       | (users & complete & filtered & joined & dropped & out & Hm & _)].
  - exists (Raise e), s3, []. rewrite app_nil_r. split; [exact Hm | reflexivity].
  - eexists (Return out), _, _. split; [exact Hm|].
    destruct csv_fname as [fname|]; [|reflexivity].
    destruct (bool_decide (fname = "")); [reflexivity|].
    eexists. reflexivity.
Qed.

Lemma merge_writes_named_file_witness :
  exists outcome s3 new,
    merge Scenario.w1 (Some "merged.csv")
      (Scenario.with_conditions ["Q1 == yes"] Scenario.s1) []
    = (outcome, s3, [] ++ new)
    /\ match outcome, Some "merged.csv" with
       | Return out, Some fname =>
           if bool_decide (fname = "") then new = []
           else exists line, new = [ToCsv fname out; Print line]
       | _, _ => new = []
       end.
Proof.
  apply (merge_writes_named_file Scenario.w1 (Some "merged.csv")
           (Scenario.with_conditions ["Q1 == yes"] Scenario.s1)
           (Scenario.screened Scenario.w1 ["Q1 == yes"] Scenario.s1) [] []
           "sheet-1" "code").
  - reflexivity.
  - reflexivity.
  - reflexivity.
  - discriminate.
  - vm_compute. reflexivity.
Defined.

(** ** Edge cases of the screening *)

(** X23.  A degenerate configuration makes the screening raise before it
    assigns or prints anything: with no task in [HITlist] the concatenation
    raises [ValueError], and with tasks but no question the aggregation of the
    first task raises [IndexError], which the handler of [get_mturk_results]
    does not catch. *)
Theorem filter_mturk_results_degenerate (w : World) (s : Self) (log : list event) :
  HITlist s = [] \/ questions s = [] ->
  filter_mturk_results w s log
  = (Raise match HITlist s with [] => ValueError | _ :: _ => IndexError end, s, log).
Proof.
  intros Hd. unfold filter_mturk_results. unfold bind at 1. rewrite aggregate_run.
  destruct (HITlist s) as [|hit hits] eqn:Hhits.
  - cbn. rewrite app_nil_r. reflexivity.
  - destruct Hd as [|Hq]; [discriminate|]. rewrite Hq.
    cbn. rewrite app_nil_r. reflexivity.
Qed.

Lemma filter_mturk_results_degenerate_witness :
  filter_mturk_results Scenario.w1
    (Scenario.with_conditions ["Q1 == yes"] (Scenario.survey ["T1"] [])) []
  = (Raise IndexError,
     Scenario.with_conditions ["Q1 == yes"] (Scenario.survey ["T1"] []), []).
Proof.
  apply (filter_mturk_results_degenerate Scenario.w1
           (Scenario.with_conditions ["Q1 == yes"] (Scenario.survey ["T1"] [])) []).
  right. reflexivity.
Defined.

Lemma last_stored_last (w : World) (qs hits : list string) (hit : string)
    (objs : list (option MFrame)) (df : MFrame) (acc : option MFrame) :
  rmapM (fetched w qs) hits = Return objs ->
  fetched w qs hit = Return (Some df) ->
  last_stored w qs (hits ++ [hit]) acc = Some df.
Proof.
  intros Hobjs Hlast. revert objs acc Hobjs.
  induction hits as [|h hits IH]; intros objs acc Hobjs.
  - cbn. rewrite Hlast. reflexivity.
  - cbn [rmapM] in Hobjs. cbn [app last_stored].
    destruct (fetched w qs h) as [[d|]|e]; [| |discriminate];
      cbn [rbind] in Hobjs;
      (destruct (rmapM (fetched w qs) hits) as [objs'|]; [|discriminate]);
      apply (IH objs'); reflexivity.
Qed.

Lemma rmapM_app_Return {A B} (f : A -> result B) (xs ys : list A) (zs : list B) :
  rmapM f (xs ++ ys) = Return zs -> exists zs', rmapM f xs = Return zs'.
Proof.
  revert zs. induction xs as [|x xs IH]; intros zs; cbn [app rmapM].
  - intros _. eexists. reflexivity.
  - destruct (f x) as [y|]; [|discriminate]. cbn [rbind].
    destruct (rmapM f (xs ++ ys)) as [zs0|] eqn:Hrest; [|discriminate].
    destruct (IH zs0 eq_refl) as [zs' ->]. intros _. eexists. reflexivity.
Qed.

(** X24.  After a successful screening over several tasks [mturk_resp]
    holds the table of the last task of [HITlist] alone, when that task gave
    a table: the aggregated table is not stored. *)
Theorem filter_mturk_results_keeps_last_table (w : World) (s s1 : Self)
    (log log1 : list event) (hits : list string) (hit : string) (df : MFrame) :
  HITlist s = hits ++ [hit] ->
  (get_mturk_results w hit (questions s) s log).1.1 = Return (Some df) ->
  filter_mturk_results w s log = (Return tt, s1, log1) ->
  mturk_resp s1 = Some df.
Proof.
  intros Hhits Hlast Hrun.
  rewrite get_mturk_results_fetched in Hlast. cbn [fst] in Hlast.
  destruct (filter_mturk_results_inv w s s1 log log1 Hrun)
    as (valid & filtered & conds & aa & au & fa & fu & H1 & H2 & H3 & H4 & H5 & H6 & H7).
  rewrite (filter_mturk_results_run w s log valid filtered conds aa au fa fu
             H1 H2 H3 H4 H5 H6 H7) in Hrun.
  injection Hrun as <- _.
  unfold valid_results_of in H1. rewrite Hhits in H1 |- *.
  destruct (rmapM (fetched w (questions s)) (hits ++ [hit])) as [objs|] eqn:Hobjs;
    [|discriminate].
  destruct (rmapM_app_Return _ _ _ _ Hobjs) as [objs' Hobjs'].
  rewrite (last_stored_last w (questions s) hits hit objs' df None Hobjs' Hlast).
  reflexivity.
Qed.

Lemma filter_mturk_results_keeps_last_table_witness :
  mturk_resp (Scenario.screened Scenario.w2 ["Q1 == yes"] Scenario.s2)
  = Some (mkFrame ["HITID"; "WorkerID"; "AssignmentID"; "Q1"; "Q2"]
            [(0, ["T2"; "R2"; "A2"; "no"; "5"])]).
Proof.
  apply (filter_mturk_results_keeps_last_table Scenario.w2
           (Scenario.with_conditions ["Q1 == yes"] Scenario.s2)
           (Scenario.screened Scenario.w2 ["Q1 == yes"] Scenario.s2)
           [] (filter_mturk_results Scenario.w2
                 (Scenario.with_conditions ["Q1 == yes"] Scenario.s2) []).2
           ["T1"] "T2").
  - reflexivity.
  - vm_compute. reflexivity.
  - vm_compute. reflexivity.
Defined.

(** X25.  A condition on a field that no column of the table carries makes
    the evaluation raise [KeyError], whichever of the six tokens it uses
    (the condition being written as field, blank, token, blank, value, with
    the token the first key of the mapping that occurs in it). *)
Theorem eval_condition_unknown_field (w : World) (table : MFrame)
    (k field value : string) (op : operand) :
  py_index (matching_operands (map fst cond_mapping_dict)
              (field +:+ " " +:+ k +:+ " " +:+ value)) 0 = Return k ->
  dict_get cond_mapping_dict k = Return op ->
  str_in " " field = false ->
  str_in (" " +:+ k +:+ " ") value = false ->
  field ∉ columns table ->
  eval_condition w cond_mapping_dict table (field +:+ " " +:+ k +:+ " " +:+ value)
  = Raise KeyError.
Proof.
  intros Hk Hop Hfield Hvalue Hmiss.
  unfold eval_condition.
  rewrite (parse_condition_written k field value op Hk Hop Hfield Hvalue).
  cbn [rbind fst snd]. unfold apply_operand, operand_mask, getseries, str_accessor, getitem.
  rewrite (label_positions_absent 0 field (columns table) Hmiss).
  destruct op; reflexivity.
Qed.

Lemma eval_condition_unknown_field_witness :
  eval_condition Scenario.w1 cond_mapping_dict (mkFrame ["Q1"] [(0, ["yes"])])
    "Q7 contains ye"
  = Raise KeyError.
Proof.
  apply (eval_condition_unknown_field Scenario.w1 (mkFrame ["Q1"] [(0, ["yes"])])
           "contains" "Q7" "ye" OpContains eq_refl eq_refl eq_refl eq_refl).
  intros Hin. apply list_elem_of_In in Hin. simpl in Hin. intuition discriminate.
Defined.

(** ** The outcome of the aggregation *)


(** X27.  A question named like one of the key columns makes the label
    ambiguous in its table.  With two questions or more, the merge then
    raises [ValueError]: [get_mturk_results] prints "There are no values!"
    and returns [None], and [self.mturk_resp] is not assigned. *)
Theorem get_mturk_results_key_named_question (w : World) (hit_id : string)
    (questionList : list string) (frames : list MFrame) (q : string) (s : Self)
    (log : list event) :
  rmapM (helper w hit_id) questionList = Return frames ->
  2 <= length questionList ->
  q ∈ questionList ->
  q ∈ merge_key ->
  get_mturk_results w hit_id questionList s log
  = (Return None, s, log ++ [Print [PStr "There are no values!"]]).
Proof.
  intros Hframes Hlen Hq Hkey.
  pose proof (helper_frames_keyed w hit_id questionList frames Hframes) as Hkeyed.
  pose proof (rmapM_Return _ _ _ Hframes) as Hall.
  destruct Hall as [|q1 f1 qs frames Hq1 Hrest]; [cbn in Hlen; lia|].
  destruct Hrest as [|q2 f2 qs frames Hq2 Hrest]; [cbn in Hlen; lia|].
  unfold get_mturk_results, bind, lift. rewrite Hframes. unfold merge_or_report.
  destruct (merge_all (f1 :: f2 :: frames)) as [df|e] eqn:Hm.
  - exfalso.
    exact (merge_all_questions_not_keys w hit_id q1 q2 qs f1 f2 frames df
             ltac:(repeat constructor; assumption) Hm q Hq Hkey).
  - destruct (merge_all_raises _ e Hkeyed Hm) as [[Hnil _] | [_ ->]];
      [discriminate | reflexivity].
Qed.

(** X27 (witness).  The question [HITID] next to [Q1] in the scenario. *)
Lemma get_mturk_results_key_named_question_witness :
  get_mturk_results Scenario.w1 "T1" ["Q1"; "HITID"] Scenario.s1 []
  = (Return None, Scenario.s1, [Print [PStr "There are no values!"]]).
Proof.
  apply (get_mturk_results_key_named_question Scenario.w1 "T1" ["Q1"; "HITID"]
           [DataFrame [["T1"; "R1"; "A1"; "yes"]; ["T1"; "R2"; "A2"; "yes"]]
              ["HITID"; "WorkerID"; "AssignmentID"; "Q1"];
            DataFrame [] ["HITID"; "WorkerID"; "AssignmentID"; "HITID"]]
           "HITID" Scenario.s1 []).
  - reflexivity.
  - cbn. lia.
  - apply list_elem_of_further, list_elem_of_here.
  - apply list_elem_of_here.
Defined.

(** Labels that collide only after the suffixes [_x] and [_y] are added:
    the merge raises as well, and the outcome is the same. *)
Example get_mturk_results_suffix_collision :
  get_mturk_results Scenario.w1 "T1" ["Q1_x"; "Q1"; "Q1"] Scenario.s1 []
  = (Return None, Scenario.s1, [Print [PStr "There are no values!"]]).
Proof. reflexivity. Qed.

Lemma no_assignments_no_rows (w : World) (hit_id : string) (done : list string)
    (df : MFrame) :
  all_assignments (assignment_pages w hit_id) = [] ->
  done <> [] ->
  joined_rows_ok w hit_id done df ->
  rows df = [].
Proof.
  intros Hnone Hdone (extra & _ & _ & Hrows).
  destruct (rows df) as [|r rs] eqn:Hr; [reflexivity|].
  destruct (Hrows r ltac:(left)) as (wid & aid & rest & _ & Hans).
  destruct done as [|q done]; [congruence|].
  specialize (Hans q ltac:(left)).
  unfold answered in Hans. rewrite Hnone in Hans. discriminate.
Qed.

Lemma helper_no_assignments (w : World) (hit_id : string) (qs : list string) :
  all_assignments (assignment_pages w hit_id) = [] ->
  rmapM (helper w hit_id) qs
  = Return (map (fun q => DataFrame [] ["HITID"; "WorkerID"; "AssignmentID"; q]) qs).
Proof.
  intros Hnone. induction qs as [|q qs IH]; [reflexivity|].
  cbn [rmapM map]. unfold helper at 1. rewrite Hnone. cbn [rmapM rbind concat].
  rewrite IH. reflexivity.
Qed.

(** X28.  A task without any submitted assignment: for a non-empty list of
    pairwise different questions, none named like a key column,
    [get_mturk_results] returns and stores a table without rows, and
    prints nothing. *)
Theorem get_mturk_results_without_assignments (w : World) (hit_id : string)
    (questionList : list string) (s : Self) (log : list event) :
  all_assignments (assignment_pages w hit_id) = [] ->
  questionList <> [] ->
  NoDup questionList ->
  (forall q, q ∈ questionList -> q ∉ merge_key) ->
  exists df,
    get_mturk_results w hit_id questionList s log
    = (Return (Some df), set_mturk_resp df s, log)
    /\ rows df = [].
Proof.
  intros Hnone Hne Hnd Hkeys.
  pose proof (helper_no_assignments w hit_id questionList Hnone) as Hframes.
  destruct (merge_all_ok w hit_id questionList _ Hframes Hne Hnd Hkeys)
    as (df & Hmerge & _ & Hok).
  exists df. split.
  - unfold get_mturk_results, bind, lift. rewrite Hframes.
    unfold merge_or_report. rewrite Hmerge. reflexivity.
  - eapply no_assignments_no_rows; eassumption.
Qed.

(** X28 (witness).  The task [T9] of the scenario has no submission. *)
Lemma get_mturk_results_without_assignments_witness :
  exists df,
    get_mturk_results Scenario.w1 "T9" ["Q1"; "Q2"] Scenario.s1 []
    = (Return (Some df), set_mturk_resp df Scenario.s1, [])
    /\ rows df = [].
Proof.
  apply (get_mturk_results_without_assignments Scenario.w1 "T9" ["Q1"; "Q2"]
           Scenario.s1 []).
  - reflexivity.
  - discriminate.
  - repeat constructor; rewrite ?elem_of_cons, ?elem_of_nil; intuition discriminate.
  - intros q Hq Hk. apply list_elem_of_In in Hq. apply list_elem_of_In in Hk.
    simpl in Hq, Hk. intuition (subst; discriminate).
Defined.
